(** * hygrep: the incremental semantic index ([src/hygrep/semantic.py])

    A shallow embedding of [SemanticIndex]: the manifest and its migration,
    the indexing pipeline, staleness detection, incremental update and the
    score transform of [search], followed by the properties the
    specification states about them.  With it come the life cycle of an
    index ([is_indexed], [count], [clear]) and what the command line
    ([src/hygrep/cli_v2.py]) builds on it: [build_index], the [rebuild]
    command, the threshold of [semantic_search] and the preview of
    [print_results].

    Modelling conventions.
    - A Python [dict] is an association list in insertion order whose keys
      are distinct ([Dict.wf]); [d[k] = v], [d.get(k)] and [d.pop(k, None)]
      are [Dict.set], [Dict.get] and [Dict.pop].
    - The vector store (omendb) is a finite map from ids to stored items:
      [db.set] upserts, [db.delete] removes the ids that are present.
    - The extractor and the embedder are collaborators outside this module:
      they are parameters of the development.
    - An exception that propagates is the [Raise] outcome of a call; the
      store and the disk keep what was written before it.
    - A Python [str] is the sequence of its UTF-8 bytes.
    - A Python [float] is a binary64 number: the score is computed with the
      primitive floats, whose operations round as IEEE 754 does. *)

From Stdlib Require Import ZArith Ascii String Floats.
From stdpp Require Import gmap strings list pretty.

Local Open Scope Z_scope.

(** ** SHA-256, as [hashlib.sha256] computes it (FIPS 180-4) *)

Module SHA256.

Definition w32 (x : Z) : Z := x mod 2 ^ 32.

Definition rotr (n x : Z) : Z :=
  Z.lor (Z.shiftr x n) (w32 (Z.shiftl x (32 - n))).

Definition Ch (x y z : Z) : Z :=
  Z.lxor (Z.land x y) (Z.land (Z.lxor x 4294967295) z).

Definition Maj (x y z : Z) : Z :=
  Z.lxor (Z.lxor (Z.land x y) (Z.land x z)) (Z.land y z).

Definition Sigma0 (x : Z) : Z :=
  Z.lxor (Z.lxor (rotr 2 x) (rotr 13 x)) (rotr 22 x).

Definition Sigma1 (x : Z) : Z :=
  Z.lxor (Z.lxor (rotr 6 x) (rotr 11 x)) (rotr 25 x).

Definition sigma0 (x : Z) : Z :=
  Z.lxor (Z.lxor (rotr 7 x) (rotr 18 x)) (Z.shiftr x 3).

Definition sigma1 (x : Z) : Z :=
  Z.lxor (Z.lxor (rotr 17 x) (rotr 19 x)) (Z.shiftr x 10).

Definition K : list Z :=
  [ 1116352408; 1899447441; 3049323471; 3921009573; 961987163; 1508970993;
    2453635748; 2870763221; 3624381080; 310598401; 607225278; 1426881987;
    1925078388; 2162078206; 2614888103; 3248222580; 3835390401; 4022224774;
    264347078; 604807628; 770255983; 1249150122; 1555081692; 1996064986;
    2554220882; 2821834349; 2952996808; 3210313671; 3336571891; 3584528711;
    113926993; 338241895; 666307205; 773529912; 1294757372; 1396182291;
    1695183700; 1986661051; 2177026350; 2456956037; 2730485921; 2820302411;
    3259730800; 3345764771; 3516065817; 3600352804; 4094571909; 275423344;
    430227734; 506948616; 659060556; 883997877; 958139571; 1322822218;
    1537002063; 1747873779; 1955562222; 2024104815; 2227730452; 2361852424;
    2428436474; 2756734187; 3204031479; 3329325298 ].

Definition H0 : list Z :=
  [ 1779033703; 3144134277; 1013904242; 2773480762;
    1359893119; 2600822924; 528734635; 1541459225 ].

(** The message followed by the bit 1, zeros and its length in bits on 64
    bits, a multiple of 64 bytes in all. *)
Definition pad (msg : list Z) : list Z :=
  let l := Z.of_nat (length msg) in
  let zeros := Z.to_nat ((55 - l) mod 64) in
  let bits := 8 * l in
  msg ++ [128] ++ replicate zeros 0
      ++ map (fun i => Z.shiftr bits (8 * (7 - Z.of_nat i)) mod 256) (seq 0 8).

Fixpoint words (n : nat) (bytes : list Z) : list Z :=
  match n, bytes with
  | S n', a :: b :: c :: d :: rest =>
      (((a * 256 + b) * 256 + c) * 256 + d) :: words n' rest
  | _, _ => []
  end.

(** The message schedule, most recent word first. *)
Fixpoint schedule (n : nat) (w : list Z) : list Z :=
  match n with
  | O => w
  | S n' =>
      let x := w32 (sigma1 (nth 1 w 0) + nth 6 w 0
                    + sigma0 (nth 14 w 0) + nth 15 w 0) in
      schedule n' (x :: w)
  end.

Definition round (s : list Z) (kw : Z * Z) : list Z :=
  match s with
  | [a; b; c; d; e; f; g; h] =>
      let t1 := h + Sigma1 e + Ch e f g + kw.1 + kw.2 in
      let t2 := Sigma0 a + Maj a b c in
      [w32 (t1 + t2); a; b; c; w32 (d + t1); e; f; g]
  | _ => s
  end.

Definition compress (h : list Z) (block : list Z) : list Z :=
  let w := rev (schedule 48 (rev (words 16 block))) in
  let s := fold_left round (zip K w) h in
  zip_with (fun x y => w32 (x + y)) h s.

Fixpoint blocks (n : nat) (bytes : list Z) : list (list Z) :=
  match n with
  | O => []
  | S n' => take 64 bytes :: blocks n' (drop 64 bytes)
  end.

Definition digest (msg : list Z) : list Z :=
  let p := pad msg in
  fold_left compress (blocks (length p / 64)%nat p) H0.

Definition hex_digit (d : Z) : ascii :=
  ascii_of_nat (Z.to_nat (if d <? 10 then 48 + d else 87 + d)).

Definition hex_word (x : Z) : string :=
  fold_right (fun i acc => String (hex_digit (Z.shiftr x (4 * (7 - Z.of_nat i)) mod 16)) acc)
    EmptyString (seq 0 8).

Definition encode (s : string) : list Z :=
  map (fun a => Z.of_nat (nat_of_ascii a)) (list_ascii_of_string s).

(** [hashlib.sha256(s.encode()).hexdigest()] *)
Definition hexdigest (s : string) : string :=
  fold_right (fun w acc => hex_word w +:+ acc) EmptyString (digest (encode s)).

End SHA256.

(** [hashlib.sha256(content.encode()).hexdigest()[:16]]: the fingerprint
    [index] and [get_stale_files] compare. *)
Definition content_hash (content : string) : string :=
  String.substring 0 16 (SHA256.hexdigest content).

Global Opaque content_hash.

(** ** Outcomes of a call *)

Inductive exn : Type := JSONDecodeError | ValueError | IndexError.

Inductive result (A : Type) : Type :=
| Ok (a : A)
| Raise (e : exn).

Arguments Ok {A} a.
Arguments Raise {A} e.

(** ** Python dictionaries with string keys *)

Module Dict.
Section dict.
Context {V : Type}.

(** [d.get(k)] *)
Fixpoint get (k : string) (d : list (string * V)) : option V :=
  match d with
  | [] => None
  | (k', v) :: d' => if decide (k = k') then Some v else get k d'
  end.

(** [d[k] = v]: the value is replaced where the key stands, a new key goes
    last. *)
Fixpoint set (k : string) (v : V) (d : list (string * V)) : list (string * V) :=
  match d with
  | [] => [(k, v)]
  | (k', v') :: d' =>
      if decide (k = k') then (k, v) :: d' else (k', v') :: set k v d'
  end.

(** [d.pop(k, None)] *)
Fixpoint pop (k : string) (d : list (string * V)) : list (string * V) :=
  match d with
  | [] => []
  | (k', v') :: d' => if decide (k = k') then d' else (k', v') :: pop k d'
  end.

Definition keys (d : list (string * V)) : list string := d.*1.

(** The keys of a dictionary are distinct. *)
Definition wf (d : list (string * V)) : Prop := NoDup (keys d).

End dict.
End Dict.

Abbreviation dict V := (list (string * V)) (only parsing).

(** ** Data model *)

(** A block, as the extractor returns it. *)
Record Block : Type := mkBlock {
  block_type : string;
  block_name : string;
  block_start_line : Z;
  block_end_line : Z;
  block_content : string;
}.

(** The metadata stored with a vector. *)
Record Metadata : Type := mkMetadata {
  meta_file : string;
  meta_type : string;
  meta_name : string;
  meta_start_line : Z;
  meta_end_line : Z;
  meta_content : string;
}.

(** What the store holds under an id. *)
Record Item : Type := mkItem {
  item_embedding : list PrimFloat.float;
  item_metadata : Metadata;
}.

Abbreviation store := (gmap string Item) (only parsing).

(** The path a stored vector originates from. *)
Definition origin (it : Item) : string := meta_file (item_metadata it).

(** A value of the manifest's ["files"] dictionary: the v1 format has the
    hash alone, the v2 format [{"hash": h, "blocks": ids}]. *)
Inductive FileEntry : Type :=
| HashOnly (hash : string)
| Entry (hash : string) (blocks : list string).

(** [{"files": {...}}] *)
Record Manifest : Type := mkManifest {
  files : dict FileEntry;
}.

(** [manifest.json] as [json.loads] finds it: no file, a text that is not
    JSON, or a document. *)
Inductive ManifestFile : Type :=
| NoFile
| Unparsable
| Document (data : Manifest).

(** The index of one root: the vector store, the manifest file, and the
    documents [_save_manifest] has written, most recent first. *)
Record State : Type := mkState {
  db : store;
  manifest_file : ManifestFile;
  saved : list Manifest;
}.

(** The stats dictionary; [update]'s early return has no ["errors"] key. *)
Record Stats : Type := mkStats {
  stat_files : nat;
  stat_blocks : nat;
  stat_skipped : nat;
  stat_errors : option nat;
  stat_deleted : nat;
}.

(** A block staged for embedding (an element of [all_blocks]). *)
Record BlockInfo : Type := mkBlockInfo {
  bi_id : string;
  bi_file : string;
  bi_file_hash : string;
  bi_block : Block;
  bi_text : string;
}.

(** A raw result of [db.search] and a result of [search]. *)
Record RawResult : Type := mkRawResult {
  raw_distance : option PrimFloat.float;
  raw_metadata : option Metadata;
}.

Record SearchResult : Type := mkSearchResult {
  res_file : string;
  res_type : string;
  res_name : string;
  res_line : Z;
  res_end_line : Z;
  res_content : string;
  res_score : PrimFloat.float;
}.

(** ** The vector store *)

(** [db.delete(ids)] *)
Definition db_delete (ids : list string) (d : store) : store :=
  fold_left (fun d id => delete id d) ids d.

(** [db.set(items)]: an upsert, in the order of the list. *)
Definition db_set (items : list (string * Item)) (d : store) : store :=
  fold_left (fun d it => <[it.1 := it.2]> d) items d.

(** ** Manifest store *)

(** The migration loop of [_load_manifest]: every value that is a bare
    string is replaced by [{"hash": value, "blocks": []}]. *)
Definition migrate (fs : dict FileEntry) : dict FileEntry :=
  fold_left
    (fun acc pv =>
       match pv.2 with
       | HashOnly h => Dict.set pv.1 (Entry h []) acc
       | Entry _ _ => acc
       end)
    fs fs.

(** What the migration makes of one value. *)
Definition upgrade (value : FileEntry) : FileEntry :=
  match value with
  | HashOnly h => Entry h []
  | Entry h blocks => Entry h blocks
  end.

Definition _load_manifest (s : State) : result Manifest :=
  match manifest_file s with
  | NoFile => Ok (mkManifest [])
  | Unparsable => Raise JSONDecodeError
  | Document data => Ok (mkManifest (migrate (files data)))
  end.

Definition _save_manifest (manifest : Manifest) (s : State) : State :=
  mkState (db s) (Document manifest) (manifest :: saved s).

(** ** Block identity *)

Definition newline : string := String (ascii_of_nat 10) EmptyString.

(** [f"{file_path}:{block['start_line']}:{block['name']}"] *)
Definition block_id (file_path : string) (b : Block) : string :=
  file_path +:+ ":" +:+ pretty (block_start_line b) +:+ ":" +:+ block_name b.

(** [f"{block['type']} {block['name']}\n{block['content']}"] *)
Definition block_text (b : Block) : string :=
  block_type b +:+ " " +:+ block_name b +:+ newline +:+ block_content b.

Definition stage (file_path file_hash : string) (b : Block) : BlockInfo :=
  mkBlockInfo (block_id file_path b) file_path file_hash b (block_text b).

Definition item_of (bi : BlockInfo) (embedding : list PrimFloat.float) : Item :=
  mkItem embedding
    (mkMetadata (bi_file bi) (block_type (bi_block bi)) (block_name (bi_block bi))
       (block_start_line (bi_block bi)) (block_end_line (bi_block bi))
       (block_content (bi_block bi))).

(** [file_entry.get("blocks", []) if isinstance(file_entry, dict) else []],
    where [None] is the default [{}] of [.get(file_path, {})]. *)
Definition entry_blocks (file_entry : option FileEntry) : list string :=
  match file_entry with
  | Some (Entry _ blocks) => blocks
  | _ => []
  end.

(** [isinstance(file_entry, dict) and file_entry.get("hash") == file_hash] *)
Definition entry_unchanged (file_entry : option FileEntry) (file_hash : string) : bool :=
  match file_entry with
  | Some (Entry h _) => bool_decide (h = file_hash)
  | _ => false
  end.

(** [file_entry.get("hash") if isinstance(file_entry, dict) else file_entry] *)
Definition stored_hash (file_entry : option FileEntry) : option string :=
  match file_entry with
  | Some (Entry h _) => Some h
  | Some (HashOnly h) => Some h
  | None => None
  end.

(** [range(0, total, step)] *)
Definition range_from_0 (total : nat) (step : Z) : result (list nat) :=
  if decide (step = 0) then Raise ValueError
  else if decide (step < 0) then Ok []
  else
    let n := Z.to_nat step in
    Ok (map (fun k => (k * n)%nat) (seq 0 ((total + n - 1) / n)%nat)).

(** [(2.0 - r.get("distance", 0)) / 2.0] *)
Definition score (distance : option PrimFloat.float) : PrimFloat.float :=
  ((2 - default 0 distance) / 2)%float.

Definition format_result (r : RawResult) : SearchResult :=
  match raw_metadata r with
  | Some meta =>
      mkSearchResult (meta_file meta) (meta_type meta) (meta_name meta)
        (meta_start_line meta) (meta_end_line meta) (meta_content meta)
        (score (raw_distance r))
  | None => mkSearchResult "" "" "" 0 0 "" (score (raw_distance r))
  end.

(** The binary64 numbers 2.0 and 1.0, as [Prim2SF] gives them. *)
Definition two_sf : spec_float := S754_finite false 4503599627370496 (-51).
Definition one_sf : spec_float := S754_finite false 4503599627370496 (-52).

(** The least integer above a mantissa [mx] that is followed by the digits
    the location [lx] stands for. *)
Definition up_mantissa (mx : Z) (lx : location) : Z :=
  match lx with loc_Exact => mx | loc_Inexact _ => mx + 1 end.

(** The place of a float in the order of [SFcompare]: the infinities at
    the ends, the two zeros together, the finite floats by sign, exponent
    and mantissa; and the order of these places. *)
Definition rank (f : spec_float) : Z * Z * Z :=
  match f with
  | S754_infinity true => (-2, 0, 0)
  | S754_finite true m e => (-1, - e, - Z.pos m)
  | S754_zero _ => (0, 0, 0)
  | S754_finite false m e => (1, e, Z.pos m)
  | S754_infinity false => (2, 0, 0)
  | S754_nan => (3, 0, 0)
  end.

Definition lex_le (a b : Z * Z * Z) : Prop :=
  a.1.1 < b.1.1 \/ (a.1.1 = b.1.1 /\ (a.1.2 < b.1.2 \/ (a.1.2 = b.1.2 /\ a.2 <= b.2))).

Definition lex_lt (a b : Z * Z * Z) : Prop :=
  a.1.1 < b.1.1 \/ (a.1.1 = b.1.1 /\ (a.1.2 < b.1.2 \/ (a.1.2 = b.1.2 /\ a.2 < b.2))).

(** What a result [r] of [search] owes to the raw result [raw] it was made
    from: its score is the transform of the raw distance, which sends 0 to
    1.0, 2 to 0.0 and the distances between 0 and 2 to scores between 0
    and 1. *)
Definition score_spec (raw : RawResult) (r : SearchResult) : Prop :=
  res_score r = score (raw_distance raw)
  /\ forall d,
       raw_distance raw = Some d ->
       res_score r = ((2 - d) / 2)%float
       /\ (d = 0%float -> res_score r = 1%float)
       /\ (d = 2%float -> res_score r = 0%float)
       /\ ((0 <=? d)%float = true -> (d <=? 2)%float = true ->
           (0 <=? res_score r)%float = true /\ (res_score r <=? 1)%float = true).

(** ** A small index, for the examples *)

Module Demo.

(** An extractor: it raises on the text ["((("], finds no block in an empty
    file and one function, on line 1, in any other. *)
Definition extract (file_path content : string) : option (list Block) :=
  if decide (content = "(((") then None
  else if decide (content = "") then Some []
  else Some [mkBlock "function" "main" 1 1 content].

(** An embedder: one row per text. *)
Definition embed (texts : list string) : list (list PrimFloat.float) :=
  map (fun _ => [1%float]) texts.

(** A legacy document and a state that holds it. *)
Definition legacy : Manifest :=
  mkManifest [("a.py", HashOnly "0123456789abcdef"); ("b.py", Entry "fedcba9876543210" ["b.py:1:main"])].

Definition legacy_state : State := mkState ∅ (Document legacy) [].

(** The index of a new root. *)
Definition fresh : State := mkState ∅ NoFile [].

(** Two files, and the index after they were indexed from [fresh]. *)
Definition src_a : string := "def a(): pass".
Definition src_b : string := "def b(): pass".

Definition two_files : dict string := [("a.py", src_a); ("b.py", src_b)].

Definition item (file_path content : string) : Item :=
  mkItem [1%float] (mkMetadata file_path "function" "main" 1 1 content).

Definition manifest_two : Manifest :=
  mkManifest
    [("a.py", Entry (content_hash src_a) ["a.py:1:main"]);
     ("b.py", Entry (content_hash src_b) ["b.py:1:main"])].

Definition indexed : State :=
  mkState
    (<["b.py:1:main" := item "b.py" src_b]> (<["a.py:1:main" := item "a.py" src_a]> ∅))
    (Document manifest_two) [manifest_two].

(** Later file sets: [a.py] edited; [b.py] removed; [a.py] no longer
    parses while [b.py] is edited; [a.py] emptied. *)
Definition a_edited : dict string := [("a.py", "def a(): return 1"); ("b.py", src_b)].
Definition b_removed : dict string := [("a.py", src_a)].
Definition a_broken : dict string := [("a.py", "((("); ("b.py", "def b(): return 2")].
Definition a_emptied : dict string := [("a.py", ""); ("b.py", src_b)].

(** The index after [a_broken] was indexed from [fresh]: [a.py] has no
    entry. *)
Definition manifest_b : Manifest :=
  mkManifest [("b.py", Entry (content_hash "def b(): return 2") ["b.py:1:main"])].

Definition b_indexed : State :=
  mkState (<["b.py:1:main" := item "b.py" "def b(): return 2"]> ∅)
    (Document manifest_b) [manifest_b].

(** The index after [a_broken] was indexed from [indexed]: the entry of
    [a.py] is the old one, its vector is gone. *)
Definition manifest_broken : Manifest :=
  mkManifest
    [("a.py", Entry (content_hash src_a) ["a.py:1:main"]);
     ("b.py", Entry (content_hash "def b(): return 2") ["b.py:1:main"])].

Definition broken_indexed : State :=
  mkState (<["b.py:1:main" := item "b.py" "def b(): return 2"]> ∅)
    (Document manifest_broken) [manifest_broken; manifest_two].

(** The index after [a_edited] was indexed from [indexed]. *)
Definition manifest_edited : Manifest :=
  mkManifest
    [("a.py", Entry (content_hash "def a(): return 1") ["a.py:1:main"]);
     ("b.py", Entry (content_hash src_b) ["b.py:1:main"])].

Definition edited_indexed : State :=
  mkState
    (<["b.py:1:main" := item "b.py" src_b]>
       (<["a.py:1:main" := item "a.py" "def a(): return 1"]> ∅))
    (Document manifest_edited) [manifest_edited; manifest_two].

(** A store that answers every query with the same two raw results: an
    indexed block at distance 0.5, and a result with neither a distance nor
    metadata. *)
Definition db_search (d : store) (q : list PrimFloat.float) (k : Z) : list RawResult :=
  [mkRawResult (Some 0.5%float) (Some (mkMetadata "a.py" "function" "main" 1 1 src_a));
   mkRawResult None None].

(** The legacy document as [_load_manifest] returns it. *)
Definition migrated : Manifest :=
  mkManifest [("a.py", Entry "0123456789abcdef" []); ("b.py", Entry "fedcba9876543210" ["b.py:1:main"])].

(** An embedder that returns no row. *)
Definition no_rows (texts : list string) : list (list PrimFloat.float) := [].

(** The index of the two files after the vector of [a.py] was deleted. *)
Definition a_lost : State :=
  mkState (<["b.py:1:main" := item "b.py" src_b]> ∅) (Document manifest_two) [manifest_two].

(** The index of the two files with a manifest that does not parse. *)
Definition corrupt : State := mkState (db indexed) Unparsable [manifest_two].

(** The index that [rebuild] makes of [corrupt]. *)
Definition rebuilt : State :=
  mkState (db indexed) (Document manifest_two) [manifest_two; manifest_two].

(** The index after [b_removed] was given to [update] from [indexed]. *)
Definition manifest_a : Manifest :=
  mkManifest [("a.py", Entry (content_hash src_a) ["a.py:1:main"])].

Definition a_only : State :=
  mkState (<["a.py:1:main" := item "a.py" src_a]> ∅) (Document manifest_a)
    [manifest_a; manifest_two].

(** The index after [two_files] was indexed from [fresh] with a negative
    batch size. *)
Definition unembedded : State := mkState ∅ (Document manifest_two) [manifest_two].

(** A content of five lines: one is empty, one is blank, one has 90
    characters. *)
Definition long_line : list ascii := replicate 90 "x"%char.

Definition five_lines : list ascii :=
  list_ascii_of_string "def a():" ++ ["010"%char; "010"%char; " "%char; "010"%char]
    ++ long_line ++ ["010"%char] ++ list_ascii_of_string "    pass".

(** An index recorded in the v1 format: the manifest has the hashes of
    [a.py] and of [old.py], the store a vector of each. *)
Definition v1_manifest : Manifest :=
  mkManifest [("a.py", HashOnly (content_hash src_a)); ("old.py", HashOnly "0123456789abcdef")].

Definition v1_index : State :=
  mkState
    (<["old.py:1:main" := item "old.py" "def old(): pass"]>
       (<["a.py:1:main" := item "a.py" src_a]> ∅))
    (Document v1_manifest) [].

(** [a.py] parses again after [a_broken], and the index after this file set
    was indexed from [broken_indexed]. *)
Definition a_fixed : dict string := [("a.py", "def a(): return 1"); ("b.py", "def b(): return 2")].

Definition manifest_fixed : Manifest :=
  mkManifest
    [("a.py", Entry (content_hash "def a(): return 1") ["a.py:1:main"]);
     ("b.py", Entry (content_hash "def b(): return 2") ["b.py:1:main"])].

Definition fixed_indexed : State :=
  mkState
    (<["a.py:1:main" := item "a.py" "def a(): return 1"]>
       (<["b.py:1:main" := item "b.py" "def b(): return 2"]> ∅))
    (Document manifest_fixed) [manifest_fixed; manifest_broken; manifest_two].

(** An index whose entry of [a.py] lists the id of its vector twice, as it
    is recorded for a file with two blocks of one name on one line. *)
Definition manifest_twice : Manifest :=
  mkManifest [("a.py", Entry (content_hash src_a) ["a.py:1:main"; "a.py:1:main"])].

Definition twice_indexed : State :=
  mkState (<["a.py:1:main" := item "a.py" src_a]> ∅) (Document manifest_twice) [manifest_twice].

(** Paths and names with [":"]. An extractor that finds one function in
    every file: in the file [a] it is named [2:f] and is on line 1, in any
    other file it is named as the content says and is on line 2. *)
Definition extract_colon (file_path content : string) : option (list Block) :=
  if decide (file_path = "a") then Some [mkBlock "function" "2:f" 1 1 content]
  else Some [mkBlock "function" content 2 2 content].

(** The index of the file [a], as [index] makes it from [fresh]. *)
Definition manifest_colon : Manifest :=
  mkManifest [("a", Entry (content_hash "x") ["a:1:2:f"])].

Definition colon_indexed : State :=
  mkState (<["a:1:2:f" := mkItem [1%float] (mkMetadata "a" "function" "2:f" 1 1 "x")]> ∅)
    (Document manifest_colon) [manifest_colon].

(** The file [a] is gone and there is a file [a:1], and the index after
    [update] was given this file set from [colon_indexed]. *)
Definition a_renamed : dict string := [("a:1", "f")].

Definition manifest_renamed : Manifest :=
  mkManifest [("a:1", Entry (content_hash "f") ["a:1:2:f"])].

Definition renamed_indexed : State :=
  mkState (<["a:1:2:f" := mkItem [1%float] (mkMetadata "a:1" "function" "f" 2 2 "f")]> ∅)
    (Document manifest_renamed) [manifest_renamed; mkManifest []; manifest_colon].

(** The files [a] and [a:1], the index [index] makes of them from [fresh],
    and the file set after [a:1] was edited. *)
Definition colon_files : dict string := [("a", "x"); ("a:1", "g")].

Definition manifest_colon_two : Manifest :=
  mkManifest
    [("a", Entry (content_hash "x") ["a:1:2:f"]);
     ("a:1", Entry (content_hash "g") ["a:1:2:g"])].

Definition colon_two_indexed : State :=
  mkState
    (<["a:1:2:g" := mkItem [1%float] (mkMetadata "a:1" "function" "g" 2 2 "g")]>
       (<["a:1:2:f" := mkItem [1%float] (mkMetadata "a" "function" "2:f" 1 1 "x")]> ∅))
    (Document manifest_colon_two) [manifest_colon_two].

Definition colon_edited : dict string := [("a", "x"); ("a:1", "f")].

End Demo.

(** ** The index *)

Section SemanticIndex.

Set Default Proof Using "Type".

(** [self.extractor.extract(file_path, query="", content=content)]; [None]
    when it raises. *)
Variable extract : string -> string -> option (list Block).

(** [self.embedder.embed(texts)] *)
Variable embed : list string -> list (list PrimFloat.float).

(** [db.search(vector, k=k)] *)
Variable db_search : store -> list PrimFloat.float -> Z -> list RawResult.

(** The variables of the loop over [files.items()] in [index]. *)
Record Scan : Type := mkScan {
  sc_stats : Stats;
  sc_all_blocks : list BlockInfo;
  sc_files_to_update : dict FileEntry;
  sc_db : store;
}.

(** One iteration of the loop over [files.items()]. *)
Definition scan_file (manifest : Manifest) (acc : Scan) (fc : string * string) : Scan :=
  let file_path := fc.1 in
  let content := fc.2 in
  let stats := sc_stats acc in
  let file_hash := content_hash content in
  let file_entry := Dict.get file_path (files manifest) in
  if entry_unchanged file_entry file_hash then
    mkScan
      (mkStats (stat_files stats) (stat_blocks stats) (S (stat_skipped stats))
         (stat_errors stats) (stat_deleted stats))
      (sc_all_blocks acc) (sc_files_to_update acc) (sc_db acc)
  else
    let old_blocks := entry_blocks file_entry in
    let d :=
      match old_blocks with [] => sc_db acc | _ => db_delete old_blocks (sc_db acc) end in
    let deleted :=
      match old_blocks with
      | [] => stat_deleted stats
      | _ => (stat_deleted stats + length old_blocks)%nat
      end in
    match extract file_path content with
    | Some blocks =>
        let new_block_ids := map (block_id file_path) blocks in
        mkScan
          (mkStats (S (stat_files stats)) (stat_blocks stats) (stat_skipped stats)
             (stat_errors stats) deleted)
          (sc_all_blocks acc ++ map (stage file_path file_hash) blocks)
          (Dict.set file_path (Entry file_hash new_block_ids) (sc_files_to_update acc))
          d
    | None =>
        mkScan
          (mkStats (stat_files stats) (stat_blocks stats) (stat_skipped stats)
             (S <$> stat_errors stats) deleted)
          (sc_all_blocks acc) (sc_files_to_update acc) d
    end.

Definition scan (manifest : Manifest) (fs : dict string) (d : store) : Scan :=
  fold_left (scan_file manifest) fs (mkScan (mkStats 0 0 0 (Some 0%nat) 0) [] [] d).

(** The items of one batch: [embeddings[j]] raises when the embedder
    returned fewer rows than texts. *)
Fixpoint make_items (j : nat) (batch : list BlockInfo)
    (embeddings : list (list PrimFloat.float)) : result (list (string * Item)) :=
  match batch with
  | [] => Ok []
  | block_info :: rest =>
      match embeddings !! j with
      | None => Raise IndexError
      | Some e =>
          match make_items (S j) rest embeddings with
          | Ok items => Ok ((bi_id block_info, item_of block_info e) :: items)
          | Raise x => Raise x
          end
      end
  end.

(** The loop over [range(0, total, batch_size)]: embed a batch, store it,
    count it. The store is returned as the loop left it, also when a batch
    raises. *)
Fixpoint embed_batches (all_blocks : list BlockInfo) (batch_size : nat)
    (starts : list nat) (d : store) (blocks : nat) : result nat * store :=
  match starts with
  | [] => (Ok blocks, d)
  | i :: rest =>
      let batch := take batch_size (drop i all_blocks) in
      let texts := map bi_text batch in
      match make_items 0 batch (embed texts) with
      | Raise x => (Raise x, d)
      | Ok items =>
          embed_batches all_blocks batch_size rest (db_set items d)
            (blocks + length batch)%nat
      end
  end.

(** The loop that copies [files_to_update] into [manifest["files"]]. *)
Definition merge_entries (files_to_update fs : dict FileEntry) : dict FileEntry :=
  fold_left (fun acc pe => Dict.set pe.1 pe.2 acc) files_to_update fs.

(** [SemanticIndex.index(files, batch_size)]; the progress callback is left
    out. *)
Definition index (fs : dict string) (batch_size : Z) (s : State) : result Stats * State :=
  match _load_manifest s with
  | Raise x => (Raise x, s)
  | Ok manifest =>
      let sc := scan manifest fs (db s) in
      let stats := sc_stats sc in
      let s1 := mkState (sc_db sc) (manifest_file s) (saved s) in
      match sc_all_blocks sc with
      | [] => (Ok stats, s1)
      | _ :: _ =>
          let total := length (sc_all_blocks sc) in
          match range_from_0 total batch_size with
          | Raise x => (Raise x, s1)
          | Ok starts =>
              match embed_batches (sc_all_blocks sc) (Z.to_nat batch_size) starts
                      (sc_db sc) (stat_blocks stats) with
              | (Raise x, d) => (Raise x, mkState d (manifest_file s) (saved s))
              | (Ok blocks, d) =>
                  let manifest' :=
                    mkManifest (merge_entries (sc_files_to_update sc) (files manifest)) in
                  (Ok (mkStats (stat_files stats) blocks (stat_skipped stats)
                         (stat_errors stats) (stat_deleted stats)),
                   _save_manifest manifest' (mkState d (manifest_file s) (saved s)))
              end
          end
      end
  end.

(** [SemanticIndex.search(query, k)] on the raw results of the store. *)
Definition search (query : string) (k : Z) (s : State) : result (list SearchResult) :=
  match embed [query] !! 0%nat with
  | None => Raise IndexError
  | Some query_embedding => Ok (map format_result (db_search (db s) query_embedding k))
  end.

(** [SemanticIndex.get_stale_files(files)] *)
Definition get_stale_files (fs : dict string) (s : State) : result (list string * list string) :=
  match _load_manifest s with
  | Raise x => Raise x
  | Ok manifest =>
      let indexed_files := files manifest in
      let changed :=
        (filter (fun fc => stored_hash (Dict.get fc.1 indexed_files) <> Some (content_hash fc.2)) fs).*1 in
      let current_files := Dict.keys fs in
      let deleted := filter (fun f => f ∉ current_files) (Dict.keys indexed_files) in
      Ok (changed, deleted)
  end.

(** [SemanticIndex.needs_update(files)] *)
Definition needs_update (fs : dict string) (s : State) : result nat :=
  match get_stale_files fs s with
  | Raise x => Raise x
  | Ok (changed, deleted) => Ok (length changed + length deleted)%nat
  end.

(** One iteration of the loop over [deleted] in [update]; the accumulator
    is the store, [manifest["files"]] and [deleted_count]. *)
Definition delete_file (acc : store * dict FileEntry * nat) (f : string)
    : store * dict FileEntry * nat :=
  let '(d, fs, deleted_count) := acc in
  let old_blocks := entry_blocks (Dict.get f fs) in
  match old_blocks with
  | [] => (d, Dict.pop f fs, deleted_count)
  | _ => (db_delete old_blocks d, Dict.pop f fs, (deleted_count + length old_blocks)%nat)
  end.

(** [{f: files[f] for f in changed if f in files}] *)
Definition restrict (fs : dict string) (changed : list string) : dict string :=
  fold_left
    (fun acc f => match Dict.get f fs with Some c => Dict.set f c acc | None => acc end)
    changed [].

(** [SemanticIndex.update(files)]; [index] runs with its default batch
    size. *)
Definition update (fs : dict string) (s : State) : result Stats * State :=
  match get_stale_files fs s with
  | Raise x => (Raise x, s)
  | Ok (changed, deleted) =>
      match changed, deleted with
      | [], [] => (Ok (mkStats 0 0 (length fs) None 0), s)
      | _, _ =>
          match _load_manifest s with
          | Raise x => (Raise x, s)
          | Ok manifest =>
              let '(s1, deleted_count) :=
                match deleted with
                | [] => (s, 0%nat)
                | _ =>
                    let '(d, fs', n) :=
                      fold_left delete_file deleted (db s, files manifest, 0%nat) in
                    (_save_manifest (mkManifest fs') (mkState d (manifest_file s) (saved s)), n)
                end in
              let changed_files := restrict fs changed in
              match index changed_files 128 s1 with
              | (Raise x, s2) => (Raise x, s2)
              | (Ok stats, s2) =>
                  (Ok (mkStats (stat_files stats) (stat_blocks stats) (stat_skipped stats)
                         (stat_errors stats) (stat_deleted stats + deleted_count)),
                   s2)
              end
          end
      end
  end.

(** *** What the scan of a file set computes

    The loop of [index] read as a whole: each path is skipped, or its old
    ids are deleted and it is either staged or counted as an error. *)

(** The hash recorded for the path is the hash of the content in hand. *)
Definition unchanged (mf : dict FileEntry) (fc : string * string) : bool :=
  entry_unchanged (Dict.get fc.1 mf) (content_hash fc.2).

(** The ids the loop deletes from the store. *)
Definition old_ids (mf : dict FileEntry) (fs : dict string) : list string :=
  flat_map (fun fc => if unchanged mf fc then [] else entry_blocks (Dict.get fc.1 mf)) fs.

(** The blocks of one path, staged. *)
Definition staged_of (fc : string * string) : list BlockInfo :=
  match extract fc.1 fc.2 with
  | Some blocks => map (stage fc.1 (content_hash fc.2)) blocks
  | None => []
  end.

(** The pending manifest entry of one path. *)
Definition pending_of (fc : string * string) : dict FileEntry :=
  match extract fc.1 fc.2 with
  | Some blocks => [(fc.1, Entry (content_hash fc.2) (map (block_id fc.1) blocks))]
  | None => []
  end.

Definition staged (mf : dict FileEntry) (fs : dict string) : list BlockInfo :=
  flat_map (fun fc => if unchanged mf fc then [] else staged_of fc) fs.

Definition pending (mf : dict FileEntry) (fs : dict string) : dict FileEntry :=
  flat_map (fun fc => if unchanged mf fc then [] else pending_of fc) fs.

Definition n_skipped (mf : dict FileEntry) (fs : dict string) : nat :=
  length (filter (fun fc => unchanged mf fc = true) fs).

Definition n_failed (mf : dict FileEntry) (fs : dict string) : nat :=
  length (filter (fun fc => unchanged mf fc = false /\ extract fc.1 fc.2 = None) fs).

Definition n_indexed (mf : dict FileEntry) (fs : dict string) : nat :=
  length (filter (fun fc => unchanged mf fc = false /\ is_Some (extract fc.1 fc.2)) fs).

(** The store after the batches of a call: every id holds what it held
    before or a vector staged in this call, and every staged block is
    stored. *)
Definition stored (d0 : store) (all_blocks : list BlockInfo) (d' : store) : Prop :=
  (forall id,
     d' !! id = d0 !! id
     \/ exists bi e, bi ∈ all_blocks /\ bi_id bi = id /\ d' !! id = Some (item_of bi e))
  /\ (forall bi, bi ∈ all_blocks ->
        exists bi' e,
          bi' ∈ all_blocks /\ bi_id bi' = bi_id bi
          /\ d' !! bi_id bi = Some (item_of bi' e)).

(** A manifest written by [_save_manifest] after a load has values of the
    v2 format only: loading it gives it back. *)
Definition v2_only (fs : dict FileEntry) : Prop :=
  Forall (fun pv => upgrade pv.2 = pv.2) fs.

(** The keys of the document on disk are distinct, as those of any JSON
    object [json.loads] returns. *)
Definition disk_wf (s : State) : Prop :=
  match manifest_file s with
  | Document data => Dict.wf (files data)
  | _ => True
  end.

(** *** Agreement of the manifest and the store *)

(** A path without [":"], and an id that starts with a path and [":"], as
    [block_id] builds it. Ids of paths without [":"] determine their
    path. *)
Definition no_colon (p : string) : Prop := ":"%char ∉ String.list_ascii_of_string p.

Definition id_of_path (p id : string) : Prop := exists rest, id = p +:+ ":" +:+ rest.

(** The invariant of a file entry: its block ids are exactly the ids of the
    vectors in the store that originate from its path. *)
Definition blocks_match (d : store) (mf : dict FileEntry) : Prop :=
  forall p e, Dict.get p mf = Some e ->
    forall id, id ∈ entry_blocks (Some e) <-> exists it, d !! id = Some it /\ origin it = p.

(** Every vector of the store originates from a path of the manifest and
    has an id built from that path. *)
Definition store_wf (d : store) (mf : dict FileEntry) : Prop :=
  forall id it, d !! id = Some it ->
    is_Some (Dict.get (origin it) mf) /\ no_colon (origin it) /\ id_of_path (origin it) id.

(** The manifest on disk loads, and it agrees with the store. *)
Definition consistent (s : State) : Prop :=
  exists m,
    _load_manifest s = Ok m /\ disk_wf s
    /\ blocks_match (db s) (files m) /\ store_wf (db s) (files m).

(** *** What the deletion loop of [update] computes *)

Definition deleted_ids (mf : dict FileEntry) (deleted : list string) : list string :=
  flat_map (fun f => entry_blocks (Dict.get f mf)) deleted.

Definition pop_all (deleted : list string) (mf : dict FileEntry) : dict FileEntry :=
  fold_left (fun acc f => Dict.pop f acc) deleted mf.

(** The changed files and the deleted paths of [get_stale_files], and the
    state in which [update] calls [index]. *)
Definition stale_changed (mf : dict FileEntry) (fs : dict string) : dict string :=
  filter (fun fc => stored_hash (Dict.get fc.1 mf) <> Some (content_hash fc.2)) fs.

Definition stale_deleted (mf : dict FileEntry) (fs : dict string) : list string :=
  filter (fun f => f ∉ Dict.keys fs) (Dict.keys mf).

Definition after_deletions (s : State) (mf : dict FileEntry) (deleted : list string) : State :=
  match deleted with
  | [] => s
  | _ =>
      _save_manifest (mkManifest (pop_all deleted mf))
        (mkState (db_delete (deleted_ids mf deleted) (db s)) (manifest_file s) (saved s))
  end.

(** *** The effect of re-indexing one path on the store *)

(** The old ids of the path that are not ids of its new blocks are gone,
    the ids of its new blocks hold vectors of the path, and the path has
    no other vector. *)
Definition propagated (p : string) (old new : list string) (d' : store) : Prop :=
  (forall id, id ∈ old -> id ∉ new -> d' !! id = None)
  /\ (forall id, id ∈ new -> exists it, d' !! id = Some it /\ origin it = p)
  /\ (forall id it, d' !! id = Some it -> origin it = p -> id ∈ new).

(** What re-indexing one path does to a store [d], whatever [d] holds: the
    old ids that are not ids of new blocks are absent, the ids of the new
    blocks hold vectors of the path, and every other id holds what it held
    in [d]. *)
Definition replaced (p : string) (old new : list string) (d d' : store) : Prop :=
  (forall id, id ∈ old -> id ∉ new -> d' !! id = None)
  /\ (forall id, id ∈ new -> exists it, d' !! id = Some it /\ origin it = p)
  /\ (forall id, id ∉ old -> id ∉ new -> d' !! id = d !! id).

(** ** The life cycle of an index and the command line *)

(** [SemanticIndex.is_indexed()], and [index_exists] of the command line:
    [manifest.json] exists. *)
Definition is_indexed (s : State) : bool :=
  match manifest_file s with
  | NoFile => false
  | _ => true
  end.

(** [SemanticIndex.count()] *)
Definition count (s : State) : nat :=
  if is_indexed s then size (db s) else 0%nat.

(** [SemanticIndex.clear()]: the index directory is removed, with the
    manifest and the vectors in it. *)
Definition clear (s : State) : State := mkState ∅ NoFile (saved s).

(** [build_index(root)] of the command line, on the files the scanner
    found: nothing is done for an empty scan. *)
Definition build_index (fs : dict string) (s : State) : result unit * State :=
  match fs with
  | [] => (Ok (), s)
  | _ :: _ =>
      match index fs 128 s with
      | (Raise x, s') => (Raise x, s')
      | (Ok _, s') => (Ok (), s')
      end
  end.

(** The [rebuild] command. *)
Definition rebuild (fs : dict string) (s : State) : result unit * State :=
  build_index fs (if is_indexed s then clear s else s).

(** [semantic_search(query, root, n, threshold)] of the command line. *)
Definition semantic_search (query : string) (n : Z) (threshold : PrimFloat.float) (s : State)
    : result (list SearchResult) :=
  match search query n s with
  | Raise x => Raise x
  | Ok results =>
      Ok (if (0 <? threshold)%float
          then filter (fun r => (threshold <=? res_score r)%float = true) results
          else results)
  end.

(** The content preview of [print_results]. A [str] is a sequence of
    characters of any alphabet: [nl] is its newline, [is_space] tells its
    white space, [dot] is its full stop. *)
Section preview.
Context {char : Type} `{!EqDecision char}.
Variables (nl dot : char) (is_space : char -> bool).

(** [content.split("\n")] *)
Fixpoint split_lines (content : list char) : list (list char) :=
  match content with
  | [] => [[]]
  | c :: rest =>
      if decide (c = nl) then [] :: split_lines rest
      else
        match split_lines rest with
        | ln :: lines => (c :: ln) :: lines
        | [] => [[c]]
        end
  end.

(** [ln.strip()] is not empty. *)
Definition not_blank (ln : list char) : bool := existsb (fun c => negb (is_space c)) ln.

(** [content_line[:77] + "..."] when [len(content_line) > 80] *)
Definition truncate (content_line : list char) : list char :=
  if decide (80 < length content_line)%nat
  then take 77 content_line ++ [dot; dot; dot]
  else content_line.

(** The lines that are printed under a result. *)
Definition preview (content : list char) : list (list char) :=
  truncate <$> take 3 (filter (fun ln => not_blank ln = true) (split_lines content)).

End preview.

(** * Properties *)

(** ** Facts about dictionaries *)

Section dict_facts.
Context {V : Type}.
Implicit Types (d : dict V) (k : string) (v : V).

Lemma get_None d k : Dict.get k d = None <-> k ∉ Dict.keys d.
Proof.
  unfold Dict.keys. induction d as [|[k' v'] d IH]; simpl.
  - split; [intros _; apply not_elem_of_nil | done].
  - rewrite not_elem_of_cons. destruct (decide (k = k')) as [->|Hne].
    + split; [done | intros [? _]; done].
    + rewrite IH. split; [by split | by intros [_ ?]].
Qed.

Lemma get_Some_elem d k v : Dict.get k d = Some v -> (k, v) ∈ d.
Proof.
  induction d as [|[k' v'] d IH]; simpl; [done|].
  destruct (decide (k = k')) as [->|].
  - intros [= ->]. left.
  - intros. right. auto.
Qed.

Lemma get_Some_key d k v : Dict.get k d = Some v -> k ∈ Dict.keys d.
Proof.
  intros H%get_Some_elem. unfold Dict.keys.
  apply list_elem_of_fmap. by exists (k, v).
Qed.

Lemma elem_get d k v : Dict.wf d -> (k, v) ∈ d -> Dict.get k d = Some v.
Proof.
  unfold Dict.wf, Dict.keys.
  induction d as [|[k' v'] d IH]; simpl; [by intros _ ?%elem_of_nil|].
  intros [Hk Hd]%NoDup_cons [[= -> ->]|Hin]%elem_of_cons.
  - by rewrite decide_True.
  - destruct (decide (k = k')) as [->|]; [|auto].
    destruct Hk. apply list_elem_of_fmap. by exists (k', v).
Qed.

Lemma key_get d k : k ∈ Dict.keys d -> is_Some (Dict.get k d).
Proof.
  intros Hk. destruct (Dict.get k d) eqn:E; [done|].
  by apply get_None in E.
Qed.

Lemma get_set_eq d k v : Dict.get k (Dict.set k v d) = Some v.
Proof.
  induction d as [|[k' v'] d IH]; simpl.
  - by rewrite decide_True.
  - destruct (decide (k = k')); simpl.
    + by rewrite decide_True.
    + by rewrite decide_False.
Qed.

Lemma get_set_ne d k k' v : k <> k' -> Dict.get k' (Dict.set k v d) = Dict.get k' d.
Proof.
  intros Hne. induction d as [|[k0 v0] d IH]; simpl.
  - by rewrite decide_False.
  - destruct (decide (k = k0)) as [->|]; simpl.
    + by rewrite !decide_False.
    + by rewrite IH.
Qed.

Lemma get_set d k k' v :
  Dict.get k' (Dict.set k v d) = if decide (k = k') then Some v else Dict.get k' d.
Proof.
  destruct (decide (k = k')) as [->|]; [apply get_set_eq | by apply get_set_ne].
Qed.

Lemma set_fresh d k v : k ∉ Dict.keys d -> Dict.set k v d = d ++ [(k, v)].
Proof.
  unfold Dict.keys. induction d as [|[k' v'] d IH]; simpl; [done|].
  intros [? ?]%not_elem_of_cons. rewrite decide_False by done. by rewrite IH.
Qed.

Lemma keys_set_in d k v : k ∈ Dict.keys d -> Dict.keys (Dict.set k v d) = Dict.keys d.
Proof.
  unfold Dict.keys. induction d as [|[k' v'] d IH]; simpl; [by intros ?%elem_of_nil|].
  destruct (decide (k = k')) as [->|]; simpl; [done|].
  intros [?|?]%elem_of_cons; [done|]. f_equal. by apply IH.
Qed.

Lemma wf_set d k v : Dict.wf d -> Dict.wf (Dict.set k v d).
Proof.
  intros Hwf. unfold Dict.wf. destruct (decide (k ∈ Dict.keys d)).
  - by rewrite keys_set_in.
  - rewrite set_fresh by done. unfold Dict.keys. rewrite fmap_app. simpl.
    apply NoDup_app. split_and!; [done | | apply NoDup_singleton].
    intros x Hx ->%list_elem_of_singleton. done.
Qed.

Lemma filter_all {A} (P : A -> Prop) `{!forall x, Decision (P x)} (l : list A) :
  Forall P l -> filter P l = l.
Proof.
  induction 1 as [|x l Hx Hl IH]; [done|].
  rewrite filter_cons_True by done. by rewrite IH.
Qed.

Lemma keys_pop d k : Dict.wf d -> Dict.keys (Dict.pop k d) = filter (fun x => x <> k) (Dict.keys d).
Proof.
  unfold Dict.wf, Dict.keys. induction d as [|[k' v'] d IH]; simpl; [done|].
  intros [Hk Hd]%NoDup_cons. destruct (decide (k = k')) as [->|].
  - rewrite filter_cons_False by (intros H; by apply H).
    symmetry. apply filter_all, Forall_forall. intros x Hx ->. done.
  - rewrite filter_cons_True by done. simpl. f_equal. by apply IH.
Qed.

Lemma get_pop_ne d k k' : k <> k' -> Dict.get k' (Dict.pop k d) = Dict.get k' d.
Proof.
  intros Hne. induction d as [|[k0 v0] d IH]; simpl; [done|].
  destruct (decide (k = k0)) as [->|]; simpl.
  - by rewrite decide_False.
  - by rewrite IH.
Qed.

Lemma get_pop_eq d k : Dict.wf d -> Dict.get k (Dict.pop k d) = None.
Proof.
  intros Hwf. apply get_None. rewrite keys_pop by done.
  intros [? _]%list_elem_of_filter. done.
Qed.

Lemma wf_pop d k : Dict.wf d -> Dict.wf (Dict.pop k d).
Proof.
  intros Hwf. unfold Dict.wf. rewrite keys_pop by done. by apply NoDup_filter.
Qed.

End dict_facts.

(** ** Facts about the store operations *)

Lemma db_delete_app (l1 l2 : list string) (d : store) :
  db_delete (l1 ++ l2) d = db_delete l2 (db_delete l1 d).
Proof. apply fold_left_app. Qed.

Lemma db_delete_lookup (ids : list string) (d : store) (id : string) :
  db_delete ids d !! id = if decide (id ∈ ids) then None else d !! id.
Proof.
  revert d. induction ids as [|i ids IH]; intros d.
  - rewrite decide_False; [done | apply not_elem_of_nil].
  - change (db_delete (i :: ids) d) with (db_delete ids (delete i d)).
    rewrite IH. destruct (decide (id ∈ ids)) as [Hin|Hin].
    + rewrite decide_True; [done | by right].
    + destruct (decide (i = id)) as [->|Hne].
      * rewrite lookup_delete_eq, decide_True; [done | left].
      * rewrite lookup_delete_ne by done. rewrite decide_False; [done|].
        intros [?|?]%elem_of_cons; congruence.
Qed.

Lemma db_delete_lookup_in (ids : list string) (d : store) (id : string) :
  id ∈ ids -> db_delete ids d !! id = None.
Proof. intros. rewrite db_delete_lookup. by rewrite decide_True. Qed.

Lemma db_delete_lookup_notin (ids : list string) (d : store) (id : string) :
  id ∉ ids -> db_delete ids d !! id = d !! id.
Proof. intros. rewrite db_delete_lookup. by rewrite decide_False. Qed.

Lemma db_set_snoc (items : list (string * Item)) (x : string * Item) (d : store) :
  db_set (items ++ [x]) d = <[x.1 := x.2]> (db_set items d).
Proof. unfold db_set. by rewrite fold_left_app. Qed.

Lemma db_set_lookup_notin (items : list (string * Item)) (d : store) (id : string) :
  id ∉ items.*1 -> db_set items d !! id = d !! id.
Proof.
  induction items as [|x items IH] using rev_ind; [done|].
  rewrite fmap_app, not_elem_of_app. simpl. intros [H1 H2].
  rewrite db_set_snoc, lookup_insert_ne; [auto|].
  intros Heq. apply H2. rewrite Heq. left.
Qed.

Lemma db_set_lookup_in (items : list (string * Item)) (d : store) (id : string) :
  id ∈ items.*1 -> exists it, (id, it) ∈ items /\ db_set items d !! id = Some it.
Proof.
  induction items as [|[i x] items IH] using rev_ind; [by intros ?%elem_of_nil|].
  intros Hin. rewrite db_set_snoc. simpl.
  destruct (decide (i = id)) as [->|Hne].
  - exists x. rewrite lookup_insert_eq. split; [|done].
    apply elem_of_app. right. left.
  - rewrite fmap_app, elem_of_app in Hin. destruct Hin as [Hin|Hin].
    + destruct (IH Hin) as (it & ? & ?). exists it.
      rewrite lookup_insert_ne by done. split; [|done].
      apply elem_of_app. by left.
    + apply list_elem_of_singleton in Hin. simpl in Hin. congruence.
Qed.

(** ** The scan loop of [index] *)

Lemma scan_file_db m acc fc :
  sc_db (scan_file m acc fc)
  = db_delete (if unchanged (files m) fc then [] else entry_blocks (Dict.get fc.1 (files m)))
      (sc_db acc).
Proof.
  unfold scan_file, unchanged. destruct (entry_unchanged _ _); [done|].
  destruct (entry_blocks _), (extract _ _); reflexivity.
Qed.

Lemma scan_file_all_blocks m acc fc :
  sc_all_blocks (scan_file m acc fc)
  = sc_all_blocks acc ++ (if unchanged (files m) fc then [] else staged_of fc).
Proof.
  unfold scan_file, unchanged, staged_of. destruct (entry_unchanged _ _); simpl.
  - by rewrite app_nil_r.
  - destruct (extract _ _); simpl; [done | by rewrite app_nil_r].
Qed.

Lemma scan_file_files_to_update m acc fc :
  fc.1 ∉ Dict.keys (sc_files_to_update acc) ->
  sc_files_to_update (scan_file m acc fc)
  = sc_files_to_update acc ++ (if unchanged (files m) fc then [] else pending_of fc).
Proof.
  intros Hfresh. unfold scan_file, unchanged, pending_of.
  destruct (entry_unchanged _ _); simpl.
  - by rewrite app_nil_r.
  - destruct (extract _ _); simpl; [by apply set_fresh | by rewrite app_nil_r].
Qed.

Lemma scan_file_keys m acc fc k :
  k ∈ Dict.keys (sc_files_to_update (scan_file m acc fc)) ->
  k ∈ Dict.keys (sc_files_to_update acc) \/ k = fc.1.
Proof.
  unfold scan_file. destruct (entry_unchanged _ _); simpl; [by left|].
  destruct (extract _ _); simpl; [|by left].
  destruct (decide (fc.1 ∈ Dict.keys (sc_files_to_update acc))).
  - rewrite keys_set_in by done. by left.
  - rewrite set_fresh by done. unfold Dict.keys. rewrite fmap_app, elem_of_app.
    simpl. rewrite list_elem_of_singleton. tauto.
Qed.

Lemma scan_file_stats m acc fc :
  let st := sc_stats acc in
  sc_stats (scan_file m acc fc)
  = if unchanged (files m) fc then
      mkStats (stat_files st) (stat_blocks st) (S (stat_skipped st)) (stat_errors st)
        (stat_deleted st)
    else
      mkStats
        (if extract fc.1 fc.2 is Some _ then S (stat_files st) else stat_files st)
        (stat_blocks st) (stat_skipped st)
        (if extract fc.1 fc.2 is Some _ then stat_errors st else S <$> stat_errors st)
        (stat_deleted st + length (entry_blocks (Dict.get fc.1 (files m)))).
Proof.
  unfold scan_file, unchanged. destruct (entry_unchanged _ _); [done|].
  destruct (entry_blocks _), (extract _ _); simpl; f_equal; lia.
Qed.

Lemma scan_db m fs acc :
  sc_db (fold_left (scan_file m) fs acc) = db_delete (old_ids (files m) fs) (sc_db acc).
Proof.
  revert acc. induction fs as [|fc fs IH]; intros acc; [done|].
  simpl. rewrite IH, scan_file_db. unfold old_ids at 2. simpl.
  by rewrite db_delete_app.
Qed.

Lemma scan_all_blocks m fs acc :
  sc_all_blocks (fold_left (scan_file m) fs acc) = sc_all_blocks acc ++ staged (files m) fs.
Proof.
  revert acc. induction fs as [|fc fs IH]; intros acc; simpl.
  - by rewrite app_nil_r.
  - rewrite IH, scan_file_all_blocks. unfold staged at 2. simpl.
    by rewrite app_assoc.
Qed.

Lemma scan_files_to_update m fs acc :
  Dict.wf fs ->
  (forall k, k ∈ Dict.keys fs -> k ∉ Dict.keys (sc_files_to_update acc)) ->
  sc_files_to_update (fold_left (scan_file m) fs acc)
  = sc_files_to_update acc ++ pending (files m) fs.
Proof.
  revert acc. induction fs as [|fc fs IH]; intros acc Hwf Hfresh; simpl.
  - by rewrite app_nil_r.
  - apply NoDup_cons in Hwf as [Hfc Hwf].
    rewrite IH; [|done|].
    + rewrite scan_file_files_to_update by (apply Hfresh; left).
      unfold pending at 2. simpl. by rewrite app_assoc.
    + intros k Hk [Hin| ->]%scan_file_keys; [|done].
      eapply Hfresh; [right; exact Hk | done].
Qed.

Lemma n_skipped_cons mf fc fs :
  n_skipped mf (fc :: fs) = ((if unchanged mf fc then 1 else 0) + n_skipped mf fs)%nat.
Proof.
  unfold n_skipped. rewrite filter_cons.
  destruct (unchanged mf fc); case_decide; simpl; congruence.
Qed.

Lemma n_failed_cons mf fc fs :
  n_failed mf (fc :: fs)
  = ((if unchanged mf fc then 0 else if extract fc.1 fc.2 is Some _ then 0 else 1)
     + n_failed mf fs)%nat.
Proof.
  unfold n_failed. rewrite filter_cons.
  destruct (unchanged mf fc), (extract fc.1 fc.2); case_decide; simpl;
    try done; intuition (try discriminate).
Qed.

Lemma n_indexed_cons mf fc fs :
  n_indexed mf (fc :: fs)
  = ((if unchanged mf fc then 0 else if extract fc.1 fc.2 is Some _ then 1 else 0)
     + n_indexed mf fs)%nat.
Proof.
  unfold n_indexed. rewrite filter_cons.
  destruct (unchanged mf fc), (extract fc.1 fc.2); case_decide as Hd; simpl;
    try done.
  all: try (destruct Hd as [Hd1 Hd2]; first [discriminate | by destruct Hd2]).
  all: destruct Hd; split; [done | by eexists].
Qed.

Lemma scan_stats m fs acc :
  sc_stats (fold_left (scan_file m) fs acc)
  = mkStats
      (stat_files (sc_stats acc) + n_indexed (files m) fs)
      (stat_blocks (sc_stats acc))
      (stat_skipped (sc_stats acc) + n_skipped (files m) fs)
      ((fun n => n + n_failed (files m) fs)%nat <$> stat_errors (sc_stats acc))
      (stat_deleted (sc_stats acc) + length (old_ids (files m) fs)).
Proof.
  revert acc. induction fs as [|fc fs IH]; intros acc.
  - simpl. destruct (sc_stats acc) as [a b c [e|] f]; simpl;
      unfold n_indexed, n_skipped, n_failed; simpl;
      f_equal; first [lia | done | f_equal; lia].
  - simpl. rewrite IH, scan_file_stats.
    rewrite n_indexed_cons, n_skipped_cons, n_failed_cons.
    unfold old_ids at 2. simpl. rewrite length_app.
    fold (old_ids (files m) fs).
    destruct (sc_stats acc) as [a b c [e|] f]; simpl;
      destruct (unchanged (files m) fc); simpl;
      try destruct (extract fc.1 fc.2); simpl;
      f_equal; first [lia | done | f_equal; lia].
Qed.

Lemma elem_of_flat_map {A B} (f : A -> list B) (l : list A) (y : B) :
  y ∈ flat_map f l <-> exists x, x ∈ l /\ y ∈ f x.
Proof.
  induction l as [|a l IH]; simpl.
  - split; [by intros ?%elem_of_nil | by intros (? & ?%elem_of_nil & _)].
  - rewrite elem_of_app, IH. split.
    + intros [?|(x & ? & ?)]; [exists a | exists x]; split; try done; by constructor.
    + intros (x & [->|?]%elem_of_cons & ?); [by left | right; eauto].
Qed.

Lemma elem_of_old_ids mf fs id :
  id ∈ old_ids mf fs
  <-> exists fc, fc ∈ fs /\ unchanged mf fc = false /\ id ∈ entry_blocks (Dict.get fc.1 mf).
Proof.
  unfold old_ids. rewrite elem_of_flat_map. split.
  - intros (fc & ? & Hin). exists fc. destruct (unchanged mf fc); [by apply elem_of_nil in Hin|done].
  - intros (fc & ? & Hu & ?). exists fc. by rewrite Hu.
Qed.

Lemma elem_of_staged mf fs bi :
  bi ∈ staged mf fs
  <-> exists fc blocks b,
        fc ∈ fs /\ unchanged mf fc = false /\ extract fc.1 fc.2 = Some blocks
        /\ b ∈ blocks /\ bi = stage fc.1 (content_hash fc.2) b.
Proof.
  unfold staged. rewrite elem_of_flat_map. split.
  - intros (fc & ? & Hin). destruct (unchanged mf fc) eqn:Hu; [by apply elem_of_nil in Hin|].
    unfold staged_of in Hin. destruct (extract fc.1 fc.2) as [blocks|] eqn:He;
      [|by apply elem_of_nil in Hin].
    apply list_elem_of_fmap in Hin as (b & -> & ?). by exists fc, blocks, b.
  - intros (fc & blocks & b & ? & Hu & He & ? & ->). exists fc. split; [done|].
    rewrite Hu. unfold staged_of. rewrite He. apply list_elem_of_fmap. by exists b.
Qed.

Lemma elem_of_pending mf fs p e :
  (p, e) ∈ pending mf fs
  <-> exists c blocks,
        (p, c) ∈ fs /\ unchanged mf (p, c) = false /\ extract p c = Some blocks
        /\ e = Entry (content_hash c) (map (block_id p) blocks).
Proof.
  unfold pending. rewrite elem_of_flat_map. split.
  - intros ([q c] & ? & Hin). destruct (unchanged mf (q, c)) eqn:Hu; [by apply elem_of_nil in Hin|].
    unfold pending_of in Hin. simpl in Hin. destruct (extract q c) as [blocks|] eqn:He;
      [|by apply elem_of_nil in Hin].
    apply list_elem_of_singleton in Hin as [= -> ->]. by exists c, blocks.
  - intros (c & blocks & ? & Hu & He & ->). exists (p, c). split; [done|].
    rewrite Hu. unfold pending_of. simpl. rewrite He. by apply list_elem_of_singleton.
Qed.

Lemma pending_keys_sublist mf fs : sublist (Dict.keys (pending mf fs)) (Dict.keys fs).
Proof.
  unfold Dict.keys, pending. induction fs as [|fc fs IH]; simpl; [done|].
  rewrite fmap_app. destruct (unchanged mf fc); simpl.
  - by apply sublist_cons.
  - unfold pending_of. destruct (extract fc.1 fc.2); simpl.
    + by apply sublist_skip.
    + by apply sublist_cons.
Qed.

Lemma wf_pending mf fs : Dict.wf fs -> Dict.wf (pending mf fs).
Proof. unfold Dict.wf. intros Hwf. eapply sublist_NoDup; [done | apply pending_keys_sublist]. Qed.

Lemma get_pending mf fs p e :
  Dict.wf fs ->
  Dict.get p (pending mf fs) = Some e
  <-> exists c blocks,
        Dict.get p fs = Some c /\ unchanged mf (p, c) = false /\ extract p c = Some blocks
        /\ e = Entry (content_hash c) (map (block_id p) blocks).
Proof.
  intros Hwf. split.
  - intros (c & blocks & ? & ? & ? & ?)%get_Some_elem%elem_of_pending.
    exists c, blocks. split_and!; try done. by apply elem_get.
  - intros (c & blocks & ?%get_Some_elem & ? & ? & ?).
    apply elem_get; [by apply wf_pending|]. apply elem_of_pending. by exists c, blocks.
Qed.

(** ** The manifest after the merge of the pending entries *)

Lemma get_merge_entries ftu mf p :
  Dict.wf ftu ->
  Dict.get p (merge_entries ftu mf)
  = match Dict.get p ftu with Some e => Some e | None => Dict.get p mf end.
Proof.
  revert mf. induction ftu as [|[k e] ftu IH]; intros mf Hwf; [done|].
  apply NoDup_cons in Hwf as [Hk Hwf].
  change (merge_entries ((k, e) :: ftu) mf) with (merge_entries ftu (Dict.set k e mf)).
  rewrite IH by done. simpl. destruct (decide (p = k)) as [->|Hne].
  - apply get_None in Hk. simpl in Hk. rewrite Hk. apply get_set_eq.
  - destruct (Dict.get p ftu); [done|]. by apply get_set_ne.
Qed.

Lemma wf_merge_entries ftu mf : Dict.wf mf -> Dict.wf (merge_entries ftu mf).
Proof.
  revert mf. induction ftu as [|[k e] ftu IH]; intros mf Hwf; [done|].
  apply IH. by apply wf_set.
Qed.

(** ** Batches *)

Lemma make_items_inv j batch embeddings items :
  make_items j batch embeddings = Ok items ->
  items.*1 = map bi_id batch
  /\ forall id it, (id, it) ∈ items ->
       exists bi e, bi ∈ batch /\ id = bi_id bi /\ it = item_of bi e.
Proof.
  revert j items. induction batch as [|bi batch IH]; intros j items; simpl.
  - intros [= <-]. split; [done | by intros ?? ?%elem_of_nil].
  - destruct (embeddings !! j) as [e|]; [|done].
    destruct (make_items (S j) batch embeddings) as [items'|] eqn:E; [|done].
    intros [= <-]. destruct (IH _ _ E) as [Hids Hitems]. split.
    + simpl. f_equal. exact Hids.
    + intros id it [[= -> ->]|Hin]%elem_of_cons.
      * exists bi, e. split; [left | done].
      * destruct (Hitems _ _ Hin) as (bi' & e' & ? & ? & ?).
        exists bi', e'. split; [by right | done].
Qed.

Lemma make_items_ok j batch embeddings :
  (j + length batch <= length embeddings)%nat ->
  exists items, make_items j batch embeddings = Ok items.
Proof.
  revert j. induction batch as [|bi batch IH]; intros j Hlen; simpl in *.
  - by eexists.
  - destruct (lookup_lt_is_Some_2 embeddings j) as [e ->]; [lia|].
    destruct (IH (S j)) as [items ->]; [lia|]. by eexists.
Qed.

Lemma embed_batches_lookup all_blocks bs starts d n n' d' id :
  embed_batches all_blocks bs starts d n = (Ok n', d') ->
  d' !! id = d !! id
  \/ exists bi e, bi ∈ all_blocks /\ bi_id bi = id /\ d' !! id = Some (item_of bi e).
Proof.
  revert d n. induction starts as [|i starts IH]; intros d n; simpl.
  - intros [= _ <-]. by left.
  - destruct (make_items _ _ _) as [items|] eqn:E; [|done].
    intros [Hd'|Hnew]%IH; [|by right].
    rewrite Hd'. destruct (decide (id ∈ items.*1)) as [Hin|Hin].
    + right. destruct (db_set_lookup_in items d id Hin) as (it & Hit & ->).
      apply make_items_inv in E as [_ Hitems].
      destruct (Hitems _ _ Hit) as (bi & e & Hbi & -> & ->).
      exists bi, e. split_and!; [|done..].
      by apply subseteq_take, subseteq_drop in Hbi.
    + left. by apply db_set_lookup_notin.
Qed.

Lemma embed_batches_stored all_blocks bs starts d n n' d' i bi :
  embed_batches all_blocks bs starts d n = (Ok n', d') ->
  i ∈ starts -> bi ∈ take bs (drop i all_blocks) ->
  exists bi' e,
    bi' ∈ all_blocks /\ bi_id bi' = bi_id bi /\ d' !! bi_id bi = Some (item_of bi' e).
Proof.
  revert d n. induction starts as [|i0 starts IH]; intros d n; simpl;
    [by intros _ ?%elem_of_nil|].
  destruct (make_items _ _ _) as [items|] eqn:E; [|done].
  intros Hrun [->|Hi]%elem_of_cons Hbi; [|by eapply IH].
  destruct (embed_batches_lookup _ _ _ _ _ _ _ (bi_id bi) Hrun) as [Hsame|Hnew].
  - rewrite Hsame. apply make_items_inv in E as [Hids Hitems].
    destruct (db_set_lookup_in items d (bi_id bi)) as (it & Hit & ->).
    { rewrite Hids. apply list_elem_of_fmap. by exists bi. }
    destruct (Hitems _ _ Hit) as (bi' & e & Hbi' & Hid & ->).
    exists bi', e. split_and!; [|done..].
    by apply subseteq_take, subseteq_drop in Hbi'.
  - destruct Hnew as (bi' & e & ? & ? & ?). by exists bi', e.
Qed.

Lemma embed_batches_ok all_blocks bs starts d n :
  (forall texts, length (embed texts) = length texts) ->
  exists d',
    embed_batches all_blocks bs starts d n
    = (Ok (n + length (concat (map (fun i => take bs (drop i all_blocks)) starts)))%nat, d').
Proof.
  intros Hembed. revert d n. induction starts as [|i starts IH]; intros d n; simpl.
  - exists d. by rewrite Nat.add_0_r.
  - destruct (make_items_ok 0 (take bs (drop i all_blocks))
                (embed (map bi_text (take bs (drop i all_blocks))))) as [items ->].
    { rewrite Hembed, length_map. simpl. lia. }
    destruct (IH (db_set items d) (n + length (take bs (drop i all_blocks)))%nat) as [d' ->].
    exists d'. by rewrite length_app, Nat.add_assoc.
Qed.

Lemma batches_take {A} (n K : nat) (l : list A) :
  concat (map (fun i => take n (drop i l)) (map (fun k => (k * n)%nat) (seq 0 K)))
  = take (K * n) l.
Proof.
  induction K as [|K IH]; [done|].
  rewrite seq_S, !map_app, concat_app, IH. simpl. rewrite app_nil_r.
  by rewrite take_take_drop, Nat.add_comm.
Qed.

Lemma range_from_0_covers {A} (l : list A) (step : Z) starts :
  range_from_0 (length l) step = Ok starts -> 0 < step ->
  concat (map (fun i => take (Z.to_nat step) (drop i l)) starts) = l.
Proof.
  unfold range_from_0. intros Hr Hpos.
  rewrite !decide_False in Hr by lia. injection Hr as <-.
  rewrite batches_take. apply take_ge.
  set (n := Z.to_nat step). assert (0 < n)%nat by lia.
  pose proof (Nat.div_mod_eq (length l + n - 1) n).
  pose proof (Nat.mod_upper_bound (length l + n - 1) n). nia.
Qed.

(** ** [index] as a whole *)

Lemma scan_eq m fs d :
  Dict.wf fs ->
  scan m fs d
  = mkScan
      (mkStats (n_indexed (files m) fs) 0 (n_skipped (files m) fs)
         (Some (n_failed (files m) fs)) (length (old_ids (files m) fs)))
      (staged (files m) fs) (pending (files m) fs) (db_delete (old_ids (files m) fs) d).
Proof.
  intros Hwf. unfold scan.
  pose proof (scan_stats m fs (mkScan (mkStats 0 0 0 (Some 0%nat) 0) [] [] d)) as Hst.
  pose proof (scan_all_blocks m fs (mkScan (mkStats 0 0 0 (Some 0%nat) 0) [] [] d)) as Hall.
  pose proof (scan_db m fs (mkScan (mkStats 0 0 0 (Some 0%nat) 0) [] [] d)) as Hdb.
  pose proof (scan_files_to_update m fs (mkScan (mkStats 0 0 0 (Some 0%nat) 0) [] [] d) Hwf)
    as Hftu.
  destruct (fold_left _ _ _) as [st all ftu d']. simpl in *.
  rewrite Hst, Hall, Hdb, Hftu; [done|]. intros k _. apply not_elem_of_nil.
Qed.

Lemma elem_of_concat {A} (ls : list (list A)) (x : A) :
  x ∈ concat ls <-> exists l, l ∈ ls /\ x ∈ l.
Proof.
  induction ls as [|l0 ls IH]; simpl.
  - split; [by intros ?%elem_of_nil | by intros (? & ?%elem_of_nil & _)].
  - rewrite elem_of_app, IH. split.
    + intros [?|(l & ? & ?)]; [exists l0 | exists l]; split; try done; by constructor.
    + intros (l & [->|?]%elem_of_cons & ?); [by left | right; eauto].
Qed.

Lemma embed_batches_count all_blocks bs starts d n n' d' :
  embed_batches all_blocks bs starts d n = (Ok n', d') ->
  n' = (n + length (concat (map (fun i => take bs (drop i all_blocks)) starts)))%nat.
Proof.
  revert d n. induction starts as [|i starts IH]; intros d n; simpl.
  - intros [= <- _]. lia.
  - destruct (make_items _ _ _) as [items|]; [|done].
    intros ->%IH. rewrite length_app. lia.
Qed.

Lemma embed_batches_stored_all all_blocks step starts d n n' d' :
  range_from_0 (length all_blocks) step = Ok starts -> 0 < step ->
  embed_batches all_blocks (Z.to_nat step) starts d n = (Ok n', d') ->
  stored d all_blocks d' /\ n' = (n + length all_blocks)%nat.
Proof.
  intros Hr Hpos Hrun. pose proof (range_from_0_covers _ _ _ Hr Hpos) as Hcover.
  split; [split|].
  - intros id. by eapply embed_batches_lookup.
  - intros bi Hbi. rewrite <- Hcover in Hbi.
    apply elem_of_concat in Hbi as (batch & Hbatch & Hbi).
    apply list_elem_of_fmap in Hbatch as (i & -> & Hi).
    by eapply embed_batches_stored.
  - apply embed_batches_count in Hrun. by rewrite Hcover in Hrun.
Qed.

(** The two ways [index] returns: nothing was staged and the manifest is
    not written, or the staged blocks were stored and the manifest saved. *)
Lemma index_Ok fs batch_size s st s' :
  Dict.wf fs ->
  index fs batch_size s = (Ok st, s') ->
  exists m, _load_manifest s = Ok m /\
    let mf := files m in
    let d0 := db_delete (old_ids mf fs) (db s) in
    (staged mf fs = []
     /\ st = mkStats (n_indexed mf fs) 0 (n_skipped mf fs) (Some (n_failed mf fs))
               (length (old_ids mf fs))
     /\ s' = mkState d0 (manifest_file s) (saved s))
    \/ (staged mf fs <> []
        /\ exists n' d' starts,
             range_from_0 (length (staged mf fs)) batch_size = Ok starts
             /\ embed_batches (staged mf fs) (Z.to_nat batch_size) starts d0 0 = (Ok n', d')
             /\ st = mkStats (n_indexed mf fs) n' (n_skipped mf fs) (Some (n_failed mf fs))
                       (length (old_ids mf fs))
             /\ s' = _save_manifest (mkManifest (merge_entries (pending mf fs) mf))
                       (mkState d' (manifest_file s) (saved s))).
Proof.
  intros Hwf. unfold index. destruct (_load_manifest s) as [m|] eqn:Hload; [|done].
  rewrite scan_eq by done. simpl. intros Hrun. exists m. split; [done|].
  destruct (staged (files m) fs) as [|bi all] eqn:Hall.
  - left. by injection Hrun as <- <-.
  - right. split; [done|].
    destruct (range_from_0 _ batch_size) as [starts|] eqn:Hr; [|done].
    destruct (embed_batches _ _ _ _ _) as [[n'|] d'] eqn:Hb; [|done].
    injection Hrun as <- <-. by exists n', d', starts.
Qed.

(** [index] returns when the embedder gives a row per text and the batch
    size is positive. *)
Lemma index_run fs batch_size s m :
  (forall texts, length (embed texts) = length texts) ->
  Dict.wf fs -> 0 < batch_size ->
  _load_manifest s = Ok m ->
  let mf := files m in
  let d0 := db_delete (old_ids mf fs) (db s) in
  (staged mf fs = []
   /\ index fs batch_size s
      = (Ok (mkStats (n_indexed mf fs) 0 (n_skipped mf fs) (Some (n_failed mf fs))
               (length (old_ids mf fs))),
         mkState d0 (manifest_file s) (saved s)))
  \/ (staged mf fs <> []
      /\ exists d',
           stored d0 (staged mf fs) d'
           /\ index fs batch_size s
              = (Ok (mkStats (n_indexed mf fs) (length (staged mf fs)) (n_skipped mf fs)
                       (Some (n_failed mf fs)) (length (old_ids mf fs))),
                 _save_manifest (mkManifest (merge_entries (pending mf fs) mf))
                   (mkState d' (manifest_file s) (saved s)))).
Proof.
  intros Hembed Hwf Hpos Hload. simpl. unfold index. rewrite Hload, scan_eq by done. simpl.
  destruct (staged (files m) fs) as [|bi all] eqn:Hall; [by left|].
  right. split; [done|].
  destruct (range_from_0 (length (bi :: all)) batch_size) as [starts|] eqn:Hr.
  2:{ unfold range_from_0 in Hr. by rewrite !decide_False in Hr by lia. }
  destruct (embed_batches_ok (bi :: all) (Z.to_nat batch_size) starts
              (db_delete (old_ids (files m) fs) (db s)) 0 Hembed) as [d' Hb].
  pose proof (embed_batches_stored_all _ _ _ _ _ _ _ Hr Hpos Hb) as [Hst Hn].
  exists d'. split; [done|]. rewrite Hb, Hn. done.
Qed.

(** ** Loading and migrating the manifest *)

Lemma set_middle {V} (d1 d2 : dict V) k v0 v :
  k ∉ Dict.keys d1 -> Dict.set k v (d1 ++ (k, v0) :: d2) = d1 ++ (k, v) :: d2.
Proof.
  unfold Dict.keys. induction d1 as [|[k' v'] d1 IH]; simpl.
  - intros _. by rewrite decide_True.
  - intros [? ?]%not_elem_of_cons. rewrite decide_False by done. by rewrite IH.
Qed.

Lemma migrate_from (pre l : dict FileEntry) :
  Dict.wf (pre ++ l) ->
  fold_left
    (fun acc pv =>
       match pv.2 with
       | HashOnly h => Dict.set pv.1 (Entry h []) acc
       | Entry _ _ => acc
       end)
    l ((prod_map id upgrade <$> pre) ++ l)
  = (prod_map id upgrade <$> pre) ++ (prod_map id upgrade <$> l).
Proof.
  revert pre. induction l as [|[k v] l IH]; intros pre Hwf; [done|].
  assert (Hk : k ∉ Dict.keys (prod_map id upgrade <$> pre)).
  { unfold Dict.wf, Dict.keys in *. rewrite fmap_app in Hwf.
    apply NoDup_app in Hwf as (_ & Hk & _).
    rewrite <- list_fmap_compose. intros Hin.
    apply (Hk k); [|left].
    apply list_elem_of_fmap in Hin as ([k' v'] & -> & Hin).
    apply list_elem_of_fmap. by exists (k', v'). }
  specialize (IH (pre ++ [(k, v)])).
  rewrite <- !app_assoc in IH. simpl in IH. specialize (IH Hwf).
  rewrite fmap_app in IH. simpl in IH. rewrite <- !app_assoc in IH. simpl in IH.
  simpl. destruct v as [h|h blocks]; simpl.
  - rewrite set_middle by done. exact IH.
  - exact IH.
Qed.

Lemma migrate_eq (fs : dict FileEntry) :
  Dict.wf fs -> migrate fs = prod_map id upgrade <$> fs.
Proof. intros Hwf. exact (migrate_from [] fs Hwf). Qed.

Lemma get_fmap_upgrade (fs : dict FileEntry) p :
  Dict.get p (prod_map id upgrade <$> fs) = upgrade <$> Dict.get p fs.
Proof.
  induction fs as [|[k v] fs IH]; simpl; [done|].
  destruct (decide (p = k)); [done | exact IH].
Qed.

Lemma keys_fmap_upgrade (fs : dict FileEntry) :
  Dict.keys (prod_map id upgrade <$> fs) = Dict.keys fs.
Proof.
  unfold Dict.keys. rewrite <- list_fmap_compose. apply list_fmap_ext.
  by intros _ [??] _.
Qed.

Lemma fmap_upgrade_v2 (fs : dict FileEntry) :
  v2_only fs -> prod_map id upgrade <$> fs = fs.
Proof.
  induction 1 as [|[k v] fs Hv Hfs IH]; [done|].
  simpl in *. unfold prod_map at 1. simpl. rewrite Hv. f_equal. exact IH.
Qed.

Lemma v2_only_fmap_upgrade (fs : dict FileEntry) : v2_only (prod_map id upgrade <$> fs).
Proof.
  unfold v2_only. apply Forall_fmap, Forall_forall. intros [k [h|h b]] _; done.
Qed.

Lemma v2_only_set fs k h blocks : v2_only fs -> v2_only (Dict.set k (Entry h blocks) fs).
Proof.
  unfold v2_only. induction 1 as [|[k' v'] fs Hv Hfs IH]; simpl.
  - by repeat constructor.
  - destruct (decide (k = k')); constructor; done.
Qed.

Lemma v2_only_pop fs k : v2_only fs -> v2_only (Dict.pop k fs).
Proof.
  unfold v2_only. induction 1 as [|[k' v'] fs Hv Hfs IH]; simpl; [done|].
  destruct (decide (k = k')); [done | by constructor].
Qed.

Lemma load_Ok s m :
  _load_manifest s = Ok m -> disk_wf s -> Dict.wf (files m) /\ v2_only (files m).
Proof.
  unfold _load_manifest, disk_wf. destruct (manifest_file s) as [| |data]; [|done|].
  - intros [= <-] _. split; [apply NoDup_nil_2 | constructor].
  - intros [= <-] Hwf. simpl. rewrite migrate_eq by done. split.
    + unfold Dict.wf. by rewrite keys_fmap_upgrade.
    + apply v2_only_fmap_upgrade.
Qed.

Lemma load_saved manifest s :
  Dict.wf (files manifest) -> v2_only (files manifest) ->
  _load_manifest (_save_manifest manifest s) = Ok manifest.
Proof.
  intros Hwf Hv2. unfold _load_manifest, _save_manifest. simpl.
  rewrite migrate_eq, fmap_upgrade_v2 by done. by destruct manifest.
Qed.

Lemma v2_only_get fs p e : v2_only fs -> Dict.get p fs = Some e -> exists h blocks, e = Entry h blocks.
Proof.
  intros Hv2 Hget%get_Some_elem. unfold v2_only in Hv2.
  rewrite Forall_forall in Hv2. specialize (Hv2 _ Hget). simpl in Hv2.
  destruct e as [h|h blocks]; [done | by exists h, blocks].
Qed.

(** ** The manifest store *)

(** C9. Loading a document whose values are bare hashes (the legacy
    format) gives a manifest with the same paths in which each such value
    became the record with that hash and an empty block list; values
    already in record form are unchanged. *)
Theorem load_migrates_legacy s data :
  manifest_file s = Document data -> Dict.wf (files data) ->
  exists m,
    _load_manifest s = Ok m
    /\ Dict.keys (files m) = Dict.keys (files data)
    /\ (forall path h,
          Dict.get path (files data) = Some (HashOnly h) ->
          Dict.get path (files m) = Some (Entry h []))
    /\ (forall path h blocks,
          Dict.get path (files data) = Some (Entry h blocks) ->
          Dict.get path (files m) = Some (Entry h blocks)).
Proof.
  intros Hfile Hwf. exists (mkManifest (migrate (files data))).
  unfold _load_manifest. rewrite Hfile. split; [done|]. simpl.
  rewrite migrate_eq by done. split; [apply keys_fmap_upgrade|].
  split; intros path h; [|intros blocks]; intros Hget;
    by rewrite get_fmap_upgrade, Hget.
Qed.

(** C6, as the code has it. With no manifest file, the load returns the
    empty manifest. A document that does not parse is not treated as
    missing: the load raises the parser's error, and [index],
    [get_stale_files] and [update] raise it too, leaving the state as it
    was. *)
Theorem load_missing_or_unparsable (d : store) (sv : list Manifest) (fs : dict string)
    (batch_size : Z) :
  _load_manifest (mkState d NoFile sv) = Ok (mkManifest [])
  /\ _load_manifest (mkState d Unparsable sv) = Raise JSONDecodeError
  /\ index fs batch_size (mkState d Unparsable sv)
     = (Raise JSONDecodeError, mkState d Unparsable sv)
  /\ get_stale_files fs (mkState d Unparsable sv) = Raise JSONDecodeError
  /\ update fs (mkState d Unparsable sv) = (Raise JSONDecodeError, mkState d Unparsable sv).
Proof. repeat split. Qed.

(** ** Staleness detection *)

(** C5. With the manifest [m] loaded from disk, [get_stale_files] returns
    as [changed] exactly the paths of the input whose content hash is not
    the hash recorded for them (a path with no entry is changed), as
    [deleted] exactly the paths of the manifest that the input lacks, each
    path once; [needs_update] is the sum of their lengths. *)
Theorem stale_files_spec fs s m :
  _load_manifest s = Ok m -> disk_wf s -> Dict.wf fs ->
  exists changed deleted,
    get_stale_files fs s = Ok (changed, deleted)
    /\ NoDup changed /\ NoDup deleted
    /\ (forall p,
          p ∈ changed
          <-> exists c, Dict.get p fs = Some c
                /\ ~ exists blocks, Dict.get p (files m) = Some (Entry (content_hash c) blocks))
    /\ (forall p, p ∈ deleted <-> p ∈ Dict.keys (files m) /\ p ∉ Dict.keys fs)
    /\ needs_update fs s = Ok (length changed + length deleted)%nat.
Proof.
  intros Hload Hdisk Hwf. destruct (load_Ok _ _ Hload Hdisk) as [Hwfm Hv2].
  unfold needs_update, get_stale_files. rewrite Hload.
  eexists _, _. split; [reflexivity|]. split_and!; [| | | |done].
  - apply NoDup_fmap_fst; [|by apply NoDup_filter, NoDup_fmap_1 with (f := fst)].
    intros p c1 c2 [_ H1]%list_elem_of_filter [_ H2]%list_elem_of_filter.
    apply (elem_get _ _ _ Hwf) in H1, H2. congruence.
  - by apply NoDup_filter.
  - intros p. rewrite list_elem_of_fmap. split.
    + intros ([p' c] & -> & [Hne Hin]%list_elem_of_filter). simpl in *.
      exists c. split; [by apply elem_get|].
      intros [blocks Hget]. by rewrite Hget in Hne.
    + intros (c & Hget & Hne). exists (p, c). split; [done|].
      apply list_elem_of_filter. split; [|by apply get_Some_elem]. simpl.
      destruct (Dict.get p (files m)) as [e|] eqn:He; [|done].
      destruct (v2_only_get _ _ _ Hv2 He) as (h & blocks & ->). simpl.
      intros [= ->]. apply Hne. by exists blocks.
  - intros p. rewrite list_elem_of_filter. split; intros [? ?]; by split.
Qed.

(** ** Skipped, failed and indexed paths *)

Lemma unchanged_true mf p c :
  unchanged mf (p, c) = true
  <-> exists blocks, Dict.get p mf = Some (Entry (content_hash c) blocks).
Proof.
  unfold unchanged, entry_unchanged. simpl.
  destruct (Dict.get p mf) as [[h|h blocks]|]; split; try done.
  - by intros [? ?].
  - intros ->%bool_decide_eq_true. by exists blocks.
  - intros [? [= -> _]]. by apply bool_decide_eq_true.
  - by intros [? ?].
Qed.

Lemma unchanged_false_stored_hash mf p c :
  v2_only mf -> unchanged mf (p, c) = false ->
  stored_hash (Dict.get p mf) <> Some (content_hash c).
Proof.
  intros Hv2 Hu. destruct (Dict.get p mf) as [e|] eqn:He; [|done].
  destruct (v2_only_get _ _ _ Hv2 He) as (h & blocks & ->). simpl. intros [= ->].
  assert (unchanged mf (p, c) = true) by (apply unchanged_true; eauto). congruence.
Qed.

Lemma n_partition mf fs :
  (n_indexed mf fs + n_skipped mf fs + n_failed mf fs = length fs)%nat.
Proof.
  induction fs as [|fc fs IH]; [done|].
  rewrite n_indexed_cons, n_skipped_cons, n_failed_cons. simpl.
  destruct (unchanged mf fc); [|destruct (extract fc.1 fc.2)]; lia.
Qed.

Lemma n_failed_0 mf fs fc :
  n_failed mf fs = 0%nat -> fc ∈ fs -> unchanged mf fc = false ->
  is_Some (extract fc.1 fc.2).
Proof.
  unfold n_failed. intros Hn%nil_length_inv Hin Hu.
  destruct (extract fc.1 fc.2) eqn:He; [done|].
  assert (fc ∈ filter (fun fc => unchanged mf fc = false /\ extract fc.1 fc.2 = None) fs) as Hf
    by by apply list_elem_of_filter.
  rewrite Hn in Hf. by apply elem_of_nil in Hf.
Qed.

Lemma n_failed_pos mf fs fc :
  fc ∈ fs -> unchanged mf fc = false -> extract fc.1 fc.2 = None ->
  (1 <= n_failed mf fs)%nat.
Proof.
  intros Hin Hu He. unfold n_failed.
  assert (fc ∈ filter (fun fc => unchanged mf fc = false /\ extract fc.1 fc.2 = None) fs) as Hf
    by by apply list_elem_of_filter.
  destruct (filter _ fs); [by apply elem_of_nil in Hf | simpl; lia].
Qed.

Lemma n_indexed_0 mf fs fc :
  n_indexed mf fs = 0%nat -> fc ∈ fs -> unchanged mf fc = false ->
  extract fc.1 fc.2 = None.
Proof.
  unfold n_indexed. intros Hn%nil_length_inv Hin Hu.
  destruct (extract fc.1 fc.2) eqn:He; [|done].
  assert (fc ∈ filter (fun fc => unchanged mf fc = false /\ is_Some (extract fc.1 fc.2)) fs)
    as Hf by (apply list_elem_of_filter; rewrite He; eauto).
  rewrite Hn in Hf. by apply elem_of_nil in Hf.
Qed.

Lemma all_unchanged mf fs :
  (forall fc, fc ∈ fs -> unchanged mf fc = true) ->
  n_skipped mf fs = length fs /\ n_indexed mf fs = 0%nat /\ n_failed mf fs = 0%nat
  /\ old_ids mf fs = [] /\ staged mf fs = [] /\ pending mf fs = [].
Proof.
  induction fs as [|fc fs IH]; intros Hall; [done|].
  rewrite n_indexed_cons, n_skipped_cons, n_failed_cons.
  unfold old_ids, staged, pending. simpl.
  rewrite (Hall fc) by left. simpl.
  destruct IH as (-> & -> & -> & ? & ? & ?); [intros; apply Hall; by right|done].
Qed.

Lemma staged_nil mf fs :
  staged mf fs = []
  <-> forall fc, fc ∈ fs -> unchanged mf fc = false ->
        extract fc.1 fc.2 = None \/ extract fc.1 fc.2 = Some [].
Proof.
  split.
  - intros Hnil fc Hin Hu. destruct (extract fc.1 fc.2) as [[|b blocks]|] eqn:He; auto.
    assert (stage fc.1 (content_hash fc.2) b ∈ staged mf fs) as Hs.
    { apply elem_of_staged. exists fc, (b :: blocks), b. split_and!; try done. left. }
    rewrite Hnil in Hs. by apply elem_of_nil in Hs.
  - intros Hall. destruct (staged mf fs) as [|bi l] eqn:Hs; [done|].
    assert (bi ∈ staged mf fs) as Hin by (rewrite Hs; left).
    apply elem_of_staged in Hin as (fc & blocks & b & Hfc & Hu & He & Hb & _).
    destruct (Hall fc Hfc Hu) as [Hn|Hn]; rewrite Hn in He; [done|].
    injection He as <-. by apply elem_of_nil in Hb.
Qed.

Lemma state_eta s : mkState (db s) (manifest_file s) (saved s) = s.
Proof. by destruct s. Qed.

(** ** The indexing pipeline *)

(** C10. When a call of [index] stages no block at all (every path that is
    not skipped fails extraction or has no block), it returns its stats and
    leaves the manifest file as it was, without a save. The hash of a path
    that was extracted with no block is then not recorded, and every later
    staleness check on that manifest that sees the path with the same
    content reports it as changed. *)
Theorem index_without_blocks_saves_nothing fs batch_size s m :
  _load_manifest s = Ok m -> disk_wf s -> Dict.wf fs ->
  (forall p c, (p, c) ∈ fs -> unchanged (files m) (p, c) = false ->
               extract p c = None \/ extract p c = Some []) ->
  exists st d',
    index fs batch_size s = (Ok st, mkState d' (manifest_file s) (saved s))
    /\ _load_manifest (mkState d' (manifest_file s) (saved s)) = Ok m
    /\ forall p c,
         (p, c) ∈ fs -> unchanged (files m) (p, c) = false -> extract p c = Some [] ->
         (~ exists blocks, Dict.get p (files m) = Some (Entry (content_hash c) blocks))
         /\ forall fs' d'',
              Dict.get p fs' = Some c ->
              exists changed deleted,
                get_stale_files fs' (mkState d'' (manifest_file s) (saved s))
                = Ok (changed, deleted)
                /\ p ∈ changed.
Proof.
  intros Hload Hdisk Hwf Hnone.
  destruct (load_Ok _ _ Hload Hdisk) as [Hwfm Hv2].
  assert (staged (files m) fs = []) as Hst.
  { apply staged_nil. intros [p c]. apply Hnone. }
  unfold index. rewrite Hload, scan_eq by done. simpl. rewrite Hst.
  eexists _, _. split; [reflexivity|]. split; [exact Hload|].
  intros p c Hin Hu He. split.
  - intros Hrec%unchanged_true. congruence.
  - intros fs' d'' Hget. unfold get_stale_files.
    change (_load_manifest (mkState d'' (manifest_file s) (saved s)))
      with (_load_manifest s).
    rewrite Hload. eexists _, _. split; [reflexivity|].
    apply list_elem_of_fmap. exists (p, c). split; [done|].
    apply list_elem_of_filter. split; [|by apply get_Some_elem].
    by apply unchanged_false_stored_hash.
Qed.

Lemma v2_only_set_any fs k e : upgrade e = e -> v2_only fs -> v2_only (Dict.set k e fs).
Proof.
  intros He. unfold v2_only. induction 1 as [|[k' v'] fs Hv Hfs IH]; simpl.
  - by repeat constructor.
  - destruct (decide (k = k')); constructor; done.
Qed.

Lemma v2_only_merge_entries ftu mf :
  v2_only ftu -> v2_only mf -> v2_only (merge_entries ftu mf).
Proof.
  intros Hftu. revert mf. induction Hftu as [|[k e] ftu He Hftu IH]; intros mf Hmf; [done|].
  apply IH. by apply v2_only_set_any.
Qed.

Lemma v2_only_pending mf fs : v2_only (pending mf fs).
Proof.
  apply Forall_forall. intros [p e] (c & blocks & _ & _ & _ & ->)%elem_of_pending. done.
Qed.

Lemma stored_nil d : stored d [] d.
Proof. split; [by left | by intros ? ?%elem_of_nil]. Qed.

Lemma staged_file mf fs bi :
  Dict.wf fs -> bi ∈ staged mf fs ->
  exists c blocks b,
    Dict.get (bi_file bi) fs = Some c /\ unchanged mf (bi_file bi, c) = false
    /\ extract (bi_file bi) c = Some blocks /\ b ∈ blocks
    /\ bi = stage (bi_file bi) (content_hash c) b.
Proof.
  intros Hwf ([p c] & blocks & b & Hin & Hu & He & Hb & ->)%elem_of_staged.
  simpl in *. exists c, blocks, b. split_and!; try done. by apply elem_get.
Qed.

Lemma get_pending_failed mf fs p c :
  Dict.wf fs -> (p, c) ∈ fs -> extract p c = None -> Dict.get p (pending mf fs) = None.
Proof.
  intros Hwf Hin He. destruct (Dict.get p (pending mf fs)) as [e|] eqn:Hp; [|done].
  apply get_pending in Hp as (c' & blocks & Hget & _ & He' & _); [|done].
  apply (elem_get _ _ _ Hwf) in Hin. congruence.
Qed.

(** C7. A path whose extraction raises is counted in [errors] and does not
    stop the call: [index] returns, every path of the input is counted as
    indexed, skipped or failed, and the blocks of the paths that were
    extracted are stored. The manifest entry of the failing path is what
    it was. The ids it records were deleted before the extraction: after
    the call each of them is absent from the store, or holds a vector
    staged in this call for another path. *)
Theorem extraction_failure_is_local fs batch_size s m p c :
  (forall texts, length (embed texts) = length texts) ->
  _load_manifest s = Ok m -> disk_wf s -> Dict.wf fs -> 0 < batch_size ->
  (p, c) ∈ fs -> unchanged (files m) (p, c) = false -> extract p c = None ->
  exists st s' m',
    index fs batch_size s = (Ok st, s')
    /\ stat_errors st = Some (n_failed (files m) fs)
    /\ (1 <= n_failed (files m) fs)%nat
    /\ (stat_files st + stat_skipped st + n_failed (files m) fs = length fs)%nat
    /\ stored (db_delete (old_ids (files m) fs) (db s)) (staged (files m) fs) (db s')
    /\ _load_manifest s' = Ok m'
    /\ Dict.get p (files m') = Dict.get p (files m)
    /\ (forall id, id ∈ entry_blocks (Dict.get p (files m)) ->
          db_delete (old_ids (files m) fs) (db s) !! id = None
          /\ (db s' !! id = None
              \/ exists bi e,
                   bi ∈ staged (files m) fs /\ bi_file bi <> p
                   /\ db s' !! id = Some (item_of bi e))).
Proof.
  intros Hembed Hload Hdisk Hwf Hpos Hin Hu He.
  destruct (load_Ok _ _ Hload Hdisk) as [Hwfm Hv2].
  assert (forall id, id ∈ entry_blocks (Dict.get p (files m)) ->
                     db_delete (old_ids (files m) fs) (db s) !! id = None) as Hgone.
  { intros id Hid. apply db_delete_lookup_in, elem_of_old_ids. by exists (p, c). }
  assert (forall bi, bi ∈ staged (files m) fs -> bi_file bi <> p) as Hother.
  { intros bi (c' & blocks & b & Hget & _ & He' & _)%staged_file Heq; [|done].
    rewrite Heq in *. apply (elem_get _ _ _ Hwf) in Hin. congruence. }
  pose proof (n_partition (files m) fs) as Hpart.
  pose proof (n_failed_pos (files m) fs (p, c) Hin Hu He) as Hfail.
  destruct (index_run fs batch_size s m Hembed Hwf Hpos Hload)
    as [[Hnil Hrun]|[Hne (d' & Hst & Hrun)]].
  - eexists _, _, m. split; [exact Hrun|].
    cbn [stat_files stat_skipped stat_errors db]. rewrite Hnil.
    split_and!; try done; [apply stored_nil|].
    intros id Hid. split; [by apply Hgone | left; by apply Hgone].
  - eexists _, _, (mkManifest (merge_entries (pending (files m) fs) (files m))).
    split; [exact Hrun|].
    cbn [stat_files stat_skipped stat_errors].
    split_and!; try done.
    + apply load_saved; cbn [files].
      * by apply wf_merge_entries.
      * by apply v2_only_merge_entries; [apply v2_only_pending|].
    + cbn [files]. rewrite get_merge_entries by by apply wf_pending.
      by rewrite (get_pending_failed _ _ _ _ Hwf Hin He).
    + intros id Hid. split; [by apply Hgone|]. cbn [_save_manifest db].
      destruct Hst as [Hlook _]. destruct (Hlook id) as [Hsame|(bi & e & Hbi & _ & Hit)].
      * left. rewrite Hsame. by apply Hgone.
      * right. exists bi, e. split_and!; [done | by apply Hother | done].
Qed.

Lemma index_all_unchanged fs batch_size s m :
  _load_manifest s = Ok m -> Dict.wf fs ->
  (forall fc, fc ∈ fs -> unchanged (files m) fc = true) ->
  index fs batch_size s = (Ok (mkStats 0 0 (length fs) (Some 0%nat) 0), s).
Proof.
  intros Hload Hwf Hall. unfold index. rewrite Hload, scan_eq by done.
  destruct (all_unchanged _ _ Hall) as (-> & -> & -> & -> & -> & _).
  cbn. by rewrite state_eta.
Qed.

Lemma unchanged_after_merge mf fs p c :
  Dict.wf fs -> (p, c) ∈ fs ->
  unchanged mf (p, c) = true \/ is_Some (extract p c) ->
  unchanged (merge_entries (pending mf fs) mf) (p, c) = true.
Proof.
  intros Hwf Hin Hcase. apply unchanged_true.
  rewrite get_merge_entries by by apply wf_pending.
  destruct (unchanged mf (p, c)) eqn:Hu.
  - destruct (Dict.get p (pending mf fs)) as [e|] eqn:Hp.
    + apply get_pending in Hp as (c' & blocks & Hget & Hu' & _); [|done].
      apply (elem_get _ _ _ Hwf) in Hin. congruence.
    + by apply unchanged_true.
  - destruct Hcase as [?|[blocks He]]; [done|].
    assert (Dict.get p (pending mf fs)
            = Some (Entry (content_hash c) (map (block_id p) blocks))) as ->.
    { apply get_pending; [done|]. exists c, blocks. split_and!; try done. by apply elem_get. }
    by eexists.
Qed.

(** C2, as the code has it. When a call of [index] returned with no
    error, and embedded a block or had no file to index, a second call with
    the same file set skips every file, embeds no block, and leaves the
    index as it is. *)
Theorem index_twice fs batch_size batch_size' s st1 s1 :
  disk_wf s -> Dict.wf fs ->
  index fs batch_size s = (Ok st1, s1) ->
  stat_errors st1 = Some 0%nat ->
  (0 < stat_blocks st1 \/ stat_files st1 = 0)%nat ->
  index fs batch_size' s1 = (Ok (mkStats 0 0 (length fs) (Some 0%nat) 0), s1).
Proof.
  intros Hdisk Hwf Hrun Herr Hblocks.
  destruct (index_Ok _ _ _ _ _ Hwf Hrun) as (m & Hload & Hcases).
  destruct (load_Ok _ _ Hload Hdisk) as [Hwfm Hv2].
  destruct Hcases as [(Hnil & -> & ->)|(Hne & n' & d' & starts & _ & _ & -> & ->)];
    cbn [stat_errors stat_blocks stat_files] in *.
  - destruct Hblocks as [?|Hnone]; [lia|]. injection Herr as Hfail.
    assert (forall fc, fc ∈ fs -> unchanged (files m) fc = true) as Hall.
    { intros fc Hin. destruct (unchanged (files m) fc) eqn:Hu; [done|].
      pose proof (n_indexed_0 _ _ _ Hnone Hin Hu) as He.
      destruct (n_failed_0 _ _ _ Hfail Hin Hu) as [? He']. congruence. }
    destruct (all_unchanged _ _ Hall) as (_ & _ & _ & -> & _).
    cbn [db_delete fold_left]. rewrite state_eta.
    by apply index_all_unchanged with m.
  - injection Herr as Hfail.
    apply index_all_unchanged
      with (mkManifest (merge_entries (pending (files m) fs) (files m))); [|done|].
    + apply load_saved; cbn [files].
      * by apply wf_merge_entries.
      * by apply v2_only_merge_entries; [apply v2_only_pending|].
    + intros [p c] Hin. cbn [files]. apply unchanged_after_merge; [done..|].
      destruct (unchanged (files m) (p, c)) eqn:Hu; [by left|right].
      exact (n_failed_0 _ _ _ Hfail Hin Hu).
Qed.

(** ** Block ids and paths *)

Lemma block_id_of_path p b : id_of_path p (block_id p b).
Proof. by eexists. Qed.

Lemma id_of_path_inj p q id :
  no_colon p -> no_colon q -> id_of_path p id -> id_of_path q id -> p = q.
Proof.
  unfold no_colon. intros Hp Hq [r1 ->] [r2 Heq]. revert q Hq Heq.
  induction p as [|a p IH]; intros [|b q] Hq Heq; simpl in *.
  - done.
  - injection Heq as <- _. destruct Hq. left.
  - injection Heq as -> _. destruct Hp. left.
  - injection Heq as -> Heq. f_equal. apply IH; [|  |done].
    + intros Hin. apply Hp. by right.
    + intros Hin. apply Hq. by right.
Qed.

Lemma staged_origin mf fs bi e :
  bi ∈ staged mf fs -> origin (item_of bi e) = bi_file bi /\ id_of_path (bi_file bi) (bi_id bi).
Proof.
  intros (fc & blocks & b & _ & _ & _ & _ & ->)%elem_of_staged. split; [done|].
  apply block_id_of_path.
Qed.

(** ** The deletion loop and the changed subset of [update] *)

Lemma get_pop_all deleted mf q :
  Dict.wf mf ->
  Dict.get q (pop_all deleted mf) = if decide (q ∈ deleted) then None else Dict.get q mf.
Proof.
  revert mf. induction deleted as [|f deleted IH]; intros mf Hwf.
  - rewrite decide_False; [done | apply not_elem_of_nil].
  - change (pop_all (f :: deleted) mf) with (pop_all deleted (Dict.pop f mf)).
    rewrite IH by by apply wf_pop.
    destruct (decide (q ∈ deleted)) as [Hin|Hin].
    + rewrite decide_True; [done | by right].
    + destruct (decide (f = q)) as [->|Hne].
      * rewrite decide_True by left. by apply get_pop_eq.
      * rewrite decide_False; [by apply get_pop_ne|].
        intros [?|?]%elem_of_cons; congruence.
Qed.

Lemma wf_pop_all deleted mf : Dict.wf mf -> Dict.wf (pop_all deleted mf).
Proof.
  revert mf. induction deleted as [|f deleted IH]; intros mf Hwf; [done|].
  apply IH. by apply wf_pop.
Qed.

Lemma v2_only_pop_all deleted mf : v2_only mf -> v2_only (pop_all deleted mf).
Proof.
  revert mf. induction deleted as [|f deleted IH]; intros mf Hwf; [done|].
  apply IH. by apply v2_only_pop.
Qed.

Lemma delete_file_eq d mf n f :
  delete_file (d, mf, n) f
  = (db_delete (entry_blocks (Dict.get f mf)) d, Dict.pop f mf,
     (n + length (entry_blocks (Dict.get f mf)))%nat).
Proof.
  unfold delete_file. destruct (entry_blocks (Dict.get f mf)); [|done].
  simpl. by rewrite Nat.add_0_r.
Qed.

Lemma delete_files_spec deleted d mf n :
  NoDup deleted ->
  fold_left delete_file deleted (d, mf, n)
  = (db_delete (deleted_ids mf deleted) d, pop_all deleted mf,
     (n + length (deleted_ids mf deleted))%nat).
Proof.
  revert d mf n. induction deleted as [|f deleted IH]; intros d mf n Hnd.
  - simpl. by rewrite Nat.add_0_r.
  - apply NoDup_cons in Hnd as [Hf Hnd].
    change (fold_left delete_file (f :: deleted) (d, mf, n))
      with (fold_left delete_file deleted (delete_file (d, mf, n) f)).
    rewrite delete_file_eq, IH by done.
    assert (deleted_ids (Dict.pop f mf) deleted = deleted_ids mf deleted) as ->.
    { unfold deleted_ids. clear IH Hnd. induction deleted as [|g deleted IH]; [done|].
      apply not_elem_of_cons in Hf as [Hne Hf]. simpl.
      rewrite get_pop_ne by done. by rewrite IH. }
    change (deleted_ids mf (f :: deleted))
      with (entry_blocks (Dict.get f mf) ++ deleted_ids mf deleted).
    rewrite db_delete_app, length_app. by rewrite Nat.add_assoc.
Qed.

Lemma restrict_sub (fs sub acc : dict string) :
  Dict.wf fs -> (forall x, x ∈ sub -> x ∈ fs) -> NoDup sub.*1 ->
  (forall k, k ∈ sub.*1 -> k ∉ Dict.keys acc) ->
  fold_left
    (fun acc f => match Dict.get f fs with Some c => Dict.set f c acc | None => acc end)
    sub.*1 acc
  = acc ++ sub.
Proof.
  intros Hwf. revert acc. induction sub as [|[f c] sub IH]; intros acc Hsub Hnd Hfresh.
  - simpl. by rewrite app_nil_r.
  - simpl in *. apply NoDup_cons in Hnd as [Hf Hnd].
    rewrite (elem_get fs f c Hwf) by (apply Hsub; left).
    rewrite set_fresh by (apply Hfresh; left).
    rewrite IH; [by rewrite <- app_assoc | | done |].
    + intros x Hx. apply Hsub. by right.
    + intros k Hk. unfold Dict.keys. rewrite fmap_app, not_elem_of_app. split.
      * apply Hfresh. by right.
      * simpl. intros ->%list_elem_of_singleton. done.
Qed.

Lemma wf_filter {V} (P : string * V -> Prop) `{!forall x, Decision (P x)} (fs : dict V) :
  Dict.wf fs -> Dict.wf (filter P fs).
Proof.
  unfold Dict.wf, Dict.keys. intros Hwf.
  eapply sublist_NoDup; [done|]. apply fmap_sublist, sublist_filter.
Qed.

Lemma restrict_filter (fs : dict string) (P : string * string -> Prop) `{!forall x, Decision (P x)} :
  Dict.wf fs -> restrict fs (filter P fs).*1 = filter P fs.
Proof.
  intros Hwf. unfold restrict. rewrite restrict_sub; try done.
  - intros x [_ ?]%list_elem_of_filter. done.
  - by apply (wf_filter P).
  - intros k _. apply not_elem_of_nil.
Qed.

(** ** [update] as a whole *)

Lemma get_stale_files_eq fs s m :
  _load_manifest s = Ok m ->
  get_stale_files fs s = Ok ((stale_changed (files m) fs).*1, stale_deleted (files m) fs).
Proof. intros Hload. unfold get_stale_files. by rewrite Hload. Qed.

Lemma update_eq fs s m :
  _load_manifest s = Ok m -> disk_wf s -> Dict.wf fs ->
  update fs s
  = match (stale_changed (files m) fs).*1, stale_deleted (files m) fs with
    | [], [] => (Ok (mkStats 0 0 (length fs) None 0), s)
    | _, _ =>
        match index (stale_changed (files m) fs) 128
                (after_deletions s (files m) (stale_deleted (files m) fs)) with
        | (Raise x, s2) => (Raise x, s2)
        | (Ok stats, s2) =>
            (Ok (mkStats (stat_files stats) (stat_blocks stats) (stat_skipped stats)
                   (stat_errors stats)
                   (stat_deleted stats
                    + length (deleted_ids (files m) (stale_deleted (files m) fs)))),
             s2)
        end
    end.
Proof.
  intros Hload Hdisk Hwf. destruct (load_Ok _ _ Hload Hdisk) as [Hwfm _].
  unfold update. rewrite (get_stale_files_eq _ _ _ Hload), Hload.
  assert (NoDup (stale_deleted (files m) fs)) as Hnd by by apply NoDup_filter.
  assert (restrict fs (stale_changed (files m) fs).*1 = stale_changed (files m) fs) as Hr
    by by apply restrict_filter.
  destruct (stale_deleted (files m) fs) as [|f deleted] eqn:Hdel.
  - destruct ((stale_changed (files m) fs).*1) as [|g changed] eqn:Hch; [done|].
    rewrite Hr. cbn [after_deletions deleted_ids flat_map length].
    destruct (index _ _ _) as [[st|x] s2]; [|done]. by rewrite Nat.add_0_r.
  - rewrite delete_files_spec by done. cbn [after_deletions]. rewrite Nat.add_0_l.
    destruct ((stale_changed (files m) fs).*1) as [|g changed] eqn:Hch; rewrite Hr;
      by destruct (index _ _ _) as [[st|x] s2].
Qed.

Lemma manifest_eta m : mkManifest (files m) = m.
Proof. by destruct m. Qed.

Lemma after_deletions_load s m deleted :
  _load_manifest s = Ok m -> disk_wf s ->
  _load_manifest (after_deletions s (files m) deleted)
  = Ok (mkManifest (pop_all deleted (files m))).
Proof.
  intros Hload Hdisk. destruct (load_Ok _ _ Hload Hdisk) as [Hwfm Hv2].
  destruct deleted as [|f deleted].
  - cbn [after_deletions pop_all fold_left]. by rewrite manifest_eta.
  - cbn [after_deletions]. apply load_saved; cbn [files].
    + by apply wf_pop_all.
    + by apply v2_only_pop_all.
Qed.

Lemma after_deletions_db s mf deleted :
  db (after_deletions s mf deleted) = db_delete (deleted_ids mf deleted) (db s).
Proof. by destruct deleted. Qed.

Lemma after_deletions_disk_wf s m deleted :
  _load_manifest s = Ok m -> disk_wf s -> disk_wf (after_deletions s (files m) deleted).
Proof.
  intros Hload Hdisk. destruct (load_Ok _ _ Hload Hdisk) as [Hwfm Hv2].
  destruct deleted as [|f deleted]; [done|]. by apply wf_pop_all.
Qed.

Lemma elem_of_stale_deleted mf fs p :
  p ∈ stale_deleted mf fs <-> p ∈ Dict.keys mf /\ p ∉ Dict.keys fs.
Proof. unfold stale_deleted. rewrite list_elem_of_filter. split; intros [? ?]; by split. Qed.

Lemma elem_of_stale_changed mf fs fc :
  v2_only mf ->
  fc ∈ stale_changed mf fs <-> fc ∈ fs /\ unchanged mf fc = false.
Proof.
  intros Hv2. unfold stale_changed. rewrite list_elem_of_filter. destruct fc as [p c].
  split; intros [H1 H2].
  - split; [done|]. destruct (unchanged mf (p, c)) eqn:Hu; [|done].
    apply unchanged_true in Hu as [blocks Hget]. simpl in H1. by rewrite Hget in H1.
  - split; [|done]. by apply unchanged_false_stored_hash.
Qed.

Lemma stale_changed_keys mf fs q :
  q ∈ Dict.keys (stale_changed mf fs) -> q ∈ Dict.keys fs.
Proof.
  unfold Dict.keys, stale_changed. intros (fc & -> & [_ ?]%list_elem_of_filter)%list_elem_of_fmap.
  apply list_elem_of_fmap. by exists fc.
Qed.

Lemma deleted_ids_elem mf deleted p id :
  p ∈ deleted -> id ∈ entry_blocks (Dict.get p mf) -> id ∈ deleted_ids mf deleted.
Proof. intros. apply elem_of_flat_map. by exists p. Qed.

(** What a call of [index] leaves, when the embedder gives a row per text
    and the batch size is positive. *)
Lemma index_post fs batch_size s m :
  (forall texts, length (embed texts) = length texts) ->
  Dict.wf fs -> 0 < batch_size ->
  _load_manifest s = Ok m -> disk_wf s ->
  let mf := files m in
  exists s' m',
    index fs batch_size s
    = (Ok (mkStats (n_indexed mf fs) (length (staged mf fs)) (n_skipped mf fs)
             (Some (n_failed mf fs)) (length (old_ids mf fs))),
       s')
    /\ stored (db_delete (old_ids mf fs) (db s)) (staged mf fs) (db s')
    /\ _load_manifest s' = Ok m' /\ disk_wf s'
    /\ ((staged mf fs = [] /\ m' = m /\ saved s' = saved s)
        \/ (staged mf fs <> [] /\ m' = mkManifest (merge_entries (pending mf fs) mf)
            /\ saved s' = m' :: saved s)).
Proof.
  intros Hembed Hwf Hpos Hload Hdisk. destruct (load_Ok _ _ Hload Hdisk) as [Hwfm Hv2].
  destruct (index_run fs batch_size s m Hembed Hwf Hpos Hload)
    as [[Hnil Hrun]|[Hne (d' & Hst & Hrun)]].
  - eexists _, m. rewrite Hnil. split; [exact Hrun|]. cbn [db saved].
    split_and!; [apply stored_nil | exact Hload | exact Hdisk | by left].
  - eexists _, _. split; [exact Hrun|]. cbn [_save_manifest db saved].
    assert (Dict.wf (merge_entries (pending (files m) fs) (files m))) as Hwf'
      by by apply wf_merge_entries.
    split_and!; [done | | exact Hwf' | by right].
    apply (load_saved (mkManifest _)); cbn [files]; [done|].
    by apply v2_only_merge_entries; [apply v2_only_pending|].
Qed.

Lemma needs_update_eq fs s changed deleted :
  get_stale_files fs s = Ok (changed, deleted) ->
  needs_update fs s = Ok (length changed + length deleted)%nat.
Proof. intros H. unfold needs_update. by rewrite H. Qed.

(** C4, as the code has it. A path that the manifest has and the file set
    passed to [update] lacks is among the deleted paths that [needs_update]
    counts before the call. The deletion loop of [update] deletes the block
    ids recorded for the path from the store and drops its entry; the
    manifest without the deleted paths is written once, after the loop and
    before [index] runs on the changed files (which writes it at most once
    more). After the call the path has no entry and is neither changed nor
    deleted for [needs_update]. Each id recorded for it is then absent from
    the store, or holds a vector that [index] stored in this call for a
    changed file of the set; it is absent when the path and the changed
    paths have no [":"] and the id was built from the path. *)
Theorem update_reconciles_deleted fs s m p :
  (forall texts, length (embed texts) = length texts) ->
  _load_manifest s = Ok m -> disk_wf s -> Dict.wf fs ->
  p ∈ Dict.keys (files m) -> p ∉ Dict.keys fs ->
  exists (changed deleted : list string) st s' m',
    get_stale_files fs s = Ok (changed, deleted) /\ p ∈ deleted
    /\ needs_update fs s = Ok (length changed + length deleted)%nat
    /\ update fs s = (Ok st, s')
    /\ (forall id, id ∈ entry_blocks (Dict.get p (files m)) ->
          db_delete (deleted_ids (files m) deleted) (db s) !! id = None
          /\ (db s' !! id = None
              \/ exists bi e,
                   bi ∈ staged (pop_all deleted (files m)) (stale_changed (files m) fs)
                   /\ bi_file bi ∈ changed /\ bi_file bi <> p /\ bi_id bi = id
                   /\ db s' !! id = Some (item_of bi e))
          /\ (no_colon p -> (forall q, q ∈ changed -> no_colon q) -> id_of_path p id ->
              db s' !! id = None))
    /\ _load_manifest s' = Ok m' /\ Dict.get p (files m') = None
    /\ (forall q, q ∈ deleted -> Dict.get q (pop_all deleted (files m)) = None)
    /\ (saved s' = mkManifest (pop_all deleted (files m)) :: saved s
        \/ saved s' = m' :: mkManifest (pop_all deleted (files m)) :: saved s)
    /\ exists changed' deleted',
         get_stale_files fs s' = Ok (changed', deleted')
         /\ (p ∉ changed') /\ (p ∉ deleted')
         /\ needs_update fs s' = Ok (length changed' + length deleted')%nat.
Proof.
  intros Hembed Hload Hdisk Hwf Hpm Hpfs.
  destruct (load_Ok _ _ Hload Hdisk) as [Hwfm Hv2].
  set (cf := stale_changed (files m) fs). set (del := stale_deleted (files m) fs).
  set (s1 := after_deletions s (files m) del).
  assert (p ∈ del) as Hpdel by by apply elem_of_stale_deleted.
  assert (Dict.get p (pop_all del (files m)) = None) as Hpgone.
  { rewrite get_pop_all by done. by rewrite decide_True. }
  assert (Dict.wf cf) as Hwfc by by apply wf_filter.
  assert (p ∉ Dict.keys cf) as Hpcf by (intros ?%stale_changed_keys; done).
  pose proof (after_deletions_load s m del Hload Hdisk) as Hload1.
  pose proof (after_deletions_disk_wf s m del Hload Hdisk) as Hdisk1.
  destruct (index_post cf 128 s1 _ Hembed Hwfc ltac:(lia) Hload1 Hdisk1)
    as (s' & m' & Hrun & Hst & Hload' & Hdisk' & Hm').
  cbn [files] in Hrun, Hst, Hm'.
  assert (forall id, id ∈ entry_blocks (Dict.get p (files m)) ->
            db s' !! id = None
            \/ exists bi e,
                 bi ∈ staged (pop_all del (files m)) cf
                 /\ bi_file bi ∈ cf.*1 /\ bi_file bi <> p /\ bi_id bi = id
                 /\ db s' !! id = Some (item_of bi e)) as Hafter.
  { intros id Hid. destruct Hst as [Hlook _].
    assert (db_delete (old_ids (pop_all del (files m)) cf) (db s1) !! id = None) as Hd0.
    { rewrite db_delete_lookup. case_decide; [done|].
      unfold s1. rewrite after_deletions_db. apply db_delete_lookup_in.
      by apply deleted_ids_elem with p. }
    destruct (Hlook id) as [Hsame|(bi & e & Hbi & Hbid & Hit)]; [left; by rewrite Hsame|].
    right. exists bi, e.
    destruct (staged_file _ _ _ Hwfc Hbi) as (c & _ & _ & Hget%get_Some_key & _).
    split_and!; [done | exact Hget | | done | done].
    intros Heq. apply Hpcf. by rewrite <- Heq. }
  assert (Dict.get p (files m') = None) as Hpm'.
  { destruct Hm' as [(_ & -> & _)|(_ & -> & _)]; [done|]. cbn [files].
    rewrite get_merge_entries by by apply wf_pending.
    destruct (Dict.get p (pending (pop_all del (files m)) cf)) as [e|] eqn:Hpe; [|exact Hpgone].
    apply get_Some_elem, elem_of_pending in Hpe as (c & _ & Hin & _).
    destruct Hpcf. apply list_elem_of_fmap. by exists (p, c). }
  exists (cf.*1), del.
  assert (update fs s
          = (Ok (mkStats (n_indexed (pop_all del (files m)) cf)
                   (length (staged (pop_all del (files m)) cf)) (n_skipped (pop_all del (files m)) cf)
                   (Some (n_failed (pop_all del (files m)) cf))
                   (length (old_ids (pop_all del (files m)) cf) + length (deleted_ids (files m) del))),
             s')) as Hupd.
  { rewrite (update_eq fs s m Hload Hdisk Hwf). fold cf del s1. rewrite Hrun.
    destruct del as [|f del']; [by apply elem_of_nil in Hpdel|].
    by destruct (cf.*1). }
  eexists _, s', m'. split_and!; try done.
  - by apply get_stale_files_eq.
  - by apply needs_update_eq, get_stale_files_eq.
  - intros id Hid. split_and!.
    + apply db_delete_lookup_in. by apply deleted_ids_elem with p.
    + by apply Hafter.
    + intros Hp Hcolon Hpath.
      destruct (Hafter id Hid) as [Hnone|(bi & e & Hbi & Hch & Hne & Hbid & _)]; [done|].
      destruct (staged_origin _ _ _ e Hbi) as [_ Hpath']. rewrite Hbid in Hpath'.
      destruct Hne. apply (id_of_path_inj _ _ id); [by apply Hcolon|done..].
  - intros q Hq. rewrite get_pop_all by done. by rewrite decide_True.
  - assert (saved s1 = mkManifest (pop_all del (files m)) :: saved s) as Hs1.
    { unfold s1. destruct del as [|f del']; [by apply elem_of_nil in Hpdel | done]. }
    destruct Hm' as [(_ & _ & ->)|(_ & _ & ->)]; rewrite Hs1; [by left | by right].
  - exists (stale_changed (files m') fs).*1, (stale_deleted (files m') fs).
    split_and!.
    + by apply get_stale_files_eq.
    + intros ?%stale_changed_keys. done.
    + intros [Hk _]%elem_of_stale_deleted. by apply get_None in Hpm'.
    + by apply needs_update_eq, get_stale_files_eq.
Qed.

(** ** Agreement of the manifest and the store is kept *)

Lemma staged_inv mf fs bi :
  Dict.wf fs -> bi ∈ staged mf fs ->
  exists c blocks b,
    (bi_file bi, c) ∈ fs /\ unchanged mf (bi_file bi, c) = false
    /\ extract (bi_file bi) c = Some blocks /\ b ∈ blocks
    /\ bi_id bi = block_id (bi_file bi) b
    /\ Dict.get (bi_file bi) (pending mf fs)
       = Some (Entry (content_hash c) (map (block_id (bi_file bi)) blocks)).
Proof.
  intros Hwf ([p c] & blocks & b & Hin & Hu & He & Hb & ->)%elem_of_staged.
  simpl in *. exists c, blocks, b. split_and!; try done.
  apply get_pending; [done|]. exists c, blocks. split_and!; try done. by apply elem_get.
Qed.

Lemma pending_None mf fs q c :
  Dict.wf fs -> n_failed mf fs = 0%nat ->
  Dict.get q (pending mf fs) = None -> (q, c) ∈ fs -> unchanged mf (q, c) = true.
Proof.
  intros Hwf Hfail Hnone Hin. destruct (unchanged mf (q, c)) eqn:Hu; [done|].
  destruct (n_failed_0 _ _ _ Hfail Hin Hu) as [blocks He]. simpl in He.
  assert (Dict.get q (pending mf fs)
          = Some (Entry (content_hash c) (map (block_id q) blocks))) as Hsome.
  { apply get_pending; [done|]. exists c, blocks. split_and!; try done. by apply elem_get. }
  congruence.
Qed.

Lemma agreement_after_index d mf fs d' :
  Dict.wf fs -> Dict.wf mf ->
  blocks_match d mf -> store_wf d mf ->
  (forall q, q ∈ Dict.keys fs -> no_colon q) ->
  n_failed mf fs = 0%nat ->
  stored (db_delete (old_ids mf fs) d) (staged mf fs) d' ->
  blocks_match d' (merge_entries (pending mf fs) mf)
  /\ store_wf d' (merge_entries (pending mf fs) mf).
Proof.
  intros Hwf Hwfm Hbm Hsw Hcolon Hfail [Hlook Hall].
  assert (forall bi, bi ∈ staged mf fs -> no_colon (bi_file bi)) as Hscolon.
  { intros bi (c & blocks & b & Hin & _)%staged_inv; [|done].
    apply Hcolon, list_elem_of_fmap. by exists (bi_file bi, c). }
  assert (forall id it, db_delete (old_ids mf fs) d !! id = Some it ->
                        (id ∉ old_ids mf fs) /\ d !! id = Some it) as Hold.
  { intros id it. rewrite db_delete_lookup. by case_decide. }
  split.
  - intros q e Hq id. rewrite get_merge_entries in Hq by by apply wf_pending.
    destruct (Dict.get q (pending mf fs)) as [e'|] eqn:Hpe.
    + injection Hq as ->.
      apply get_pending in Hpe as (c & blocks & Hget & Hu & He & ->); [|done].
      cbn [entry_blocks]. split.
      * intros (b & -> & Hb)%list_elem_of_fmap.
        destruct (Hall (stage q (content_hash c) b)) as (bi' & e' & Hbi' & Hid & Hit).
        { apply elem_of_staged. exists (q, c), blocks, b. split_and!; try done.
          by apply get_Some_elem. }
        cbn [stage bi_id] in Hid, Hit. exists (item_of bi' e'). split; [done|].
        destruct (staged_origin _ _ _ e' Hbi') as [-> Hpath]. rewrite Hid in Hpath.
        apply (id_of_path_inj _ _ (block_id q b)); [by apply Hscolon | | done |].
        -- by apply Hcolon, get_Some_key with c.
        -- apply block_id_of_path.
      * intros (it & Hit & Horig).
        destruct (Hlook id) as [Hsame|(bi & e' & Hbi & Hid & Hit')].
        -- rewrite Hsame in Hit. apply Hold in Hit as [Hnot Hit]. destruct Hnot.
           apply elem_of_old_ids. exists (q, c). split_and!; [by apply get_Some_elem|done|].
           destruct (Hsw _ _ Hit) as ([e0 He0] & _). rewrite Horig in He0.
           cbn [fst]. rewrite He0. apply (Hbm _ _ He0). by exists it.
        -- rewrite Hit' in Hit. injection Hit as <-.
           destruct (staged_inv _ _ _ Hwf Hbi)
             as (c' & blocks' & b & Hin & _ & He' & Hb & Hbid & _).
           destruct (staged_origin _ _ _ e' Hbi) as [Ho _]. rewrite Ho in Horig.
           rewrite Horig in *. apply (elem_get _ _ _ Hwf) in Hin.
           assert (c' = c) as -> by congruence. assert (blocks' = blocks) as -> by congruence.
           rewrite <- Hid, Hbid. apply list_elem_of_fmap. by exists b.
    + assert (forall c, (q, c) ∈ fs -> unchanged mf (q, c) = true) as Hskip
        by (intros c; by apply pending_None).
      split.
      * intros Hid. apply (Hbm _ _ Hq) in Hid as (it & Hit & Horig).
        exists it. split; [|done].
        assert (id ∉ old_ids mf fs) as Hnot.
        { intros ([q' c'] & Hin & Hu & Hid')%elem_of_old_ids. cbn [fst] in Hid'.
          destruct (Dict.get q' mf) as [e'|] eqn:He'; [|by apply elem_of_nil in Hid'].
          apply (Hbm _ _ He') in Hid' as (it' & Hit' & Horig').
          assert (q' = q) as -> by congruence. rewrite Hskip in Hu; done. }
        destruct (Hlook id) as [Hsame|(bi & e' & Hbi & Hid & _)].
        -- rewrite Hsame. by rewrite db_delete_lookup_notin.
        -- destruct (staged_inv _ _ _ Hwf Hbi) as (c' & blocks' & b' & _ & _ & _ & _ & _ & Hsome).
           destruct (staged_origin _ _ _ e' Hbi) as [_ Hpath]. rewrite Hid in Hpath.
           destruct (Hsw _ _ Hit) as (_ & Hc & Hpath'). rewrite Horig in Hc, Hpath'.
           assert (bi_file bi = q) as Heq
             by (apply (id_of_path_inj _ _ id); auto).
           rewrite Heq in Hsome. congruence.
      * intros (it & Hit & Horig). apply (Hbm _ _ Hq). exists it. split; [|done].
        destruct (Hlook id) as [Hsame|(bi & e' & Hbi & Hid & Hit')].
        -- rewrite Hsame in Hit. by apply Hold in Hit as [_ Hit].
        -- rewrite Hit' in Hit. injection Hit as <-.
           destruct (staged_inv _ _ _ Hwf Hbi) as (c' & blocks' & b' & _ & _ & _ & _ & _ & Hsome).
           destruct (staged_origin _ _ _ e' Hbi) as [Ho _]. rewrite Ho in Horig.
           rewrite Horig in Hsome. congruence.
  - intros id it Hit.
    destruct (Hlook id) as [Hsame|(bi & e' & Hbi & Hid & Hit')].
    + rewrite Hsame in Hit. apply Hold in Hit as [_ Hit].
      destruct (Hsw _ _ Hit) as ([e0 He0] & Hc & Hpath). split_and!; [|done..].
      rewrite get_merge_entries by by apply wf_pending.
      destruct (Dict.get (origin it) (pending mf fs)); [by eexists | by rewrite He0].
    + rewrite Hit' in Hit. injection Hit as <-.
      destruct (staged_inv _ _ _ Hwf Hbi) as (c' & blocks' & b' & _ & _ & _ & _ & _ & Hsome).
      destruct (staged_origin _ _ _ e' Hbi) as [Ho Hpath]. rewrite Ho.
      split_and!; [| by apply Hscolon | by rewrite <- Hid].
      rewrite get_merge_entries by by apply wf_pending. by rewrite Hsome.
Qed.

Lemma agreement_after_deletions d mf deleted :
  Dict.wf mf -> blocks_match d mf -> store_wf d mf ->
  blocks_match (db_delete (deleted_ids mf deleted) d) (pop_all deleted mf)
  /\ store_wf (db_delete (deleted_ids mf deleted) d) (pop_all deleted mf).
Proof.
  intros Hwfm Hbm Hsw.
  assert (forall id it f, d !! id = Some it -> id ∈ entry_blocks (Dict.get f mf) ->
                          origin it = f) as Howner.
  { intros id it f Hit Hid.
    destruct (Dict.get f mf) as [e|] eqn:He; [|by apply elem_of_nil in Hid].
    apply (Hbm _ _ He) in Hid as (it' & Hit' & Ho). congruence. }
  assert (forall id it, d !! id = Some it -> origin it ∉ deleted ->
                        id ∉ deleted_ids mf deleted) as Hkept.
  { intros id it Hit Hnot (f & Hf & Hid)%elem_of_flat_map.
    apply Hnot. by rewrite (Howner _ _ _ Hit Hid). }
  split.
  - intros q e Hq id. rewrite get_pop_all in Hq by done.
    case_decide as Hdel; [done|]. rewrite (Hbm _ _ Hq id). split.
    + intros (it & Hit & Ho). exists it. split; [|done].
      rewrite db_delete_lookup_notin; [done|]. apply (Hkept _ _ Hit). by rewrite Ho.
    + intros (it & Hit & Ho). exists it. split; [|done].
      rewrite db_delete_lookup in Hit. by case_decide.
  - intros id it Hit. rewrite db_delete_lookup in Hit. case_decide as Hid; [done|].
    destruct (Hsw _ _ Hit) as ([e He] & Hc & Hpath). split_and!; [|done..].
    rewrite get_pop_all by done. rewrite decide_False; [by eexists|].
    intros Hdel. apply Hid, elem_of_flat_map. exists (origin it). split; [done|].
    rewrite He. apply (Hbm _ _ He). by exists it.
Qed.

Lemma consistent_after_deletions s m deleted :
  _load_manifest s = Ok m -> disk_wf s ->
  blocks_match (db s) (files m) -> store_wf (db s) (files m) ->
  consistent (after_deletions s (files m) deleted).
Proof.
  intros Hload Hdisk Hbm Hsw. destruct (load_Ok _ _ Hload Hdisk) as [Hwfm Hv2].
  exists (mkManifest (pop_all deleted (files m))).
  split_and!; [by apply after_deletions_load | by apply after_deletions_disk_wf | |];
    rewrite after_deletions_db; cbn [files];
    by apply agreement_after_deletions.
Qed.

Lemma embed_batches_positive all_blocks batch_size starts d n' d' :
  range_from_0 (length all_blocks) batch_size = Ok starts ->
  embed_batches all_blocks (Z.to_nat batch_size) starts d 0 = (Ok n', d') ->
  (0 < n')%nat -> 0 < batch_size.
Proof.
  unfold range_from_0. intros Hr Hrun Hn.
  destruct (decide (batch_size = 0)); [done|].
  destruct (decide (batch_size < 0)); [|lia].
  injection Hr as <-. simpl in Hrun. injection Hrun as <- _. lia.
Qed.

Lemma index_preserves fs batch_size s st s' :
  consistent s -> Dict.wf fs -> (forall q, q ∈ Dict.keys fs -> no_colon q) ->
  index fs batch_size s = (Ok st, s') ->
  default 0%nat (stat_errors st) = 0%nat ->
  (0 < stat_blocks st \/ stat_files st = 0)%nat ->
  consistent s'.
Proof.
  intros (m & Hload & Hdisk & Hbm & Hsw) Hwf Hcolon Hrun Herr Hblocks.
  destruct (load_Ok _ _ Hload Hdisk) as [Hwfm Hv2].
  destruct (index_Ok _ _ _ _ _ Hwf Hrun) as (m0 & Hload0 & Hcases).
  assert (m0 = m) as -> by congruence. cbn zeta in Hcases.
  assert (n_failed (files m) fs = 0%nat -> n_indexed (files m) fs = 0%nat ->
          forall fc, fc ∈ fs -> unchanged (files m) fc = true) as Hall.
  { intros Hfail Hnone fc Hin. destruct (unchanged (files m) fc) eqn:Hu; [done|].
    pose proof (n_indexed_0 _ _ _ Hnone Hin Hu) as He.
    destruct (n_failed_0 _ _ _ Hfail Hin Hu) as [? He']. congruence. }
  destruct Hcases as [(Hnil & -> & ->)|(Hne & n' & d' & starts & Hr & Hb & -> & ->)];
    cbn [stat_errors stat_blocks stat_files default] in *.
  - destruct Hblocks as [?|Hnone]; [lia|].
    destruct (all_unchanged _ _ (Hall Herr Hnone)) as (_ & _ & _ & -> & _).
    cbn [db_delete fold_left]. rewrite state_eta. by exists m.
  - destruct Hblocks as [Hpos|Hnone].
    2:{ destruct (all_unchanged _ _ (Hall Herr Hnone)) as (_ & _ & _ & _ & ? & _). done. }
    pose proof (embed_batches_positive _ _ _ _ _ _ Hr Hb Hpos) as Hbs.
    destruct (embed_batches_stored_all _ _ _ _ _ _ _ Hr Hbs Hb) as [Hst _].
    destruct (agreement_after_index _ _ _ _ Hwf Hwfm Hbm Hsw Hcolon Herr Hst) as [Hbm' Hsw'].
    assert (Dict.wf (merge_entries (pending (files m) fs) (files m))) as Hwf'
      by by apply wf_merge_entries.
    exists (mkManifest (merge_entries (pending (files m) fs) (files m))).
    split_and!; [|exact Hwf'|done..].
    apply (load_saved (mkManifest _)); cbn [files]; [done|].
    by apply v2_only_merge_entries; [apply v2_only_pending|].
Qed.

(** ** The invariant of the file entries *)

(** C1, as the code has it. Take a state in which the manifest and the
    store agree: each entry's block ids are exactly the ids of the stored
    vectors that originate from its path, each stored vector originates
    from a path of the manifest and has an id built from it, and paths have
    no [":"]. After a call of [index] or [update] that returns stats with
    no error, and with a block embedded or no file indexed, the manifest
    and the store agree again: in particular each entry's block ids are
    exactly the ids of the stored vectors that originate from its path. *)
Theorem agreement_preserved fs batch_size s st s' :
  consistent s -> Dict.wf fs -> (forall q, q ∈ Dict.keys fs -> no_colon q) ->
  index fs batch_size s = (Ok st, s') \/ update fs s = (Ok st, s') ->
  default 0%nat (stat_errors st) = 0%nat ->
  (0 < stat_blocks st \/ stat_files st = 0)%nat ->
  exists m',
    _load_manifest s' = Ok m' /\ blocks_match (db s') (files m') /\ consistent s'.
Proof.
  intros Hcons Hwf Hcolon Hrun Herr Hblocks.
  assert (consistent s') as Hcons'.
  { destruct Hrun as [Hrun|Hrun]; [by eapply index_preserves|].
    destruct Hcons as (m & Hload & Hdisk & Hbm & Hsw).
    destruct (load_Ok _ _ Hload Hdisk) as [Hwfm Hv2].
    rewrite (update_eq fs s m Hload Hdisk Hwf) in Hrun.
    assert (forall st0,
              index (stale_changed (files m) fs) 128
                (after_deletions s (files m) (stale_deleted (files m) fs)) = (Ok st0, s') ->
              stat_errors st0 = stat_errors st -> stat_blocks st0 = stat_blocks st ->
              stat_files st0 = stat_files st -> consistent s') as Hindex.
    { intros st0 Hidx He Hb Hf.
      eapply index_preserves; [| | |exact Hidx| |].
      - by apply consistent_after_deletions.
      - by apply wf_filter.
      - intros q Hq. by apply Hcolon, stale_changed_keys with (files m).
      - by rewrite He.
      - by rewrite Hb, Hf. }
    destruct ((stale_changed (files m) fs).*1), (stale_deleted (files m) fs);
      [injection Hrun as <- <-; by exists m|..];
      destruct (index _ _ _) as [[st0|x] s2]; try done;
      injection Hrun as <- <-; by eapply Hindex. }
  destruct Hcons' as (m' & Hload' & Hdisk' & Hbm' & Hsw').
  exists m'. split_and!; [done..|]. by exists m'.
Qed.

(** ** A change of one file *)

Lemma flat_map_nil {A B} (f : A -> list B) (l : list A) :
  (forall y, y ∈ l -> f y = []) -> flat_map f l = [].
Proof.
  induction l as [|a l IH]; intros Hnil; [done|]. simpl.
  rewrite (Hnil a) by left. apply IH. intros y Hy. apply Hnil. by right.
Qed.

Lemma flat_map_single {A B} (f : A -> list B) (l : list A) (x : A) :
  x ∈ l -> NoDup l -> (forall y, y ∈ l -> y <> x -> f y = []) -> flat_map f l = f x.
Proof.
  induction l as [|a l IH]; [by intros ?%elem_of_nil|].
  intros Hin [Ha Hl]%NoDup_cons Hnil. simpl.
  apply elem_of_cons in Hin as [->|Hin].
  - rewrite flat_map_nil; [by rewrite app_nil_r|].
    intros y Hy. apply Hnil; [by right|]. by intros ->.
  - rewrite (Hnil a); [|left|by intros ->]. simpl. apply IH; [done..|].
    intros y Hy. apply Hnil. by right.
Qed.

Lemma single_change_scan mf fs p c h old blocks :
  Dict.wf fs -> (p, c) ∈ fs ->
  Dict.get p mf = Some (Entry h old) -> h <> content_hash c ->
  extract p c = Some blocks ->
  (forall q c', (q, c') ∈ fs -> q <> p -> unchanged mf (q, c') = true) ->
  old_ids mf fs = old /\ staged mf fs = map (stage p (content_hash c)) blocks.
Proof.
  intros Hwf Hin Hget Hne He Hothers.
  assert (unchanged mf (p, c) = false) as Hu.
  { unfold unchanged, entry_unchanged. cbn [fst snd]. rewrite Hget.
    by apply bool_decide_eq_false. }
  assert (NoDup fs) as Hnd by by apply NoDup_fmap_1 in Hwf.
  assert (forall y, y ∈ fs -> y <> (p, c) -> unchanged mf y = true) as Hskip.
  { intros [q c'] Hy Hyne. apply Hothers; [done|]. intros ->.
    apply Hyne. f_equal. apply (elem_get _ _ _ Hwf) in Hin, Hy. congruence. }
  unfold old_ids, staged. split.
  - rewrite (flat_map_single _ fs (p, c)); try done.
    + rewrite Hu. cbn [fst]. by rewrite Hget.
    + intros y Hy Hyne. by rewrite Hskip.
  - rewrite (flat_map_single _ fs (p, c)); try done.
    + rewrite Hu. unfold staged_of. cbn [fst snd]. by rewrite He.
    + intros y Hy Hyne. by rewrite Hskip.
Qed.

Lemma propagated_of_stored d mf d' p hc h old blocks :
  blocks_match d mf -> store_wf d mf ->
  Dict.get p mf = Some (Entry h old) -> no_colon p ->
  stored (db_delete old d) (map (stage p hc) blocks) d' ->
  propagated p old (map (block_id p) blocks) d'
  /\ forall id it, origin it <> p -> d !! id = Some it <-> d' !! id = Some it.
Proof.
  intros Hbm Hsw Hget Hp [Hlook Hall].
  assert (forall bi e, bi ∈ map (stage p hc) blocks ->
            bi_id bi ∈ map (block_id p) blocks /\ origin (item_of bi e) = p
            /\ id_of_path p (bi_id bi)) as Hnew.
  { intros bi e (b & -> & Hb)%list_elem_of_fmap. split_and!; [|done|apply block_id_of_path].
    apply list_elem_of_fmap. by exists b. }
  assert (forall id it, d !! id = Some it -> origin it = p <-> id ∈ old) as Howner.
  { intros id it Hit. rewrite (Hbm _ _ Hget id). split.
    - intros Ho. by exists it.
    - intros (it' & Hit' & Ho). congruence. }
  split; [split_and!|].
  - intros id Hold Hnotnew. destruct (Hlook id) as [Hsame|(bi & e & Hbi & Hid & _)].
    + rewrite Hsame. by apply db_delete_lookup_in.
    + destruct (Hnew _ e Hbi) as [Hin _]. by rewrite Hid in Hin.
  - intros id (b & -> & Hb)%list_elem_of_fmap.
    destruct (Hall (stage p hc b)) as (bi' & e & Hbi' & Hid & Hit).
    { apply list_elem_of_fmap. by exists b. }
    exists (item_of bi' e). split; [done|]. by apply Hnew.
  - intros id it Hit Ho. destruct (Hlook id) as [Hsame|(bi & e & Hbi & Hid & Hit')].
    + rewrite Hsame, db_delete_lookup in Hit. case_decide as Hold; [done|].
      destruct Hold. by apply (Howner _ _ Hit).
    + destruct (Hnew _ e Hbi) as [Hin _]. by rewrite Hid in Hin.
  - intros id it Ho. split.
    + intros Hit. assert (id ∉ old) as Hnot by (intros ?%(Howner _ _ Hit); done).
      destruct (Hlook id) as [Hsame|(bi & e & Hbi & Hid & _)].
      * rewrite Hsame. by rewrite db_delete_lookup_notin.
      * destruct (Hnew _ e Hbi) as (_ & _ & Hpath). rewrite Hid in Hpath.
        destruct (Hsw _ _ Hit) as (_ & Hc & Hpath').
        destruct Ho. by apply (id_of_path_inj _ _ id).
    + intros Hit. destruct (Hlook id) as [Hsame|(bi & e & Hbi & Hid & Hit')].
      * rewrite Hsame, db_delete_lookup in Hit. by case_decide.
      * rewrite Hit' in Hit. injection Hit as <-. destruct Ho. by apply Hnew.
Qed.

Lemma db_delete_size (ids : list string) (d : store) :
  NoDup ids -> (forall id, id ∈ ids -> is_Some (d !! id)) ->
  size d = (length ids + size (db_delete ids d))%nat.
Proof.
  revert d. induction ids as [|i ids IH]; intros d Hnd Hin; [done|].
  apply NoDup_cons in Hnd as [Hi Hnd].
  change (db_delete (i :: ids) d) with (db_delete ids (delete i d)).
  cbn [length]. rewrite Nat.add_succ_l, <- IH; [|done|].
  - destruct (Hin i) as [x Hx]; [left|].
    rewrite <- (insert_delete_id d i x Hx) at 1.
    rewrite map_size_insert_None; [done | apply lookup_delete_eq].
  - intros id Hid. rewrite lookup_delete_ne; [apply Hin; by right|].
    intros ->. done.
Qed.

Lemma NoDup_only {A} (l : list A) (x : A) :
  NoDup l -> (forall y, y ∈ l <-> y = x) -> l = [x].
Proof.
  intros Hnd Hiff. destruct l as [|a l].
  - pose proof (proj2 (Hiff x) eq_refl) as Hx. by apply elem_of_nil in Hx.
  - assert (a = x) as -> by (apply Hiff; left).
    apply NoDup_cons in Hnd as [Hx _]. destruct l as [|b l]; [done|].
    assert (b = x) as -> by (apply Hiff; right; left). destruct Hx. left.
Qed.

Lemma stale_changed_single mf fs p c h old :
  v2_only mf -> Dict.wf fs -> (p, c) ∈ fs ->
  Dict.get p mf = Some (Entry h old) -> h <> content_hash c ->
  (forall q c', (q, c') ∈ fs -> q <> p -> unchanged mf (q, c') = true) ->
  stale_changed mf fs = [(p, c)].
Proof.
  intros Hv2 Hwf Hin Hget Hne Hothers. apply NoDup_only.
  - apply NoDup_filter. by apply NoDup_fmap_1 in Hwf.
  - intros [q c']. rewrite elem_of_stale_changed by done. split.
    + intros [Hq Hu]. destruct (decide (q = p)) as [->|Hqp].
      * apply (elem_get _ _ _ Hwf) in Hin, Hq. congruence.
      * rewrite Hothers in Hu; done.
    + intros [= -> ->]. split; [done|].
      unfold unchanged, entry_unchanged. cbn [fst snd]. rewrite Hget.
      by apply bool_decide_eq_false.
Qed.

Lemma replaced_of_stored d d' p hc old blocks :
  stored (db_delete old d) (map (stage p hc) blocks) d' ->
  replaced p old (map (block_id p) blocks) d d'.
Proof.
  intros [Hlook Hall].
  assert (forall bi, bi ∈ map (stage p hc) blocks -> bi_id bi ∈ map (block_id p) blocks)
    as Hnew.
  { intros bi (b & -> & Hb)%list_elem_of_fmap. apply list_elem_of_fmap. by exists b. }
  split_and!.
  - intros id Hold Hnotnew. destruct (Hlook id) as [Hsame|(bi & e & Hbi & Hid & _)].
    + rewrite Hsame. by apply db_delete_lookup_in.
    + apply Hnew in Hbi. by rewrite Hid in Hbi.
  - intros id (b & -> & Hb)%list_elem_of_fmap.
    destruct (Hall (stage p hc b)) as (bi' & e & Hbi' & Hid & Hit).
    { apply list_elem_of_fmap. by exists b. }
    exists (item_of bi' e). split; [done|].
    by apply list_elem_of_fmap in Hbi' as (b' & -> & _).
  - intros id Hnotold Hnotnew. destruct (Hlook id) as [Hsame|(bi & e & Hbi & Hid & _)].
    + rewrite Hsame. by apply db_delete_lookup_notin.
    + apply Hnew in Hbi. by rewrite Hid in Hbi.
Qed.

(** C3, as the code has it. A file that has an entry and whose content no
    longer has the recorded hash is re-indexed by [index] and by [update]
    (its extraction returns, the other files of the set are unchanged): the
    ids recorded for it are deleted, the ids of its new blocks then hold
    vectors of the file, and every other id holds what it held ([update]
    also deletes the ids recorded for the paths that are gone). [deleted]
    grows by the number of recorded ids; that is the number of vectors
    removed when the recorded ids are distinct and the store held them all,
    as it does when manifest and store agree. When they agree and the path
    has no [":"], the file has no other vector afterwards and the vectors
    of the other files are what they were. *)
Theorem change_propagates fs batch_size s m p c h old blocks :
  (forall texts, length (embed texts) = length texts) ->
  _load_manifest s = Ok m -> disk_wf s ->
  Dict.wf fs -> 0 < batch_size ->
  (p, c) ∈ fs -> Dict.get p (files m) = Some (Entry h old) -> h <> content_hash c ->
  extract p c = Some blocks ->
  (forall q c', (q, c') ∈ fs -> q <> p -> unchanged (files m) (q, c') = true) ->
  (exists st s',
     index fs batch_size s = (Ok st, s')
     /\ stat_deleted st = length old
     /\ replaced p old (map (block_id p) blocks) (db s) (db s')
     /\ (blocks_match (db s) (files m) -> store_wf (db s) (files m) -> no_colon p ->
         propagated p old (map (block_id p) blocks) (db s')
         /\ (forall id it, origin it <> p -> db s !! id = Some it <-> db s' !! id = Some it)))
  /\ (exists st s',
        update fs s = (Ok st, s')
        /\ stat_deleted st
           = (length old + length (deleted_ids (files m) (stale_deleted (files m) fs)))%nat
        /\ replaced p old (map (block_id p) blocks)
             (db_delete (deleted_ids (files m) (stale_deleted (files m) fs)) (db s)) (db s')
        /\ (blocks_match (db s) (files m) -> store_wf (db s) (files m) -> no_colon p ->
            propagated p old (map (block_id p) blocks) (db s')
            /\ (forall id it, origin it <> p -> origin it ∈ Dict.keys fs ->
                  db s !! id = Some it <-> db s' !! id = Some it)))
  /\ (NoDup old -> (forall id, id ∈ old -> is_Some (db s !! id)) ->
      size (db s) = (length old + size (db_delete old (db s)))%nat)
  /\ (blocks_match (db s) (files m) -> forall id, id ∈ old -> is_Some (db s !! id)).
Proof.
  intros Hembed Hload Hdisk Hwf Hbs Hin Hget Hne He Hothers.
  destruct (load_Ok _ _ Hload Hdisk) as [Hwfm Hv2].
  split_and!.
  - destruct (index_post fs batch_size s m Hembed Hwf Hbs Hload Hdisk)
      as (s' & m' & Hrun & Hst & _).
    destruct (single_change_scan _ _ _ _ _ _ _ Hwf Hin Hget Hne He Hothers) as [Hold Hnew].
    cbn zeta in Hrun, Hst. rewrite Hold, Hnew in Hst. rewrite Hold in Hrun.
    eexists _, s'. split; [exact Hrun|]. split; [done|].
    split; [by eapply replaced_of_stored|].
    intros Hbm Hsw Hp. by eapply propagated_of_stored.
  - set (del := stale_deleted (files m) fs).
    set (s1 := after_deletions s (files m) del).
    pose proof (after_deletions_load s m del Hload Hdisk) as Hload1.
    pose proof (after_deletions_disk_wf s m del Hload Hdisk) as Hdisk1.
    assert (Dict.wf [(p, c)]) as Hwf1 by (apply NoDup_singleton).
    assert (p ∉ del) as Hpdel.
    { intros [_ Hnot]%elem_of_stale_deleted. apply Hnot, list_elem_of_fmap. by exists (p, c). }
    assert (Dict.get p (pop_all del (files m)) = Some (Entry h old)) as Hget1.
    { rewrite get_pop_all by done. by rewrite decide_False. }
    destruct (index_post [(p, c)] 128 s1 _ Hembed Hwf1 ltac:(lia) Hload1 Hdisk1)
      as (s' & m' & Hrun & Hst & _).
    destruct (single_change_scan (pop_all del (files m)) [(p, c)] p c h old blocks)
      as [Hold Hnew]; try done; [left | by intros q c' [= -> ->]%list_elem_of_singleton |].
    cbn zeta in Hrun, Hst. cbn [files] in Hrun, Hst. rewrite Hold, Hnew in Hst.
    rewrite Hold in Hrun. unfold s1 in Hst. rewrite after_deletions_db in Hst.
    eexists _, s'. split.
    { rewrite (update_eq fs s m Hload Hdisk Hwf).
      rewrite (stale_changed_single _ _ _ _ _ _ Hv2 Hwf Hin Hget Hne Hothers).
      fold del s1. rewrite Hrun. cbn [fmap list_fmap fst]. reflexivity. }
    cbn [stat_deleted]. split; [done|]. split; [by eapply replaced_of_stored|].
    intros Hbm Hsw Hp.
    destruct (agreement_after_deletions (db s) (files m) del Hwfm Hbm Hsw) as [Hbm1 Hsw1].
    destruct (propagated_of_stored _ _ _ _ _ _ _ _ Hbm1 Hsw1 Hget1 Hp Hst) as [Hprop Hframe].
    split; [done|].
    intros id it Ho Hfs. rewrite <- (Hframe id it Ho). rewrite db_delete_lookup.
    case_decide as Hdel; [|done]. split; [|done]. intros Hit.
    apply elem_of_flat_map in Hdel as (f & Hf & Hid).
    destruct (Dict.get f (files m)) as [e|] eqn:Hfe; [|by apply elem_of_nil in Hid].
    apply (Hbm _ _ Hfe) in Hid as (it' & Hit' & Ho').
    assert (origin it = f) as Heq by congruence.
    apply elem_of_stale_deleted in Hf as [_ Hnot]. by rewrite Heq in Hfs.
  - intros Hnd Hheld. by apply db_delete_size.
  - intros Hbm id Hid. apply (Hbm _ _ Hget) in Hid as (it & -> & _). by eexists.
Qed.


(** ** The score transform in binary64 *)

Lemma digits2_pos_size p : digits2_pos p = Pos.size p.
Proof. induction p; simpl; congruence. Qed.

Lemma Zdigits2_bound m j : 0 <= m <= 2 ^ j -> 0 <= j -> Zdigits2 m <= j + 1.
Proof.
  intros [Hm Hmj] Hj. destruct m as [|p|p]; simpl; [lia| |lia].
  rewrite digits2_pos_size. pose proof (Pos.size_le p) as Hs.
  apply (Z.pow_le_mono_r_iff 2); [lia..|].
  assert (2 ^ Z.pos (Pos.size p) <= Z.pos p~0).
  { rewrite <- Pos2Z.inj_pow. apply Pos2Z.pos_le_pos. exact Hs. }
  rewrite Z.pow_add_r by lia. lia.
Qed.

Lemma shr_1_spec m r s :
  0 <= m -> shr_1 (Build_shr_record m r s) = Build_shr_record (m / 2) (Z.odd m) (r || s).
Proof.
  intros Hm. rewrite <- Z.div2_div. destruct m as [|[p|p|]|]; try reflexivity. lia.
Qed.

Lemma iter_pos_nat {A} (f : A -> A) p x : SpecFloat.iter_pos f p x = Nat.iter (Pos.to_nat p) f x.
Proof.
  revert x. induction p as [p IH|p IH|]; intros x; cbn [SpecFloat.iter_pos].
  - rewrite !IH, Pos2Nat.inj_xI.
    replace (S (2 * Pos.to_nat p))%nat with (Pos.to_nat p + (Pos.to_nat p + 1))%nat by lia.
    rewrite !Nat.iter_add. reflexivity.
  - rewrite !IH, Pos2Nat.inj_xO.
    replace (2 * Pos.to_nat p)%nat with (Pos.to_nat p + Pos.to_nat p)%nat by lia.
    rewrite Nat.iter_add. reflexivity.
  - reflexivity.
Qed.

Lemma shr_iter_spec k m r s :
  0 <= m ->
  let mrs := Nat.iter k shr_1 (Build_shr_record m r s) in
  shr_m mrs = m / 2 ^ Z.of_nat k
  /\ (m mod 2 ^ Z.of_nat k = 0 -> r = false -> s = false ->
      shr_r mrs = false /\ shr_s mrs = false).
Proof.
  intros Hm. induction k as [|k IH].
  - simpl. rewrite Z.div_1_r. auto.
  - cbn zeta in *. rewrite Nat2Z.inj_succ, Z.pow_succ_r by lia.
    rewrite Nat.iter_succ. destruct (Nat.iter k shr_1 _) as [mk rk sk]. cbn [shr_m shr_r shr_s] in IH.
    destruct IH as [Hmk Hex]. subst mk.
    assert (0 < 2 ^ Z.of_nat k) by (apply Z.pow_pos_nonneg; lia).
    assert (0 <= m / 2 ^ Z.of_nat k) by (apply Z.div_pos; lia).
    rewrite shr_1_spec by assumption. cbn [shr_m shr_r shr_s]. split.
    + rewrite Z.div_div by lia. f_equal. lia.
    + intros Hmod -> ->.
      assert (m mod 2 ^ Z.of_nat k = 0) as Hmodk.
      { rewrite Z.mul_comm in Hmod. rewrite Z.rem_mul_r in Hmod by lia.
        pose proof (Z.mod_pos_bound m (2 ^ Z.of_nat k)).
        pose proof (Z.mod_pos_bound (m / 2 ^ Z.of_nat k) 2). nia. }
      destruct (Hex Hmodk eq_refl eq_refl) as [-> ->]. split; [|reflexivity].
      rewrite Z.mul_comm in Hmod. rewrite Z.rem_mul_r in Hmod by lia.
      rewrite Hmodk in Hmod.
      assert ((m / 2 ^ Z.of_nat k) mod 2 = 0) as Hmod2.
      { pose proof (Z.mod_pos_bound (m / 2 ^ Z.of_nat k) 2). nia. }
      destruct (Z.odd (m / 2 ^ Z.of_nat k)) eqn:E; [|reflexivity].
      apply Z.odd_spec in E as [q Hq].
      pose proof (Z.div_mod (m / 2 ^ Z.of_nat k) 2). lia.
Qed.

Lemma shr_pos m r s e n :
  0 <= m -> 0 < n ->
  exists mrs,
    shr (Build_shr_record m r s) e n = (mrs, e + n)
    /\ shr_m mrs = m / 2 ^ n
    /\ (m mod 2 ^ n = 0 -> r = false -> s = false -> loc_of_shr_record mrs = loc_Exact).
Proof.
  intros Hm Hn. destruct n as [|p|p]; try lia. unfold shr. rewrite iter_pos_nat.
  pose proof (shr_iter_spec (Pos.to_nat p) m r s Hm) as Hspec. cbn zeta in Hspec.
  rewrite positive_nat_Z in Hspec. destruct Hspec as [Hshr Hex].
  eexists. split; [reflexivity|]. split; [exact Hshr|].
  intros Hmod Hr Hs. destruct (Hex Hmod Hr Hs) as [Hr' Hs'].
  destruct (Nat.iter _ _ _) as [m' r' s']. cbn in Hr', Hs'. subst. reflexivity.
Qed.

Lemma shr_nonpos mrs e n : n <= 0 -> shr mrs e n = (mrs, e).
Proof. intros Hn. destruct n as [|p|p]; try reflexivity. lia. Qed.

Lemma rne_up m l : m <= round_nearest_even m l <= up_mantissa m l.
Proof.
  destruct l as [ | [ | | ] ]; simpl; try lia. destruct (Z.even m); lia.
Qed.

Lemma loc_of_record_of m l : loc_of_shr_record (shr_record_of_loc m l) = l.
Proof. destruct l as [ | [ | | ] ]; reflexivity. Qed.

Lemma record_of_loc_m m l : shr_m (shr_record_of_loc m l) = m.
Proof. destruct l as [ | [ | | ] ]; reflexivity. Qed.

Lemma record_of_loc_exact m : shr_record_of_loc m loc_Exact = Build_shr_record m false false.
Proof. reflexivity. Qed.

(** The bound [up_mantissa m l * 2 ^ e <= 2 ^ K] is kept by [shr_fexp]. *)
Lemma shr_fexp_upper mx ex lx K :
  0 <= mx -> -1074 <= K -> ex <= K -> up_mantissa mx lx <= 2 ^ (K - ex) ->
  exists mrs e1,
    shr_fexp prec emax mx ex lx = (mrs, e1)
    /\ 0 <= shr_m mrs /\ e1 <= K
    /\ up_mantissa (shr_m mrs) (loc_of_shr_record mrs) <= 2 ^ (K - e1).
Proof.
  intros Hmx HK Hex Hup. unfold shr_fexp.
  set (n := fexp prec emax (Zdigits2 mx + ex) - ex).
  assert (mx <= up_mantissa mx lx) as Hle by (destruct lx; simpl; lia).
  destruct (Z.le_gt_cases n 0) as [Hn|Hn].
  - rewrite shr_nonpos by assumption. eexists _, _. split; [reflexivity|].
    rewrite loc_of_record_of, record_of_loc_m. auto.
  - assert (Zdigits2 mx <= K - ex + 1) as Hdig by (apply Zdigits2_bound; lia).
    assert (ex + n <= K) as He1.
    { unfold n, fexp, emin, prec, emax. lia. }
    clearbody n.
    assert (exists r s, shr_record_of_loc mx lx = Build_shr_record mx r s
                        /\ (r = false -> s = false -> lx = loc_Exact)) as (r & s & Hrec & Hl).
    { destruct lx as [ | [ | | ] ]; eexists _, _; (split; [reflexivity|]);
        intros; try reflexivity; discriminate. }
    rewrite Hrec. destruct (shr_pos mx r s ex n Hmx Hn) as (mrs & -> & Hm1 & Hexact).
    eexists _, _. split; [reflexivity|].
    assert (0 < 2 ^ n) as H2n by (apply Z.pow_pos_nonneg; lia).
    assert (2 ^ (K - ex) = 2 ^ (K - (ex + n)) * 2 ^ n) as Hsplit.
    { rewrite <- Z.pow_add_r by lia. f_equal. lia. }
    assert (0 < 2 ^ (K - (ex + n))) as HT by (apply Z.pow_pos_nonneg; lia).
    rewrite Hm1. split; [apply Z.div_pos; lia|]. split; [assumption|].
    destruct (loc_of_shr_record mrs) eqn:Hloc; cbn [up_mantissa].
    + apply Z.div_le_upper_bound; lia.
    + assert (mx < 2 ^ (K - (ex + n)) * 2 ^ n) as Hlt.
      { destruct lx as [|c'].
        - cbn in Hrec. injection Hrec as <- <-.
          destruct (Z.eq_dec (mx mod 2 ^ n) 0) as [Hmod|Hmod].
          + discriminate (Hexact Hmod eq_refl eq_refl).
          + assert (mx <> 2 ^ (K - (ex + n)) * 2 ^ n).
            { intros ->. apply Hmod. apply Z.mod_mul. lia. }
            cbn [up_mantissa] in Hup. lia.
        - cbn [up_mantissa] in Hup. lia. }
      assert (mx / 2 ^ n < 2 ^ (K - (ex + n))); [|lia].
      apply Z.div_lt_upper_bound; lia.
Qed.

Lemma binary_round_aux_upper sx mx ex lx K :
  0 <= mx -> -1074 <= K <= 971 -> ex <= K -> up_mantissa mx lx <= 2 ^ (K - ex) ->
  match binary_round_aux prec emax sx mx ex lx with
  | S754_zero s => s = sx
  | S754_finite s m e => s = sx /\ e <= K /\ Z.pos m <= 2 ^ (K - e)
  | _ => False
  end.
Proof.
  intros Hmx [HK HK'] Hex Hup. unfold binary_round_aux.
  destruct (shr_fexp_upper mx ex lx K Hmx HK Hex Hup) as (mrs1 & e1 & -> & Hm1 & He1 & Hup1).
  pose proof (rne_up (shr_m mrs1) (loc_of_shr_record mrs1)) as [Hr1 Hr2].
  destruct (shr_fexp_upper (round_nearest_even (shr_m mrs1) (loc_of_shr_record mrs1)) e1
              loc_Exact K) as (mrs2 & e2 & -> & Hm2 & He2 & Hup2); [lia..|cbn [up_mantissa]; lia|].
  assert (shr_m mrs2 <= 2 ^ (K - e2)) as Hle.
  { destruct (loc_of_shr_record mrs2); cbn [up_mantissa] in Hup2; lia. }
  destruct (shr_m mrs2) as [|m|m]; [reflexivity| |lia].
  destruct (Z.leb_spec e2 (emax - prec)) as [_|Hbig]; [auto|].
  unfold emax, prec in Hbig. lia.
Qed.

Lemma Zdigits2_gt p : Z.pos p < 2 ^ Z.pos (digits2_pos p).
Proof.
  rewrite digits2_pos_size. pose proof (Pos.size_gt p) as H.
  rewrite <- Pos2Z.inj_pow. apply Pos2Z.pos_lt_pos. exact H.
Qed.

Lemma bounded_canonical m e :
  bounded prec emax m e = true ->
  Z.max (Z.pos (digits2_pos m) + e - 53) (-1074) = e.
Proof.
  unfold bounded, canonical_mantissa, fexp, emin, prec, emax.
  intros [H _]%andb_prop. apply Z.eqb_eq in H. exact H.
Qed.

Lemma compare_cont_Eq m p : Pos.compare_cont Eq m p = Z.compare (Z.pos m) (Z.pos p).
Proof. reflexivity. Qed.

Lemma canonical_le_pow2 m e K :
  bounded prec emax m e = true -> -1022 <= K -> e <= K -> Z.pos m <= 2 ^ (K - e) ->
  e <= K - 52
  /\ SFleb (S754_finite false m e) (S754_finite false 4503599627370496 (K - 52)) = true.
Proof.
  intros Hb HK He Hm. pose proof (bounded_canonical m e Hb) as Hc.
  assert (e <= K - 52) as He'.
  { destruct (Z.le_gt_cases e (K - 52)) as [|Hgt]; [assumption|].
    assert (Zdigits2 (Z.pos m) <= K - e + 1) as Hd by (apply Zdigits2_bound; lia).
    cbn [Zdigits2] in Hd. lia. }
  split; [assumption|]. unfold SFleb, SFcompare.
  destruct (Z.compare_spec e (K - 52)) as [Heq|Hlt|Hgt]; [|reflexivity|lia].
  subst e. replace (K - (K - 52)) with 52 in Hm by lia.
  rewrite compare_cont_Eq.
  destruct (Z.compare_spec (Z.pos m) (Z.pos 4503599627370496)) as [_|_|Hgt];
    [reflexivity..|lia].
Qed.

(** A canonical positive float that compares below [2.0]. *)
Lemma SFleb_two_inv m e :
  bounded prec emax m e = true ->
  SFleb (S754_finite false m e) two_sf = true ->
  -1074 <= e <= -51 /\ Z.pos m <= 2 ^ (1 - e).
Proof.
  intros Hb Hle. pose proof (bounded_canonical m e Hb) as Hc.
  pose proof (Zdigits2_gt m) as Hd.
  assert (Z.pos m < 2 ^ 53) as Hm53.
  { eapply Z.lt_le_trans; [exact Hd|]. apply Z.pow_le_mono_r; lia. }
  unfold SFleb, SFcompare, two_sf in Hle.
  destruct (Z.compare_spec e (-51)) as [Heq|Hlt|Hgt]; [| |discriminate].
  - subst e. split; [lia|]. rewrite compare_cont_Eq in Hle.
    replace (1 - -51) with 52 by lia.
    destruct (Z.compare_spec (Z.pos m) (Z.pos 4503599627370496)) as [Hm|Hm|Hm];
      [lia..|discriminate].
  - split; [lia|]. eapply Z.le_trans; [apply Z.lt_le_incl; exact Hm53|].
    apply Z.pow_le_mono_r; lia.
Qed.

Lemma iter_xO m d : Z.pos (Pos.iter xO m d) = Z.pos m * 2 ^ Z.pos d.
Proof.
  induction d as [|d IH] using Pos.peano_ind.
  - simpl. lia.
  - rewrite Pos.iter_succ, Pos2Z.inj_succ, Z.pow_succ_r by lia.
    rewrite Pos2Z.inj_xO, IH. lia.
Qed.

Lemma shl_align_spec mx ex ex' :
  let '(mz, ez) := shl_align mx ex ex' in
  ez <= ex /\ Z.pos mz = Z.pos mx * 2 ^ (ex - ez) /\ (ex' <= ex -> ez = ex').
Proof.
  unfold shl_align. destruct (ex' - ex) as [|d|d] eqn:Hd.
  - rewrite Z.sub_diag. simpl. lia.
  - rewrite Z.sub_diag. simpl. lia.
  - rewrite iter_xO. replace (ex - ex') with (Z.pos d) by lia. lia.
Qed.

Lemma pow2_52 : Z.pos 4503599627370496 = 2 ^ 52.
Proof. reflexivity. Qed.

Lemma sub_two_finite m e :
  -1074 <= e <= -51 -> Z.pos m <= 2 ^ (1 - e) ->
  match SFsub prec emax two_sf (S754_finite false m e) with
  | S754_zero s => s = false
  | S754_finite s m' e' => s = false /\ e' <= 1 /\ Z.pos m' <= 2 ^ (1 - e')
  | _ => False
  end.
Proof.
  intros He Hm. unfold SFsub, two_sf. cbv zeta.
  replace (Z.min (-51) e) with e by lia.
  pose proof (shl_align_spec 4503599627370496 (-51) e) as H1.
  destruct (shl_align 4503599627370496 (-51) e) as [m1 e1].
  destruct H1 as (_ & Hm1 & He1). rewrite (He1 ltac:(lia)) in Hm1. clear He1.
  pose proof (shl_align_spec m e e) as H2.
  destruct (shl_align m e e) as [m2 e2].
  destruct H2 as (_ & Hm2 & He2). rewrite (He2 ltac:(lia)), Z.sub_diag in Hm2. clear He2.
  cbn [fst cond_Zopp].
  assert (Z.pos m1 = 2 ^ (1 - e)) as Hm1'.
  { rewrite Hm1, pow2_52, <- Z.pow_add_r by lia. f_equal. lia. }
  destruct (Z.pos m1 - Z.pos m2) as [|M|M] eqn:HM; cbn [binary_normalize].
  - reflexivity.
  - unfold binary_round.
    pose proof (shl_align_spec M e (fexp prec emax (Z.pos (digits2_pos M) + e))) as H3.
    destruct (shl_align M e (fexp prec emax (Z.pos (digits2_pos M) + e))) as [mz ez].
    destruct H3 as (Hez & Hmz & _).
    apply (binary_round_aux_upper false (Z.pos mz) ez loc_Exact 1); [lia|lia|lia|].
    cbn [up_mantissa]. rewrite Hmz. replace (1 - ez) with ((1 - e) + (e - ez)) by lia.
    rewrite Z.pow_add_r by lia.
    apply Z.mul_le_mono_nonneg_r; [apply Z.pow_nonneg; lia|lia].
  - lia.
Qed.

Lemma div_core_two m e :
  e <= -51 -> Z.pos m <= 2 ^ (1 - e) ->
  let '(q, e', l) := SFdiv_core_binary prec emax (Z.pos m) e (Z.pos 4503599627370496) (-51) in
  0 <= q /\ e' <= 0 /\ up_mantissa q l <= 2 ^ (0 - e').
Proof.
  intros He Hm. unfold SFdiv_core_binary. cbv zeta.
  remember (Z.min (fexp prec emax (Zdigits2 (Z.pos m) + e
              - (Zdigits2 (Z.pos 4503599627370496) + -51))) (e - -51)) as e' eqn:He'.
  assert (e' <= e + 51) as Hle by lia. clear He'.
  remember (e - -51 - e') as s eqn:Hs.
  assert (match s with Z.pos _ => Z.shiftl (Z.pos m) s | 0 => Z.pos m | Z.neg _ => 0 end
          = Z.pos m * 2 ^ s) as ->.
  { destruct s as [|p|p]; [lia|apply Z.shiftl_mul_pow2; lia|lia]. }
  assert (Z.pos m * 2 ^ s <= Z.pos 4503599627370496 * 2 ^ (0 - e')) as Hb.
  { rewrite pow2_52, <- Z.pow_add_r by lia. replace (52 + (0 - e')) with ((1 - e) + s) by lia.
    rewrite Z.pow_add_r by lia. apply Z.mul_le_mono_nonneg_r; [apply Z.pow_nonneg; lia|lia]. }
  assert (0 <= Z.pos m * 2 ^ s) as Hnn by (apply Z.mul_nonneg_nonneg; [lia|apply Z.pow_nonneg; lia]).
  unfold new_location. change (Z.even (Z.pos 4503599627370496)) with true. cbv iota.
  unfold new_location_even.
  generalize dependent (Z.pos m * 2 ^ s). intros a Ha Hnn.
  assert (Z.pos 4503599627370496 > 0) as HB by reflexivity.
  generalize dependent (Z.pos 4503599627370496). intros B Ha HB.
  pose proof (Z_div_mod a B HB) as Hdm. destruct (Z.div_eucl a B) as [q r].
  destruct Hdm as [Hq Hr].
  generalize dependent (2 ^ (0 - e')). intros P HP.
  split; [nia|]. split; [lia|].
  destruct (Z.eqb_spec r 0); cbn [up_mantissa]; nia.
Qed.

Lemma div_two_finite m e :
  e <= -51 -> Z.pos m <= 2 ^ (1 - e) ->
  match SFdiv prec emax (S754_finite false m e) two_sf with
  | S754_zero s => s = false
  | S754_finite s m' e' => s = false /\ e' <= 0 /\ Z.pos m' <= 2 ^ (0 - e')
  | _ => False
  end.
Proof.
  intros He Hm. unfold SFdiv, two_sf.
  pose proof (div_core_two m e He Hm) as H.
  destruct (SFdiv_core_binary prec emax (Z.pos m) e (Z.pos 4503599627370496) (-51))
    as [[q e'] l].
  destruct H as (Hq & He' & Hup). change (xorb false false) with false.
  apply (binary_round_aux_upper false q e' l 0); [lia|lia|lia|exact Hup].
Qed.

Lemma Prim2SF_0 : Prim2SF 0 = S754_zero false.
Proof. reflexivity. Qed.
Lemma Prim2SF_1 : Prim2SF 1 = one_sf.
Proof. reflexivity. Qed.
Lemma Prim2SF_2 : Prim2SF 2 = two_sf.
Proof. reflexivity. Qed.

Lemma div_two_two : SFdiv prec emax two_sf two_sf = one_sf.
Proof. vm_compute. reflexivity. Qed.

(** The transform on the specification level: for a canonical [d] with
    [0 <= d <= 2] the result of [(2 - d) / 2] lies between 0 and 1. *)
Lemma SF_score_range d :
  valid_binary d = true ->
  valid_binary (SF64sub two_sf d) = true ->
  SFleb (S754_zero false) d = true -> SFleb d two_sf = true ->
  SFleb (S754_zero false) (SF64div (SF64sub two_sf d) two_sf) = true
  /\ (valid_binary (SF64div (SF64sub two_sf d) two_sf) = true ->
      SFleb (SF64div (SF64sub two_sf d) two_sf) one_sf = true).
Proof.
  unfold SF64div, SF64sub, valid_binary.
  intros Vd Vr H0 H2. destruct d as [s|s| |s m e].
  - cbn [SFsub two_sf]. fold two_sf. rewrite div_two_two. split; reflexivity.
  - destruct s; discriminate.
  - discriminate.
  - destruct s; [discriminate|]. cbn [SpecFloat.valid_binary] in Vd.
    destruct (SFleb_two_inv m e Vd H2) as [He Hm].
    pose proof (sub_two_finite m e He Hm) as Hr.
    destruct (SFsub prec emax two_sf (S754_finite false m e)) as [sr|sr| |sr mr er];
      [subst sr; split; reflexivity|contradiction|contradiction|].
    destruct Hr as (-> & Her & Hmr). cbn [SpecFloat.valid_binary] in Vr.
    destruct (canonical_le_pow2 mr er 1 Vr ltac:(lia) Her Hmr) as [Her' _].
    pose proof (div_two_finite mr er ltac:(lia) Hmr) as Hf.
    destruct (SFdiv prec emax (S754_finite false mr er) two_sf) as [sf|sf| |sf mf ef];
      [subst sf; split; reflexivity|contradiction|contradiction|].
    destruct Hf as (-> & Hef & Hmf). split; [reflexivity|].
    cbn [SpecFloat.valid_binary]. intros Vf.
    exact (proj2 (canonical_le_pow2 mf ef 0 Vf ltac:(lia) Hef Hmf)).
Qed.

(** The transform on primitive floats: for [0 <= d <= 2] the float
    [(2 - d) / 2] lies between 0 and 1. *)
Lemma score_range d :
  (0 <=? d)%float = true -> (d <=? 2)%float = true ->
  (0 <=? score (Some d))%float = true /\ (score (Some d) <=? 1)%float = true.
Proof.
  intros H0 H2. rewrite leb_spec, Prim2SF_0 in H0. rewrite leb_spec, Prim2SF_2 in H2.
  pose proof (Prim2SF_valid d) as Vd.
  pose proof (Prim2SF_valid (2 - d)) as Vr.
  pose proof (Prim2SF_valid (score (Some d))) as Vf.
  unfold score in *. cbn [default] in *.
  rewrite !leb_spec, Prim2SF_0, Prim2SF_1.
  rewrite div_spec, sub_spec, Prim2SF_2 in *.
  destruct (SF_score_range (Prim2SF d) Vd Vr H0 H2) as [Ha Hb]. auto.
Qed.

Lemma format_result_score raw : res_score (format_result raw) = score (raw_distance raw).
Proof. unfold format_result. by destruct (raw_metadata raw). Qed.

Lemma format_result_spec raw : score_spec raw (format_result raw).
Proof.
  split; [apply format_result_score|]. intros d Hd.
  rewrite format_result_score, Hd. split; [reflexivity|].
  split; [by intros ->|]. split; [by intros ->|]. apply score_range.
Qed.

(** C8 (score transform).  Every result of [search] carries the score
    [(2 - d) / 2] of the raw result it was made from, computed in binary64
    as the source does, with [d] the raw distance (0 when the raw result has
    none): [d = 0] gives the score 1.0, [d = 2] gives 0.0, and for every
    float [d] with [0 <= d <= 2] the score lies between 0 and 1. *)
Theorem search_score_transform query k s rs :
  search query k s = Ok rs ->
  exists q,
    embed [query] !! 0%nat = Some q
    /\ Forall2 score_spec (db_search (db s) q k) rs.
Proof.
  unfold search. destruct (embed [query] !! 0%nat) as [q|]; [|discriminate].
  intros [= <-]. exists q. split; [reflexivity|].
  induction (db_search (db s) q k) as [|raw raws IH]; cbn [map]; constructor;
    [apply format_result_spec|exact IH].
Qed.

(** ** What [index] does beyond the claims *)

Lemma make_items_Raise j batch embeddings x :
  make_items j batch embeddings = Raise x ->
  x = IndexError /\ (length embeddings < j + length batch)%nat.
Proof.
  revert j. induction batch as [|bi batch IH]; intros j; simpl; [done|].
  destruct (embeddings !! j) as [e|] eqn:He.
  - destruct (make_items (S j) batch embeddings) as [items|y] eqn:Hm; [done|].
    intros [= ->]. destruct (IH _ Hm) as [-> Hlen]. split; [done|lia].
  - intros [= <-]. apply lookup_ge_None in He. split; [done|lia].
Qed.

Lemma embed_batches_Raise all_blocks bs starts d n x d' :
  embed_batches all_blocks bs starts d n = (Raise x, d') ->
  x = IndexError /\ exists texts, (length (embed texts) < length texts)%nat.
Proof.
  revert d n. induction starts as [|i starts IH]; intros d n; simpl; [done|].
  destruct (make_items 0 _ _) as [items|y] eqn:Hm; [apply IH|].
  intros [= -> <-]. apply make_items_Raise in Hm as [-> Hlen].
  split; [done|]. exists (map bi_text (take bs (drop i all_blocks))).
  rewrite length_map. exact Hlen.
Qed.

Lemma embed_batches_frame all_blocks bs starts d n r d' id :
  embed_batches all_blocks bs starts d n = (r, d') ->
  (forall bi, bi ∈ all_blocks -> bi_id bi <> id) ->
  d' !! id = d !! id.
Proof.
  intros Hrun Hid. revert d n Hrun.
  induction starts as [|i starts IH]; intros d n; simpl; [by intros [= _ <-]|].
  destruct (make_items 0 _ _) as [items|y] eqn:Hm; [|by intros [= _ <-]].
  intros Hrun. rewrite (IH _ _ Hrun). apply db_set_lookup_notin.
  apply make_items_inv in Hm as [Hkeys _]. rewrite Hkeys.
  intros (bi & Heq & Hin)%list_elem_of_fmap.
  apply (Hid bi); [|done]. by apply subseteq_take, subseteq_drop in Hin.
Qed.

Lemma range_from_0_Raise total step x :
  range_from_0 total step = Raise x -> x = ValueError /\ step = 0.
Proof.
  unfold range_from_0. destruct (decide (step = 0)) as [->|]; [by intros [= <-]|].
  by destruct (decide (step < 0)).
Qed.

Lemma range_from_0_neg total step : step < 0 -> range_from_0 total step = Ok [].
Proof.
  intros Hneg. unfold range_from_0. rewrite decide_False by lia. by rewrite decide_True.
Qed.

(** X1 (the manifest round trip).  A manifest that [_load_manifest] returned
    can be written with [_save_manifest] and is read back as it was: the
    migration of legacy entries is done once and for all.  Saving touches
    the manifest file only, and makes the root indexed. *)
Theorem load_save_load s m s0 :
  _load_manifest s = Ok m -> disk_wf s ->
  _load_manifest (_save_manifest m s0) = Ok m
  /\ db (_save_manifest m s0) = db s0
  /\ is_indexed (_save_manifest m s0) = true.
Proof.
  intros Hload Hdisk. destruct (load_Ok s m Hload Hdisk) as [Hwf Hv2].
  split; [by apply load_saved|done].
Qed.

(** X2 (a failed [index] writes no manifest).  The manifest is written by
    the last step of [index] only: when [index] raises, the manifest file
    is as it was before the call and nothing was saved, so that the
    manifest loads as before and the same files are stale as before. *)
Theorem index_raise_keeps_manifest fs batch_size s x s' :
  index fs batch_size s = (Raise x, s') ->
  manifest_file s' = manifest_file s /\ saved s' = saved s
  /\ _load_manifest s' = _load_manifest s
  /\ forall fs', get_stale_files fs' s' = get_stale_files fs' s.
Proof.
  intros Hrun.
  assert (manifest_file s' = manifest_file s /\ saved s' = saved s) as [Hfile Hsaved].
  { revert Hrun. unfold index. destruct (_load_manifest s) as [m|y] eqn:Hload.
    - destruct (sc_all_blocks (scan m fs (db s))) as [|bi all]; [done|].
      destruct (range_from_0 _ batch_size) as [starts|y] eqn:Hr.
      + destruct (embed_batches _ _ _ _ _) as [[n'|y] d'] eqn:Hb; [done|].
        by intros [= _ <-].
      + by intros [= _ <-].
    - by intros [= _ <-]. }
  assert (_load_manifest s' = _load_manifest s) as Hload
    by (unfold _load_manifest; by rewrite Hfile).
  split_and!; [done..|]. intros fs'. unfold get_stale_files. by rewrite Hload.
Qed.

(** X3 (batch size 0).  With the batch size 0 and at least one block to
    embed, [index] raises [ValueError] after it has deleted the old vectors
    of the files that changed: the manifest still lists them. *)
Theorem index_zero_batch_size fs s m :
  _load_manifest s = Ok m -> Dict.wf fs -> staged (files m) fs <> [] ->
  index fs 0 s
  = (Raise ValueError,
     mkState (db_delete (old_ids (files m) fs) (db s)) (manifest_file s) (saved s)).
Proof.
  intros Hload Hwf Hst. unfold index. rewrite Hload, scan_eq by done. simpl.
  by destruct (staged (files m) fs).
Qed.

(** X4 (negative batch size).  With a negative batch size and at least one
    block to embed, [range] is empty: [index] returns with [blocks] = 0 and
    stores no vector (the store is what the deletion of the old ids left),
    yet it saves the manifest with the new entries of the files it read.
    The entry of its file then lists the id of every block that was to be
    embedded, and the store holds such an id only if it held it before the
    call. *)
Theorem index_negative_batch_size fs batch_size s m :
  _load_manifest s = Ok m -> disk_wf s -> Dict.wf fs -> batch_size < 0 ->
  staged (files m) fs <> [] ->
  exists s' m',
    index fs batch_size s
    = (Ok (mkStats (n_indexed (files m) fs) 0 (n_skipped (files m) fs)
             (Some (n_failed (files m) fs)) (length (old_ids (files m) fs))),
       s')
    /\ s' = _save_manifest (mkManifest (merge_entries (pending (files m) fs) (files m)))
              (mkState (db_delete (old_ids (files m) fs) (db s)) (manifest_file s) (saved s))
    /\ db s' = db_delete (old_ids (files m) fs) (db s)
    /\ _load_manifest s' = Ok m'
    /\ files m' = merge_entries (pending (files m) fs) (files m)
    /\ forall bi, bi ∈ staged (files m) fs ->
         (exists h ids,
            Dict.get (bi_file bi) (files m') = Some (Entry h ids) /\ bi_id bi ∈ ids)
         /\ (db s !! bi_id bi = None -> db s' !! bi_id bi = None).
Proof.
  intros Hload Hdisk Hwf Hneg Hst. destruct (load_Ok _ _ Hload Hdisk) as [Hwfm Hv2].
  eexists _, (mkManifest (merge_entries (pending (files m) fs) (files m))).
  split_and!; [| reflexivity | reflexivity | | reflexivity |].
  - unfold index. rewrite Hload, scan_eq by done. simpl.
    destruct (staged (files m) fs) as [|bi all]; [done|].
    by rewrite range_from_0_neg.
  - apply load_saved; cbn [files]; [by apply wf_merge_entries|].
    by apply v2_only_merge_entries; [apply v2_only_pending|].
  - intros bi Hbi. split.
    + destruct (staged_inv _ _ _ Hwf Hbi) as (c & blocks & b & _ & _ & _ & Hb & Hid & Hget).
      exists (content_hash c), (map (block_id (bi_file bi)) blocks). cbn [files]. split.
      * rewrite get_merge_entries by by apply wf_pending. by rewrite Hget.
      * rewrite Hid. apply list_elem_of_fmap. by exists b.
    + intros Hnone. cbn [_save_manifest db]. rewrite db_delete_lookup. by case_decide.
Qed.

Lemma stored_dom d0 all_blocks d' id :
  stored d0 all_blocks d' ->
  is_Some (d' !! id) <-> is_Some (d0 !! id) \/ exists bi, bi ∈ all_blocks /\ bi_id bi = id.
Proof.
  intros [Hlook Hall]. split.
  - intros Hsome. destruct (Hlook id) as [Heq|(bi & e & Hbi & Hid & _)].
    + left. by rewrite <- Heq.
    + right. by exists bi.
  - intros [Hsome|(bi & Hbi & <-)].
    + destruct (Hlook id) as [Heq|(bi & e & _ & _ & Heq)]; [by rewrite Heq|by rewrite Heq].
    + destruct (Hall bi Hbi) as (bi' & e & _ & _ & Heq). by rewrite Heq.
Qed.

Lemma keys_set_prefix {V} (d : dict V) k v : Dict.keys d `prefix_of` Dict.keys (Dict.set k v d).
Proof.
  destruct (decide (k ∈ Dict.keys d)) as [Hin|Hnot].
  - by rewrite keys_set_in.
  - rewrite set_fresh by done. unfold Dict.keys. rewrite fmap_app. by apply prefix_app_r.
Qed.

Lemma keys_merge_entries_prefix ftu mf :
  Dict.keys mf `prefix_of` Dict.keys (merge_entries ftu mf).
Proof.
  unfold merge_entries. revert mf. induction ftu as [|[k v] ftu IH]; intros mf; [done|].
  simpl. etrans; [apply (keys_set_prefix mf k v)|apply IH].
Qed.

Lemma keys_merge_entries ftu mf q :
  q ∈ Dict.keys (merge_entries ftu mf) -> q ∈ Dict.keys mf \/ q ∈ Dict.keys ftu.
Proof.
  unfold merge_entries. revert mf. induction ftu as [|[k v] ftu IH]; intros mf; [by left|].
  simpl. intros [Hin|Hin]%IH.
  - destruct (decide (k ∈ Dict.keys mf)) as [Hk|Hk].
    + rewrite keys_set_in in Hin by done. by left.
    + rewrite set_fresh in Hin by done. unfold Dict.keys in Hin. rewrite fmap_app in Hin.
      apply elem_of_app in Hin as [Hin|Hin]; [by left|].
      right. apply list_elem_of_singleton in Hin as ->. left.
  - right. by right.
Qed.

Lemma pending_keys mf fs q : q ∈ Dict.keys (pending mf fs) -> q ∈ Dict.keys fs.
Proof.
  intros Hin. eapply elem_of_sublist; [exact Hin|]. apply pending_keys_sublist.
Qed.

(** X5 (the batch size does not matter).  With an embedder that returns a
    row per text, two positive batch sizes give the same stats, the same
    manifest and the same ids in the store. *)
Theorem index_batch_size_irrelevant fs b1 b2 s m :
  (forall texts, length (embed texts) = length texts) ->
  _load_manifest s = Ok m -> disk_wf s -> Dict.wf fs -> 0 < b1 -> 0 < b2 ->
  exists st s1 s2 m',
    index fs b1 s = (Ok st, s1) /\ index fs b2 s = (Ok st, s2)
    /\ _load_manifest s1 = Ok m' /\ _load_manifest s2 = Ok m'
    /\ saved s1 = saved s2
    /\ forall id, is_Some (db s1 !! id) <-> is_Some (db s2 !! id).
Proof.
  intros Hembed Hload Hdisk Hwf H1 H2.
  destruct (index_post fs b1 s m Hembed Hwf H1 Hload Hdisk)
    as (s1 & m1 & Hrun1 & Hst1 & Hl1 & _ & Hm1).
  destruct (index_post fs b2 s m Hembed Hwf H2 Hload Hdisk)
    as (s2 & m2 & Hrun2 & Hst2 & Hl2 & _ & Hm2).
  eexists _, s1, s2, m1. split; [exact Hrun1|]. split; [exact Hrun2|].
  assert (m2 = m1 /\ saved s1 = saved s2) as [-> Hsaved].
  { destruct Hm1 as [(Hnil & -> & ->)|(Hne & -> & ->)],
      Hm2 as [(Hnil' & -> & ->)|(Hne' & -> & ->)]; done. }
  split; [done|]. split; [done|]. split; [done|].
  intros id. by rewrite (stored_dom _ _ _ id Hst1), (stored_dom _ _ _ id Hst2).
Qed.

(** X6 (the stats of [index]).  When [index] returns, every file of the
    call is counted once, as indexed, skipped or failed; [deleted] is the
    number of ids that were recorded for the files that are not skipped;
    [blocks] is the number of blocks that were extracted, for a positive
    batch size, and 0 otherwise. *)
Theorem index_stats fs batch_size s st s' m :
  _load_manifest s = Ok m -> Dict.wf fs ->
  index fs batch_size s = (Ok st, s') ->
  stat_files st = n_indexed (files m) fs
  /\ stat_skipped st = n_skipped (files m) fs
  /\ stat_errors st = Some (n_failed (files m) fs)
  /\ (stat_files st + stat_skipped st + n_failed (files m) fs = length fs)%nat
  /\ stat_deleted st = length (old_ids (files m) fs)
  /\ stat_blocks st
     = (if decide (0 < batch_size) then length (staged (files m) fs) else 0%nat).
Proof.
  intros Hload Hwf Hrun.
  destruct (index_Ok fs batch_size s st s' Hwf Hrun) as (m0 & Hload0 & Hcases).
  assert (m0 = m) as -> by congruence. cbn zeta in Hcases.
  pose proof (n_partition (files m) fs) as Hpart.
  destruct Hcases as [(Hnil & -> & _)|(Hne & n' & d' & starts & Hr & Hb & -> & _)];
    cbn [stat_files stat_skipped stat_errors stat_deleted stat_blocks].
  - rewrite Hnil. split_and!; [done..|lia|done|by case_decide].
  - split_and!; [done..|lia|done|]. case_decide as Hpos.
    + by destruct (embed_batches_stored_all _ _ _ _ _ _ _ Hr Hpos Hb) as [_ ->].
    + apply embed_batches_count in Hb as ->.
      destruct (decide (batch_size = 0)) as [->|Hnz].
      * unfold range_from_0 in Hr. by rewrite decide_True in Hr.
      * rewrite range_from_0_neg in Hr by lia. by injection Hr as <-.
Qed.

(** X7 ([index] keeps the entries of the manifest).  After [index] the
    manifest has the paths it had, in the order they had, followed by new
    paths of the file set; the entry of a path outside the file set is as
    it was. *)
Theorem index_keeps_entries fs batch_size s st s' m :
  _load_manifest s = Ok m -> disk_wf s -> Dict.wf fs ->
  index fs batch_size s = (Ok st, s') ->
  exists m',
    _load_manifest s' = Ok m'
    /\ Dict.keys (files m) `prefix_of` Dict.keys (files m')
    /\ (forall q, q ∈ Dict.keys (files m') -> q ∈ Dict.keys (files m) \/ q ∈ Dict.keys fs)
    /\ (forall q, q ∉ Dict.keys fs -> Dict.get q (files m') = Dict.get q (files m)).
Proof.
  intros Hload Hdisk Hwf Hrun.
  destruct (index_Ok fs batch_size s st s' Hwf Hrun) as (m0 & Hload0 & Hcases).
  assert (m0 = m) as -> by congruence. cbn zeta in Hcases.
  destruct (load_Ok s m Hload Hdisk) as [Hwfm Hv2].
  destruct Hcases as [(_ & _ & ->)|(_ & n' & d' & starts & _ & _ & _ & ->)].
  - exists m. split; [exact Hload|]. split; [done|]. split; [by left|done].
  - eexists. split.
    { apply load_saved; cbn [files];
        [by apply wf_merge_entries|apply v2_only_merge_entries; [apply v2_only_pending|done]]. }
    cbn [files]. split; [apply keys_merge_entries_prefix|]. split.
    + intros q [Hq|Hq%pending_keys]%keys_merge_entries; [by left|by right].
    + intros q Hq. rewrite get_merge_entries by by apply wf_pending.
      destruct (Dict.get q (pending (files m) fs)) as [e|] eqn:Hget; [|done].
      by apply get_Some_key, pending_keys in Hget.
Qed.

(** X8 (the vectors [index] leaves alone).  When the manifest loads,
    whatever the outcome of [index], a vector whose id is neither recorded for a file that is read
    again nor the id of a block that is staged is in the store as it was. *)
Theorem index_store_frame fs batch_size s r s' m id :
  _load_manifest s = Ok m -> Dict.wf fs ->
  index fs batch_size s = (r, s') ->
  id ∉ old_ids (files m) fs ->
  (forall bi, bi ∈ staged (files m) fs -> bi_id bi <> id) ->
  db s' !! id = db s !! id.
Proof.
  intros Hload Hwf Hrun Hold Hnew. unfold index in Hrun.
  rewrite Hload, scan_eq in Hrun by done. simpl in Hrun.
  destruct (staged (files m) fs) as [|bi all] eqn:Hall.
  { injection Hrun as _ <-. by apply db_delete_lookup_notin. }
  destruct (range_from_0 _ batch_size) as [starts|y].
  2:{ injection Hrun as _ <-. by apply db_delete_lookup_notin. }
  destruct (embed_batches _ _ _ _ _) as [[n'|y] d'] eqn:Hb; injection Hrun as _ <-;
    cbn [db _save_manifest];
    rewrite (embed_batches_frame _ _ _ _ _ _ _ id Hb Hnew);
    by apply db_delete_lookup_notin.
Qed.

(** ** Batches, block ids and fingerprints *)

(** X9 (the batches).  For a positive batch size the batches that [index]
    embeds are the consecutive slices of the staged blocks that start at the
    multiples of the batch size: none is empty, none is longer than the
    batch size, and together they are the staged blocks, each once and in
    order. *)
Theorem batches_partition {A} (l : list A) (step : Z) starts :
  range_from_0 (length l) step = Ok starts -> 0 < step ->
  concat (map (fun i => take (Z.to_nat step) (drop i l)) starts) = l
  /\ (forall k i, starts !! k = Some i -> i = (k * Z.to_nat step)%nat)
  /\ Forall (fun i => (0 < length (take (Z.to_nat step) (drop i l)) <= Z.to_nat step)%nat)
       starts.
Proof.
  intros Hr Hpos. split; [by eapply range_from_0_covers|].
  unfold range_from_0 in Hr. rewrite !decide_False in Hr by lia. injection Hr as <-.
  set (n := Z.to_nat step). assert (0 < n)%nat as Hn by lia.
  split.
  - intros k i Hk. apply list_lookup_fmap_Some in Hk as (k' & -> & Hk).
    apply lookup_seq in Hk as [-> _]. done.
  - apply Forall_forall. intros i (k & -> & Hk)%list_elem_of_fmap.
    apply elem_of_seq in Hk as [_ Hk]. rewrite length_take, length_drop.
    pose proof (Nat.div_mod_eq (length l + n - 1) n).
    pose proof (Nat.mod_upper_bound (length l + n - 1) n). nia.
Qed.

Lemma pretty_N_go_no_colon x s : no_colon s -> no_colon (pretty_N_go x s).
Proof.
  revert s. induction (N.lt_wf_0 x) as [x _ IH]; intros s Hs.
  assert (x = 0 \/ 0 < x)%N as [->|Hx] by lia; [by rewrite pretty_N_go_0|].
  rewrite pretty_N_go_step by done. apply IH; [by apply N.div_lt|].
  unfold no_colon in *. cbn [list_ascii_of_string].
  intros [Hc|Hin]%elem_of_cons; [|done].
  revert Hc. unfold pretty_N_char. by repeat case_match.
Qed.

Lemma pretty_Z_no_colon (z : Z) : no_colon (pretty z).
Proof.
  assert (forall x : positive, no_colon (pretty x)) as Hpos.
  { intros x. unfold pretty, pretty_positive, pretty, pretty_N.
    rewrite decide_False by done. apply pretty_N_go_no_colon.
    unfold no_colon. apply not_elem_of_nil. }
  destruct z as [|x|x]; unfold pretty, pretty_Z.
  - unfold no_colon. cbn. by intros [?|?%elem_of_nil]%elem_of_cons.
  - apply Hpos.
  - unfold no_colon. cbn [String.append list_ascii_of_string].
    intros [?|Hin]%elem_of_cons; [done|]. by apply (Hpos x).
Qed.

Lemma split_at_colon a b r1 r2 :
  no_colon a -> no_colon b -> a +:+ ":" +:+ r1 = b +:+ ":" +:+ r2 -> a = b /\ r1 = r2.
Proof.
  unfold no_colon. revert b. induction a as [|c a IH]; intros [|c' b] Ha Hb Heq; simpl in *.
  - injection Heq as Heq. split; [done|exact Heq].
  - injection Heq as <- _. destruct Hb. left.
  - injection Heq as -> _. destruct Ha. left.
  - injection Heq as -> Heq. destruct (IH b) as [-> ->]; [| |done|done].
    + intros Hin. apply Ha. by right.
    + intros Hin. apply Hb. by right.
Qed.

(** X10 (block ids).  For paths without [":"], two blocks get the same id
    only when they are blocks of the same path that start on the same line
    and have the same name. *)
Theorem block_id_inj p q b b' :
  no_colon p -> no_colon q -> block_id p b = block_id q b' ->
  p = q /\ block_start_line b = block_start_line b' /\ block_name b = block_name b'.
Proof.
  unfold block_id. intros Hp Hq Heq.
  apply split_at_colon in Heq as [-> Heq]; [|done..]. split; [done|].
  apply split_at_colon in Heq as [Hline ->]; [|apply pretty_Z_no_colon..].
  split; [|done]. by apply (inj pretty).
Qed.

Lemma round_length s kw : length s = 8%nat -> length (SHA256.round s kw) = 8%nat.
Proof. do 9 (destruct s as [|? s]; try done). Qed.

Lemma rounds_length kws s :
  length s = 8%nat -> length (fold_left SHA256.round kws s) = 8%nat.
Proof.
  revert s. induction kws as [|kw kws IH]; intros s Hs; [done|].
  simpl. by apply IH, round_length.
Qed.

Lemma compress_length h block : length h = 8%nat -> length (SHA256.compress h block) = 8%nat.
Proof.
  intros Hh. unfold SHA256.compress. rewrite length_zip_with, rounds_length by done. lia.
Qed.

Lemma digest_length msg : length (SHA256.digest msg) = 8%nat.
Proof.
  unfold SHA256.digest. generalize (SHA256.blocks (length (SHA256.pad msg) / 64) (SHA256.pad msg)).
  assert (length SHA256.H0 = 8%nat) as Hh by done. revert Hh. generalize SHA256.H0.
  intros h Hh l. revert h Hh. induction l as [|b l IH]; intros h Hh; [done|].
  simpl. by apply IH, compress_length.
Qed.

Lemma hex_digit_hex d :
  0 <= d < 16 -> SHA256.hex_digit d ∈ list_ascii_of_string "0123456789abcdef".
Proof.
  intros Hd.
  assert (d = 0 \/ d = 1 \/ d = 2 \/ d = 3 \/ d = 4 \/ d = 5 \/ d = 6 \/ d = 7 \/ d = 8
          \/ d = 9 \/ d = 10 \/ d = 11 \/ d = 12 \/ d = 13 \/ d = 14 \/ d = 15) as Hcases by lia.
  repeat (destruct Hcases as [->|Hcases]); [..|subst d];
    vm_compute; repeat (first [by left|right]).
Qed.

Lemma hex_word_shape x :
  exists c0 c1 c2 c3 c4 c5 c6 c7,
    SHA256.hex_word x
    = String c0 (String c1 (String c2 (String c3 (String c4 (String c5 (String c6
        (String c7 EmptyString)))))))
    /\ Forall (fun c => c ∈ list_ascii_of_string "0123456789abcdef")
         [c0; c1; c2; c3; c4; c5; c6; c7].
Proof.
  unfold SHA256.hex_word. cbn [seq fold_right].
  eexists _, _, _, _, _, _, _, _. split; [reflexivity|].
  repeat (apply List.Forall_cons; [apply hex_digit_hex, Z.mod_pos_bound; lia|]).
  apply List.Forall_nil.
Qed.

Lemma substring_app a b : substring 0 (String.length a) (a +:+ b) = a.
Proof.
  induction a as [|c a IH]; cbn [String.length]; [by destruct b|].
  change (String c a +:+ b) with (String c (a +:+ b)). cbn [substring]. by rewrite IH.
Qed.

(** X11 (the fingerprint).  The fingerprint of a file is made of 16
    characters, each a digit or a letter from [a] to [f]. *)
Theorem content_hash_hex content :
  String.length (content_hash content) = 16%nat
  /\ Forall (fun c => c ∈ list_ascii_of_string "0123456789abcdef")
       (list_ascii_of_string (content_hash content)).
Proof.
  with_strategy transparent [content_hash] (unfold content_hash).
  unfold SHA256.hexdigest.
  pose proof (digest_length (SHA256.encode content)) as Hlen.
  destruct (SHA256.digest (SHA256.encode content)) as [|w0 [|w1 ws]]; [done..|].
  cbn [fold_right].
  destruct (hex_word_shape w0) as (a0 & a1 & a2 & a3 & a4 & a5 & a6 & a7 & -> & Ha).
  destruct (hex_word_shape w1) as (b0 & b1 & b2 & b3 & b4 & b5 & b6 & b7 & -> & Hb).
  set (tail := fold_right _ _ ws).
  set (hash := String a0 (String a1 (String a2 (String a3 (String a4 (String a5 (String a6
                 (String a7 (String b0 (String b1 (String b2 (String b3 (String b4
                 (String b5 (String b6 (String b7 EmptyString)))))))))))))))).
  set (wa := String a0 _). set (wb := String b0 _).
  assert (substring 0 16 (wa +:+ wb +:+ tail) = hash) as ->
    by exact (substring_app hash tail).
  split; [done|].
  apply Forall_app with (l1 := [a0; a1; a2; a3; a4; a5; a6; a7]). by split.
Qed.

(** ** [update] beyond the claims *)

Lemma index_Ok_errors fs batch_size s st s' :
  Dict.wf fs -> index fs batch_size s = (Ok st, s') -> is_Some (stat_errors st).
Proof.
  intros Hwf Hrun. destruct (index_Ok _ _ _ _ _ Hwf Hrun) as (m & _ & Hcases).
  cbn zeta in Hcases.
  destruct Hcases as [(_ & -> & _)|(_ & n' & d' & starts & _ & _ & -> & _)]; by eexists.
Qed.

Lemma wf_stale_changed mf fs : Dict.wf fs -> Dict.wf (stale_changed mf fs).
Proof. intros Hwf. unfold stale_changed. by apply wf_filter. Qed.

(** The two ways [update] returns. *)
Lemma update_Ok fs s m st s' :
  _load_manifest s = Ok m -> disk_wf s -> Dict.wf fs ->
  update fs s = (Ok st, s') ->
  (stale_changed (files m) fs = [] /\ stale_deleted (files m) fs = []
   /\ st = mkStats 0 0 (length fs) None 0 /\ s' = s)
  \/ ((stale_changed (files m) fs <> [] \/ stale_deleted (files m) fs <> [])
      /\ exists stats,
           index (stale_changed (files m) fs) 128
             (after_deletions s (files m) (stale_deleted (files m) fs)) = (Ok stats, s')
           /\ st = mkStats (stat_files stats) (stat_blocks stats) (stat_skipped stats)
                     (stat_errors stats)
                     (stat_deleted stats
                      + length (deleted_ids (files m) (stale_deleted (files m) fs)))).
Proof.
  intros Hload Hdisk Hwf. rewrite (update_eq fs s m Hload Hdisk Hwf).
  destruct (stale_changed (files m) fs) as [|fc ch] eqn:Hch;
    destruct (stale_deleted (files m) fs) as [|q del] eqn:Hdel; cbn [fmap list_fmap].
  { intros [= <- <-]. by left. }
  all: intros Hrun; right; (split; [first [by left|by right]|]).
  all: destruct (index _ _ _) as [[stats|x] s2]; [|done].
  all: injection Hrun as <- <-; by eexists.
Qed.

Lemma get_pop_all_kept mf fs p :
  Dict.wf mf -> p ∈ Dict.keys fs ->
  Dict.get p (pop_all (stale_deleted mf fs) mf) = Dict.get p mf.
Proof.
  intros Hwf Hp. rewrite get_pop_all by done. rewrite decide_False; [done|].
  by intros [_ ?]%elem_of_stale_deleted.
Qed.

Lemma unchanged_pop_all mf fs fc :
  Dict.wf mf -> fc ∈ fs ->
  unchanged (pop_all (stale_deleted mf fs) mf) fc = unchanged mf fc.
Proof.
  intros Hwf Hin. unfold unchanged. rewrite (get_pop_all_kept mf fs); [done..|].
  apply list_elem_of_fmap. by exists fc.
Qed.

Lemma n_skipped_none mf l :
  (forall fc, fc ∈ l -> unchanged mf fc = false) -> n_skipped mf l = 0%nat.
Proof.
  induction l as [|fc l IH]; intros Hall; [done|].
  rewrite n_skipped_cons, (Hall fc) by left. rewrite IH; [done|].
  intros fc' Hin. apply Hall. by right.
Qed.

Lemma old_ids_changed mf mf' l :
  (forall fc, fc ∈ l -> unchanged mf' fc = false /\ Dict.get fc.1 mf' = Dict.get fc.1 mf) ->
  old_ids mf' l = deleted_ids mf l.*1.
Proof.
  unfold old_ids, deleted_ids. induction l as [|fc l IH]; intros Hall; [done|].
  cbn [flat_map fmap list_fmap]. destruct (Hall fc) as [-> ->]; [left|].
  f_equal. apply IH. intros fc' Hin. apply Hall. by right.
Qed.

Lemma deleted_ids_app mf l1 l2 :
  deleted_ids mf (l1 ++ l2) = deleted_ids mf l1 ++ deleted_ids mf l2.
Proof. unfold deleted_ids. apply flat_map_app. Qed.

(** What [update] calls [index] with: the changed files, none of which is
    skipped, against the manifest without the deleted paths. *)
Lemma update_index_facts fs s m :
  _load_manifest s = Ok m -> disk_wf s -> Dict.wf fs ->
  let mf := files m in
  let ch := stale_changed mf fs in
  let mf1 := pop_all (stale_deleted mf fs) mf in
  _load_manifest (after_deletions s mf (stale_deleted mf fs)) = Ok (mkManifest mf1)
  /\ disk_wf (after_deletions s mf (stale_deleted mf fs))
  /\ Dict.wf ch /\ Dict.wf mf /\ v2_only mf
  /\ (forall fc, fc ∈ ch ->
        fc ∈ fs /\ unchanged mf1 fc = false /\ Dict.get fc.1 mf1 = Dict.get fc.1 mf)
  /\ n_skipped mf1 ch = 0%nat
  /\ old_ids mf1 ch = deleted_ids mf ch.*1.
Proof.
  intros Hload Hdisk Hwf mf ch mf1.
  destruct (load_Ok s m Hload Hdisk) as [Hwfm Hv2].
  assert (forall fc, fc ∈ ch ->
            fc ∈ fs /\ unchanged mf1 fc = false /\ Dict.get fc.1 mf1 = Dict.get fc.1 mf)
    as Hch.
  { intros fc [Hin Hu]%elem_of_stale_changed; [|done]. split; [done|].
    unfold mf1. rewrite unchanged_pop_all by done. split; [done|].
    apply get_pop_all_kept; [done|]. apply list_elem_of_fmap. by exists fc. }
  split; [by apply after_deletions_load|]. split; [by apply after_deletions_disk_wf|].
  split; [by apply wf_stale_changed|]. split; [done|]. split; [done|]. split; [done|].
  split.
  - apply n_skipped_none. intros fc Hin. by destruct (Hch fc Hin) as (_ & ? & _).
  - apply old_ids_changed. intros fc Hin. by destruct (Hch fc Hin) as (_ & ? & ?).
Qed.

(** X12 ([update] and [needs_update]).  [update] returns at once, with
    [skipped] the number of files and no ["errors"] key, and leaves the index
    as it is, exactly when [needs_update] is 0: stats without ["errors"] are
    the stats of this return and of no other. *)
Theorem update_noop_iff fs s m :
  _load_manifest s = Ok m -> disk_wf s -> Dict.wf fs ->
  (needs_update fs s = Ok 0%nat -> update fs s = (Ok (mkStats 0 0 (length fs) None 0), s))
  /\ (forall st s',
        update fs s = (Ok st, s') -> stat_errors st = None ->
        needs_update fs s = Ok 0%nat /\ st = mkStats 0 0 (length fs) None 0 /\ s' = s).
Proof.
  intros Hload Hdisk Hwf.
  pose proof (get_stale_files_eq fs s m Hload) as Hstale.
  rewrite (needs_update_eq _ _ _ _ Hstale). split.
  - intros [= Hlen]. rewrite (update_eq fs s m Hload Hdisk Hwf).
    destruct ((stale_changed (files m) fs).*1); [|done].
    by destruct (stale_deleted (files m) fs).
  - intros st s' Hrun Herr.
    destruct (update_Ok fs s m st s' Hload Hdisk Hwf Hrun)
      as [(Hch & Hdel & -> & ->)|(_ & stats & Hidx & ->)].
    + by rewrite Hch, Hdel.
    + cbn [stat_errors] in Herr.
      apply index_Ok_errors in Hidx as [e He]; [congruence|by apply wf_stale_changed].
Qed.

(** X13 (the stats of [update]).  When something is stale, the stats of
    [update] have the ["errors"] key, [skipped] is 0 whatever the number of
    files that did not change, every changed file is counted as indexed or
    failed, and [deleted] is the number of ids that were recorded for the
    changed and the deleted paths. *)
Theorem update_stats fs s m st s' changed deleted :
  _load_manifest s = Ok m -> disk_wf s -> Dict.wf fs ->
  get_stale_files fs s = Ok (changed, deleted) ->
  update fs s = (Ok st, s') ->
  (changed = [] /\ deleted = [] /\ st = mkStats 0 0 (length fs) None 0 /\ s' = s)
  \/ ((changed <> [] \/ deleted <> [])
      /\ exists e,
           stat_errors st = Some e
           /\ stat_skipped st = 0%nat
           /\ (stat_files st + e = length changed)%nat
           /\ stat_deleted st = length (deleted_ids (files m) (changed ++ deleted))).
Proof.
  intros Hload Hdisk Hwf Hstale Hrun.
  rewrite (get_stale_files_eq fs s m Hload) in Hstale. injection Hstale as <- <-.
  destruct (update_index_facts fs s m Hload Hdisk Hwf)
    as (Hload1 & _ & Hwfch & _ & _ & _ & Hskip & Hold).
  destruct (update_Ok fs s m st s' Hload Hdisk Hwf Hrun)
    as [(Hch & Hdel & -> & ->)|(Hne & stats & Hidx & ->)].
  - left. by rewrite Hch, Hdel.
  - right. split.
    { destruct Hne as [Hne|Hne]; [left|by right]. by intros Hnil%fmap_nil_inv. }
    destruct (index_Ok _ _ _ _ _ Hwfch Hidx) as (m1 & Hload1' & Hcases).
    assert (m1 = mkManifest (pop_all (stale_deleted (files m) fs) (files m))) as ->
      by congruence.
    cbn zeta in Hcases. cbn [files] in Hcases.
    pose proof (n_partition (pop_all (stale_deleted (files m) fs) (files m))
                  (stale_changed (files m) fs)) as Hpart.
    rewrite Hskip in Hpart.
    eexists.
    destruct Hcases as [(_ & -> & _)|(_ & n' & d' & starts & _ & _ & -> & _)];
      cbn [stat_errors stat_skipped stat_files stat_deleted];
      (split; [reflexivity|]); (split; [done|]);
      rewrite length_fmap, Hold, deleted_ids_app, length_app; (split; [lia|done]).
Qed.

(** The manifest that a call of [update] without failed extraction leaves:
    no file is stale against it. *)
Lemma settled mf fs :
  Dict.wf fs -> Dict.wf mf -> v2_only mf ->
  let ch := stale_changed mf fs in
  let mf1 := pop_all (stale_deleted mf fs) mf in
  let mf2 := merge_entries (pending mf1 ch) mf1 in
  n_failed mf1 ch = 0%nat ->
  Dict.wf mf2 /\ v2_only mf2 /\ stale_changed mf2 fs = [] /\ stale_deleted mf2 fs = [].
Proof.
  intros Hwf Hwfm Hv2 ch mf1 mf2 Hfail.
  assert (Dict.wf ch) as Hwfch by by apply wf_stale_changed.
  assert (Dict.wf mf1) as Hwf1 by by apply wf_pop_all.
  assert (v2_only mf2) as Hv22.
  { apply v2_only_merge_entries; [apply v2_only_pending|by apply v2_only_pop_all]. }
  split; [by apply wf_merge_entries|]. split; [done|]. split.
  - destruct (stale_changed mf2 fs) as [|[p c] l] eqn:E; [done|]. exfalso.
    assert ((p, c) ∈ stale_changed mf2 fs) as Hin by (rewrite E; left).
    apply elem_of_stale_changed in Hin as [Hin Hu]; [|done].
    assert (unchanged mf2 (p, c) = true) as Hu'; [|congruence]. clear Hu.
    destruct (decide ((p, c) ∈ ch)) as [Hch|Hch].
    + apply unchanged_after_merge; [done..|]. right.
      apply elem_of_stale_changed in Hch as Hch'; [|done]. destruct Hch' as [_ Hu].
      apply (n_failed_0 mf1 ch (p, c) Hfail Hch).
      unfold mf1. by rewrite unchanged_pop_all.
    + assert (unchanged mf (p, c) = true) as Hu.
      { destruct (unchanged mf (p, c)) eqn:Hu; [done|]. destruct Hch.
        by apply elem_of_stale_changed. }
      apply unchanged_true. unfold mf2. rewrite get_merge_entries by by apply wf_pending.
      destruct (Dict.get p (pending mf1 ch)) as [e|] eqn:Hp.
      * apply get_pending in Hp as (c' & blocks & Hget & _); [|done].
        apply get_Some_elem in Hget as Hc'. destruct Hch.
        assert ((p, c') ∈ fs) as Hin'.
        { apply elem_of_stale_changed in Hc'; [|done]. by destruct Hc'. }
        apply (elem_get _ _ _ Hwf) in Hin, Hin'. by replace c with c' by congruence.
      * apply unchanged_true. unfold mf1. by rewrite unchanged_pop_all.
  - destruct (stale_deleted mf2 fs) as [|q l] eqn:E; [done|]. exfalso.
    assert (q ∈ stale_deleted mf2 fs) as Hin by (rewrite E; left).
    apply elem_of_stale_deleted in Hin as [Hin Hout].
    apply keys_merge_entries in Hin as [Hin|Hin].
    + apply key_get in Hin as [e He]. unfold mf1 in He. rewrite get_pop_all in He by done.
      case_decide as Hdel; [done|]. apply Hdel, elem_of_stale_deleted.
      split; [by eapply get_Some_key|done].
    + by apply pending_keys, stale_changed_keys in Hin.
Qed.

(** X14 ([update] settles).  After a call of [update] that had no error and
    embedded a block or indexed no file, no file of the set is stale:
    [needs_update] is 0, and a second [update] with the same files returns at
    once and leaves the index as it is. *)
Theorem update_settles fs s m st s' :
  _load_manifest s = Ok m -> disk_wf s -> Dict.wf fs ->
  update fs s = (Ok st, s') ->
  default 0%nat (stat_errors st) = 0%nat ->
  (0 < stat_blocks st \/ stat_files st = 0)%nat ->
  get_stale_files fs s' = Ok ([], [])
  /\ needs_update fs s' = Ok 0%nat
  /\ update fs s' = (Ok (mkStats 0 0 (length fs) None 0), s').
Proof.
  intros Hload Hdisk Hwf Hrun Herr Hblocks.
  assert (exists m2,
            _load_manifest s' = Ok m2 /\ disk_wf s'
            /\ stale_changed (files m2) fs = [] /\ stale_deleted (files m2) fs = [])
    as (m2 & Hload2 & Hdisk2 & Hch2 & Hdel2).
  { destruct (update_Ok fs s m st s' Hload Hdisk Hwf Hrun)
      as [(Hch & Hdel & -> & ->)|(_ & stats & Hidx & ->)]; [by exists m|].
    cbn [stat_errors stat_blocks stat_files] in Herr, Hblocks.
    destruct (update_index_facts fs s m Hload Hdisk Hwf)
      as (Hload1 & Hdisk1 & Hwfch & Hwfm & Hv2 & _ & Hskip & _).
    destruct (index_Ok _ _ _ _ _ Hwfch Hidx) as (m1 & Hload1' & Hcases).
    assert (m1 = mkManifest (pop_all (stale_deleted (files m) fs) (files m))) as ->
      by congruence.
    cbn zeta in Hcases. cbn [files] in Hcases.
    pose proof (settled (files m) fs Hwf Hwfm Hv2) as Hsettled. cbn zeta in Hsettled.
    pose proof (n_partition (pop_all (stale_deleted (files m) fs) (files m))
                  (stale_changed (files m) fs)) as Hpart.
    destruct Hcases as [(_ & -> & ->)|(_ & n' & d' & starts & _ & _ & -> & ->)];
      cbn [stat_errors stat_blocks stat_files default] in Herr, Hblocks; unfold id in Herr.
    - destruct Hblocks as [?|Hnone]; [lia|].
      destruct (Hsettled Herr) as (_ & _ & Hch2 & Hdel2).
      assert (stale_changed (files m) fs = []) as Hnil by (apply nil_length_inv; lia).
      rewrite Hnil in Hch2, Hdel2. cbn in Hch2, Hdel2.
      eexists. split; [exact Hload1|]. split; [exact Hdisk1|]. done.
    - destruct (Hsettled Herr) as (Hwf2 & Hv22 & Hch2 & Hdel2).
      eexists. split; [by apply load_saved|]. split; [exact Hwf2|]. done. }
  pose proof (get_stale_files_eq fs s' m2 Hload2) as Hstale.
  rewrite Hch2, Hdel2 in Hstale. split; [exact Hstale|].
  split; [exact (needs_update_eq _ _ _ _ Hstale)|].
  rewrite (update_eq fs s' m2 Hload2 Hdisk2 Hwf), Hch2, Hdel2. done.
Qed.

(** ** The life cycle of an index *)

Lemma load_not_indexed s : is_indexed s = false -> _load_manifest s = Ok (mkManifest []).
Proof. unfold is_indexed, _load_manifest. by destruct (manifest_file s). Qed.

Lemma old_ids_empty fs : old_ids [] fs = [].
Proof.
  unfold old_ids. apply flat_map_nil. intros fc _. by destruct (unchanged [] fc).
Qed.

Lemma unchanged_empty fc : unchanged [] fc = false.
Proof. done. Qed.

Lemma staged_cons_empty fs p c b blocks :
  (p, c) ∈ fs -> extract p c = Some (b :: blocks) -> staged [] fs <> [].
Proof.
  intros Hin He Hnil.
  assert (stage p (content_hash c) b ∈ staged [] fs) as Hst.
  { apply elem_of_staged. exists (p, c), (b :: blocks), b. split_and!; try done. left. }
  rewrite Hnil in Hst. by apply elem_of_nil in Hst.
Qed.

Lemma n_failed_all_ok mf fs :
  (forall fc, fc ∈ fs -> is_Some (extract fc.1 fc.2)) -> n_failed mf fs = 0%nat.
Proof.
  induction fs as [|fc fs IH]; intros Hall; [done|].
  rewrite n_failed_cons, IH by (intros fc' Hin; apply Hall; by right).
  destruct (Hall fc) as [blocks ->]; [left|]. by destruct (unchanged mf fc).
Qed.

(** X15 (the first call of [index]).  On a root without manifest, a call
    of [index] that returns, with a batch size that is not negative, writes
    the manifest exactly when it embedded a block.  When it embedded none,
    the root is as it was: it is still not indexed, and [count] is 0. *)
Theorem index_makes_indexed fs batch_size s st s' :
  is_indexed s = false -> Dict.wf fs -> 0 <= batch_size ->
  index fs batch_size s = (Ok st, s') ->
  (is_indexed s' = true <-> (0 < stat_blocks st)%nat)
  /\ (is_indexed s' = false -> s' = s /\ count s' = 0%nat).
Proof.
  intros Hnot Hwf Hbs Hrun.
  destruct (index_Ok _ _ _ _ _ Hwf Hrun) as (m & Hload & Hcases).
  rewrite (load_not_indexed s Hnot) in Hload. injection Hload as <-.
  cbn zeta in Hcases. cbn [files] in Hcases. rewrite old_ids_empty in Hcases.
  cbn [db_delete fold_left] in Hcases.
  destruct Hcases as [(_ & -> & ->)|(Hne & n' & d' & starts & Hr & Hb & -> & ->)];
    cbn [stat_blocks].
  - rewrite state_eta. unfold count. rewrite Hnot. split; [|done].
    split; [done|lia].
  - assert (0 < batch_size) as Hpos.
    { destruct (decide (batch_size = 0)) as [->|]; [|lia].
      unfold range_from_0 in Hr. by rewrite decide_True in Hr. }
    destruct (embed_batches_stored_all _ _ _ _ _ _ _ Hr Hpos Hb) as [_ ->].
    split; [|done]. split; [|done]. intros _.
    destruct (staged [] fs); [done|]. cbn [length]. lia.
Qed.

Lemma size_list_to_set_le (l : list string) : (size (list_to_set l : gset string) <= length l)%nat.
Proof.
  induction l as [|x l IH]; [by rewrite list_to_set_nil, size_empty|].
  rewrite list_to_set_cons, size_union_alt, size_singleton. cbn [length].
  assert (list_to_set l ∖ {[x]} ⊆ (list_to_set l : gset string)) as Hsub.
  { intros y Hy. by apply elem_of_difference in Hy as [Hy _]. }
  apply subseteq_size in Hsub. lia.
Qed.

Lemma stored_empty_dom all_blocks d' :
  stored ∅ all_blocks d' -> dom d' = list_to_set (bi_id <$> all_blocks).
Proof.
  intros Hst. apply set_eq. intros id.
  rewrite elem_of_dom, elem_of_list_to_set, (stored_dom _ _ _ id Hst), lookup_empty.
  rewrite list_elem_of_fmap. split.
  - intros [[? [=]]|(bi & Hbi & <-)]. by exists bi.
  - intros (bi & -> & Hbi). right. by exists bi.
Qed.

Lemma fmap_flat_map {A B C} (f : B -> C) (g : A -> list B) (l : list A) :
  f <$> flat_map g l = flat_map (fun x => f <$> g x) l.
Proof. induction l as [|x l IH]; [done|]. cbn [flat_map]. by rewrite fmap_app, IH. Qed.

(** The ids of the blocks of a file set are distinct when no path has a
    [":"] and the blocks of a file differ in their first line or their
    name. *)
Lemma staged_ids_NoDup mf fs :
  Dict.wf fs -> (forall q, q ∈ Dict.keys fs -> no_colon q) ->
  (forall p c blocks,
     (p, c) ∈ fs -> extract p c = Some blocks ->
     NoDup ((fun b => (block_start_line b, block_name b)) <$> blocks)) ->
  NoDup (bi_id <$> staged mf fs).
Proof.
  intros Hwf Hnc Hblocks. unfold staged. rewrite fmap_flat_map.
  change (flat_map ?f fs) with (fs ≫= f).
  apply NoDup_bind.
  - intros [p c] [q c'] id Hp Hq Hid Hid'.
    assert (forall p c, (p, c) ∈ fs ->
              id ∈ bi_id <$> (if unchanged mf (p, c) then [] else staged_of (p, c)) ->
              no_colon p /\ id_of_path p id) as Hpath.
    { intros p0 c0 Hin Hx. split; [apply Hnc, list_elem_of_fmap; by exists (p0, c0)|].
      destruct (unchanged mf (p0, c0)); [by apply elem_of_nil in Hx|].
      apply list_elem_of_fmap in Hx as (bi & -> & Hbi). unfold staged_of in Hbi.
      cbn [fst snd] in Hbi. destruct (extract p0 c0); [|by apply elem_of_nil in Hbi].
      apply list_elem_of_fmap in Hbi as (b & -> & _). apply block_id_of_path. }
    destruct (Hpath p c Hp Hid) as [Hncp Hidp], (Hpath q c' Hq Hid') as [Hncq Hidq].
    assert (p = q) as -> by by eapply id_of_path_inj.
    f_equal. apply (elem_get _ _ _ Hwf) in Hp, Hq. congruence.
  - intros [p c] Hin.
    destruct (unchanged mf (p, c)); [constructor|]. unfold staged_of. cbn [fst snd].
    destruct (extract p c) as [blocks|] eqn:He; [|constructor].
    change (map ?f blocks) with (f <$> blocks). rewrite <- list_fmap_compose.
    assert (bi_id ∘ stage p (content_hash c)
            = (fun lb : Z * string => p +:+ ":" +:+ pretty lb.1 +:+ ":" +:+ lb.2)
                ∘ (fun b => (block_start_line b, block_name b))) as -> by done.
    rewrite list_fmap_compose. apply NoDup_fmap_2; [|by eapply Hblocks].
    intros [z n] [z' n'] Heq. cbn [fst snd] in Heq.
    apply (inj (String.append p)) in Heq. injection Heq as Heq.
    apply split_at_colon in Heq as [Hz ->]; [|apply pretty_Z_no_colon..].
    by apply (inj pretty) in Hz as ->.
  - apply NoDup_fmap_1 with fst. exact Hwf.
Qed.

(** X16 ([count] after the first call of [index]).  After a call of
    [index] on an empty store without manifest, [count()] is at most the
    number of blocks the call reports, and it is that number when no path
    has a [":"] and the blocks of each file differ in their first line or
    their name. *)
Theorem count_after_first_index fs batch_size s st s' :
  is_indexed s = false -> db s = ∅ -> Dict.wf fs -> 0 < batch_size ->
  index fs batch_size s = (Ok st, s') ->
  (count s' <= stat_blocks st)%nat
  /\ ((forall q, q ∈ Dict.keys fs -> no_colon q) ->
      (forall p c blocks,
         (p, c) ∈ fs -> extract p c = Some blocks ->
         NoDup ((fun b => (block_start_line b, block_name b)) <$> blocks)) ->
      count s' = stat_blocks st).
Proof.
  intros Hnot Hdb Hwf Hpos Hrun.
  destruct (index_Ok _ _ _ _ _ Hwf Hrun) as (m & Hload & Hcases).
  rewrite (load_not_indexed s Hnot) in Hload. injection Hload as <-.
  cbn zeta in Hcases. cbn [files] in Hcases. rewrite old_ids_empty, Hdb in Hcases.
  cbn [db_delete fold_left] in Hcases.
  destruct Hcases as [(_ & -> & ->)|(Hne & n' & d' & starts & Hr & Hb & -> & ->)];
    cbn [stat_blocks].
  - unfold count, is_indexed. cbn [manifest_file]. unfold is_indexed in Hnot.
    by destruct (manifest_file s).
  - destruct (embed_batches_stored_all _ _ _ _ _ _ _ Hr Hpos Hb) as [Hst ->].
    unfold count. cbn [is_indexed _save_manifest manifest_file db].
    rewrite <- (size_dom (D := gset string) d'), (stored_empty_dom _ _ Hst).
    cbn [Nat.add]. split.
    + etrans; [apply size_list_to_set_le|]. by rewrite length_fmap.
    + intros Hnc Hblocks. rewrite size_list_to_set by by apply staged_ids_NoDup.
      by rewrite length_fmap.
Qed.

Lemma consistent_clear s : consistent (clear s).
Proof.
  exists (mkManifest []). split; [done|]. split; [done|]. split.
  - intros p e Hget. done.
  - intros id it Hget. cbn in Hget. by rewrite lookup_empty in Hget.
Qed.

Lemma stale_changed_empty fs : stale_changed [] fs = fs.
Proof. unfold stale_changed. apply filter_all, Forall_forall. by intros fc _. Qed.

Lemma build_index_eq fs s :
  fs <> [] ->
  build_index fs s
  = match index fs 128 s with
    | (Raise x, s') => (Raise x, s')
    | (Ok _, s') => (Ok (), s')
    end.
Proof. by destruct fs. Qed.

(** X17 ([rebuild] recovers the index).  Whatever the index holds, also
    with a manifest that does not parse, [rebuild] on files that all
    extract, one of them with a block, and whose paths have no [":"],
    leaves an index in which manifest and store agree, whose vectors all
    originate from the files given, and against which no file is stale. *)
Theorem rebuild_recovers fs s :
  (forall texts, length (embed texts) = length texts) ->
  is_indexed s = true -> Dict.wf fs -> (forall q, q ∈ Dict.keys fs -> no_colon q) ->
  (forall p c, (p, c) ∈ fs -> is_Some (extract p c)) ->
  (exists p c b blocks, (p, c) ∈ fs /\ extract p c = Some (b :: blocks)) ->
  exists s',
    rebuild fs s = (Ok (), s')
    /\ consistent s' /\ is_indexed s' = true
    /\ (forall id it, db s' !! id = Some it -> origin it ∈ Dict.keys fs)
    /\ needs_update fs s' = Ok 0%nat.
Proof.
  intros Hembed Hidx Hwf Hnc Hall (p & c & b & blocks & Hin & He).
  unfold rebuild. rewrite Hidx.
  rewrite build_index_eq by (intros ->; by apply elem_of_nil in Hin).
  assert (_load_manifest (clear s) = Ok (mkManifest [])) as Hload by done.
  assert (n_failed [] fs = 0%nat) as Hfail.
  { apply n_failed_all_ok. intros [q c'] Hq. by apply Hall. }
  destruct (index_run fs 128 (clear s) (mkManifest []) Hembed Hwf ltac:(lia) Hload)
    as [(Hnil & _)|(Hne & d' & Hst & Hrun)]; cbn [files] in *.
  { by destruct (staged_cons_empty fs p c b blocks Hin He). }
  rewrite Hrun. eexists. split; [reflexivity|].
  assert (consistent
            (_save_manifest (mkManifest (merge_entries (pending [] fs) []))
               (mkState d' (manifest_file (clear s)) (saved (clear s))))) as Hcons.
  { apply (index_preserves fs 128 (clear s) _ _ (consistent_clear s) Hwf Hnc Hrun);
      cbn [stat_errors stat_blocks default].
    - done.
    - left. destruct (staged [] fs); [done|]. cbn [length]. lia. }
  destruct (settled [] fs Hwf) as (Hwf2 & Hv22 & Hch & Hdel); [constructor..| |].
  { by rewrite stale_changed_empty. }
  cbn [stale_deleted Dict.keys fmap list_fmap filter list_filter pop_all fold_left] in *.
  rewrite stale_changed_empty in *.
  assert (_load_manifest
            (_save_manifest (mkManifest (merge_entries (pending [] fs) []))
               (mkState d' (manifest_file (clear s)) (saved (clear s))))
          = Ok (mkManifest (merge_entries (pending [] fs) []))) as Hload' by by apply load_saved.
  split; [done|]. split; [done|]. split.
  - destruct Hcons as (m' & Hm' & _ & _ & Hsw).
    assert (m' = mkManifest (merge_entries (pending [] fs) [])) as -> by congruence.
    intros id it Hget. destruct (Hsw id it Hget) as ([e Hk] & _).
    apply get_Some_key, keys_merge_entries in Hk as [Hk|Hk%pending_keys]; [|done].
    by apply elem_of_nil in Hk.
  - pose proof (get_stale_files_eq fs _ _ Hload') as Hstale. cbn [files] in Hstale.
    rewrite Hch, Hdel in Hstale. exact (needs_update_eq _ _ _ _ Hstale).
Qed.

(** ** The command line: the preview of a result *)

Lemma split_lines_no_nl {char} `{!EqDecision char} (nl : char) (content : list char) :
  Forall (fun ln => nl ∉ ln) (split_lines nl content).
Proof.
  induction content as [|c rest IH]; cbn [split_lines].
  - constructor; [apply not_elem_of_nil|constructor].
  - destruct (decide (c = nl)) as [->|Hne].
    + constructor; [apply not_elem_of_nil|exact IH].
    + destruct (split_lines nl rest) as [|ln lines].
      * constructor; [|constructor]. by intros [?|?%elem_of_nil]%elem_of_cons.
      * apply Forall_cons in IH as [Hln Hlines]. constructor; [|done].
        by intros [?|?]%elem_of_cons.
Qed.

Lemma truncate_length {char} (dot : char) (ln : list char) :
  (length (truncate dot ln) <= 80)%nat.
Proof.
  unfold truncate. case_decide as Hlong; [|lia].
  rewrite length_app, length_take. cbn [length]. lia.
Qed.

Lemma truncate_no_nl {char} (nl dot : char) (ln : list char) :
  dot <> nl -> nl ∉ ln -> nl ∉ truncate dot ln.
Proof.
  intros Hdot Hln. unfold truncate. case_decide as Hlong; [|done].
  intros [Hin|Hin]%elem_of_app.
  - apply Hln. by apply subseteq_take in Hin.
  - repeat (apply elem_of_cons in Hin as [?|Hin]; [done|]). by apply elem_of_nil in Hin.
Qed.

(** X18 (the preview of a result).  Under a result [print_results] hands
    at most three lines to the console, each of at most 80 characters and
    without a newline.  They are the first three lines of the content that
    have a character that is not white space, or all of them when there are
    fewer, in the order of the content, each as it is or, when it has more
    than 80 characters, cut to its first 77 characters and three full
    stops. *)
Theorem preview_bounds {char} `{!EqDecision char} (nl dot : char) (is_space : char -> bool)
    (content : list char) :
  dot <> nl ->
  (length (preview nl dot is_space content) <= 3)%nat
  /\ Forall (fun ln => (length ln <= 80)%nat /\ nl ∉ ln) (preview nl dot is_space content)
  /\ exists lines,
       lines `prefix_of` filter (fun ln => not_blank is_space ln = true)
                           (split_lines nl content)
       /\ length lines
          = (3 `min` length (filter (fun ln => not_blank is_space ln = true)
                               (split_lines nl content)))%nat
       /\ preview nl dot is_space content
          = (fun src => if decide (80 < length src)%nat
                        then take 77 src ++ [dot; dot; dot] else src) <$> lines.
Proof.
  intros Hdot. unfold preview.
  set (kept := filter (fun ln => not_blank is_space ln = true) (split_lines nl content)).
  assert (take 3 kept `sublist_of` split_lines nl content) as Hsub.
  { etrans; [apply sublist_take|apply sublist_filter]. }
  split; [rewrite length_fmap, length_take; lia|]. split.
  - apply Forall_fmap, Forall_forall. intros ln Hin. cbn [compose].
    split; [apply truncate_length|]. apply truncate_no_nl; [done|].
    pose proof (split_lines_no_nl nl content) as Hno.
    rewrite Forall_forall in Hno. apply Hno. by eapply elem_of_sublist.
  - exists (take 3 kept). split; [apply prefix_take|]. split; [apply length_take|done].
Qed.

(** ** The command line: the threshold of [semantic_search] *)

Lemma SFcompare_rank a b :
  a <> S754_nan -> b <> S754_nan ->
  match SFcompare a b with
  | Some Lt => lex_lt (rank a) (rank b)
  | Some Eq => rank a = rank b
  | Some Gt => lex_lt (rank b) (rank a)
  | None => False
  end.
Proof.
  intros Ha Hb. unfold lex_lt.
  destruct a as [[|]|[|]| |[|] ma ea], b as [[|]|[|]| |[|] mb eb]; try done;
    cbn [SFcompare rank fst snd]; try lia.
  - destruct (Z.compare_spec ea eb) as [->|?|?]; cbn [CompOpp]; try lia.
    rewrite compare_cont_Eq.
    destruct (Z.compare_spec (Z.pos ma) (Z.pos mb)) as [Heq|?|?]; cbn [CompOpp]; try lia.
    by injection Heq as ->.
  - destruct (Z.compare_spec ea eb) as [->|?|?]; try lia.
    rewrite compare_cont_Eq.
    destruct (Z.compare_spec (Z.pos ma) (Z.pos mb)) as [Heq|?|?]; try lia.
    by injection Heq as ->.
Qed.

Lemma SFleb_rank a b :
  SFleb a b = true <-> a <> S754_nan /\ b <> S754_nan /\ lex_le (rank a) (rank b).
Proof.
  unfold SFleb. split.
  - intros Hle.
    assert (a <> S754_nan /\ b <> S754_nan) as [Ha Hb].
    { split; intros ->; [done|]. by destruct a. }
    split; [done|]. split; [done|].
    pose proof (SFcompare_rank a b Ha Hb) as Hr.
    destruct (SFcompare a b) as [[ | | ]|]; try done.
    + rewrite Hr. unfold lex_le. lia.
    + unfold lex_lt, lex_le in *. lia.
  - intros (Ha & Hb & Hle). pose proof (SFcompare_rank a b Ha Hb) as Hr.
    destruct (SFcompare a b) as [[ | | ]|]; try done.
    unfold lex_lt, lex_le in *. lia.
Qed.

Lemma SFltb_rank a b :
  SFltb a b = true <-> a <> S754_nan /\ b <> S754_nan /\ lex_lt (rank a) (rank b).
Proof.
  unfold SFltb. split.
  - intros Hlt.
    assert (a <> S754_nan /\ b <> S754_nan) as [Ha Hb].
    { split; intros ->; [done|]. by destruct a. }
    split; [done|]. split; [done|].
    pose proof (SFcompare_rank a b Ha Hb) as Hr.
    by destruct (SFcompare a b) as [[ | | ]|].
  - intros (Ha & Hb & Hlt). pose proof (SFcompare_rank a b Ha Hb) as Hr.
    destruct (SFcompare a b) as [[ | | ]|]; try done.
    + rewrite Hr in Hlt. unfold lex_lt in Hlt. lia.
    + unfold lex_lt in *. lia.
Qed.

Lemma leb_trans (x y z : float) :
  (x <=? y)%float = true -> (y <=? z)%float = true -> (x <=? z)%float = true.
Proof.
  rewrite !leb_spec, !SFleb_rank. unfold lex_le.
  intros (Hx & Hy & Hxy) (_ & Hz & Hyz). split; [done|]. split; [done|]. lia.
Qed.

Lemma ltb_leb_trans (x y z : float) :
  (x <? y)%float = true -> (y <=? z)%float = true -> (x <? z)%float = true.
Proof.
  rewrite !ltb_spec, !leb_spec, !SFltb_rank, !SFleb_rank. unfold lex_le, lex_lt.
  intros (Hx & Hy & Hxy) (_ & Hz & Hyz). split; [done|]. split; [done|]. lia.
Qed.

Lemma leb_ltb_false (x y : float) :
  (x <=? y)%float = true -> (y <? x)%float = true -> False.
Proof.
  rewrite !ltb_spec, !leb_spec, !SFltb_rank, !SFleb_rank. unfold lex_le, lex_lt.
  intros (Hx & Hy & Hxy) (_ & _ & Hyx). lia.
Qed.

Lemma ltb_leb (x y : float) : (x <? y)%float = true -> (x <=? y)%float = true.
Proof.
  rewrite ltb_spec, leb_spec, SFltb_rank, SFleb_rank. unfold lex_le, lex_lt.
  intros (Hx & Hy & Hxy). split; [done|]. split; [done|]. lia.
Qed.

Lemma filter_sublist_impl {A} (P Q : A -> Prop) `{!forall x, Decision (P x)}
    `{!forall x, Decision (Q x)} (l : list A) :
  (forall x, P x -> Q x) -> filter P l `sublist_of` filter Q l.
Proof.
  intros HPQ. induction l as [|x l IH]; [done|]. rewrite !filter_cons.
  destruct (decide (P x)) as [HP|HP].
  - rewrite decide_True by by apply HPQ. by constructor.
  - destruct (decide (Q x)); [by constructor|done].
Qed.

Lemma filter_none {A} (P : A -> Prop) `{!forall x, Decision (P x)} (l : list A) :
  (forall x, x ∈ l -> ~ P x) -> filter P l = [].
Proof.
  induction l as [|x l IH]; intros Hall; [done|].
  rewrite filter_cons_False by (apply Hall; left). apply IH. intros y Hy. apply Hall. by right.
Qed.

(** X19 (the threshold of [semantic_search]).  The results are results of
    [search], in the order [search] gave them.  A threshold above 0 keeps
    the results whose score is at least the threshold, and only these; a
    threshold that is 0, negative or not a number keeps them all. *)
Theorem semantic_search_spec query n threshold s out :
  semantic_search query n threshold s = Ok out ->
  exists results,
    search query n s = Ok results
    /\ out `sublist_of` results
    /\ (forall r,
          r ∈ out
          <-> r ∈ results
              /\ ((0 <? threshold)%float = true -> (threshold <=? res_score r)%float = true))
    /\ ((0 <? threshold)%float = false -> out = results).
Proof.
  unfold semantic_search. destruct (search query n s) as [results|x]; [|done].
  intros [= <-]. exists results. split; [done|].
  destruct (0 <? threshold)%float.
  - split; [apply sublist_filter|]. split; [|done].
    intros r. rewrite list_elem_of_filter. split.
    + intros [HP Hin]. split; [done|by intros _].
    + intros [Hin HP]. split; [by apply HP|done].
  - split; [done|]. split; [|done]. intros r. split; [by intros Hin|by intros [Hin _]].
Qed.

(** X20 (a higher threshold).  A higher threshold gives a part of the
    results of a lower one, in the same order. *)
Theorem semantic_search_threshold_monotone query n t1 t2 s out2 :
  (0 <? t1)%float = true -> (t1 <=? t2)%float = true ->
  semantic_search query n t2 s = Ok out2 ->
  exists out1, semantic_search query n t1 s = Ok out1 /\ out2 `sublist_of` out1.
Proof.
  intros H1 H12. unfold semantic_search.
  destruct (search query n s) as [results|x]; [|done].
  rewrite H1, (ltb_leb_trans 0 t1 t2 H1 H12). intros [= <-].
  eexists. split; [reflexivity|]. apply filter_sublist_impl.
  intros r Hr. by apply leb_trans with t2.
Qed.

(** X21 (a threshold above 1).  When the raw distances are between 0 and 2
    (a raw result without a distance has the score 1.0), a threshold above 1
    leaves no result. *)
Theorem semantic_search_threshold_above_1 query n threshold s results :
  (1 <? threshold)%float = true ->
  search query n s = Ok results ->
  (forall q raw d,
     embed [query] !! 0%nat = Some q -> raw ∈ db_search (db s) q n ->
     raw_distance raw = Some d -> (0 <=? d)%float = true /\ (d <=? 2)%float = true) ->
  semantic_search query n threshold s = Ok [].
Proof.
  intros Hthr Hsearch Hdist. unfold semantic_search. rewrite Hsearch.
  assert ((0 <? threshold)%float = true) as ->.
  { apply ltb_leb_trans with 1%float; [done|by apply ltb_leb]. }
  f_equal. apply filter_none. intros r Hr Hle.
  unfold search in Hsearch. destruct (embed [query] !! 0%nat) as [q|] eqn:Hq; [|done].
  injection Hsearch as <-. apply list_elem_of_fmap in Hr as (raw & -> & Hraw).
  rewrite format_result_score in Hle.
  assert ((score (raw_distance raw) <=? 1)%float = true) as Hone.
  { destruct (raw_distance raw) as [d|] eqn:Hd; [|done].
    destruct (Hdist q raw d eq_refl Hraw Hd) as [H0 H2]. by apply score_range. }
  apply (leb_ltb_false threshold 1); [|done]. by eapply leb_trans.
Qed.

(** ** Stale files: order, and the entries of the v1 format *)

(** X22 (the order of the stale files).  [get_stale_files] lists the changed
    paths in the order of the files and the deleted paths in the order of
    the manifest, and no path is in both lists. *)
Theorem stale_files_order fs s m changed deleted :
  _load_manifest s = Ok m -> get_stale_files fs s = Ok (changed, deleted) ->
  changed `sublist_of` Dict.keys fs
  /\ deleted `sublist_of` Dict.keys (files m)
  /\ (forall p, p ∈ changed -> p ∈ deleted -> False).
Proof.
  intros Hload Hstale. rewrite (get_stale_files_eq fs s m Hload) in Hstale.
  injection Hstale as <- <-. split; [|split].
  - apply fmap_sublist, sublist_filter.
  - apply sublist_filter.
  - intros p Hch [_ Hout]%elem_of_stale_deleted. apply Hout. by eapply stale_changed_keys.
Qed.

Lemma stored_hash_upgrade (e : option FileEntry) : stored_hash (upgrade <$> e) = stored_hash e.
Proof. by destruct e as [[h|h blocks]|]. Qed.

(** X23 (the vectors of v1 entries).  When the files that are gone were
    recorded in the v1 format, and no other file changed, [update] drops
    their entries, reports [deleted] 0 and deletes no vector: what the
    store holds for them stays in it. *)
Theorem update_leaves_legacy_vectors fs s data :
  manifest_file s = Document data -> Dict.wf (files data) -> Dict.wf fs ->
  (forall p c, (p, c) ∈ fs -> stored_hash (Dict.get p (files data)) = Some (content_hash c)) ->
  (forall p, p ∈ Dict.keys (files data) -> p ∉ Dict.keys fs ->
     exists h, Dict.get p (files data) = Some (HashOnly h)) ->
  (exists p, p ∈ Dict.keys (files data) /\ p ∉ Dict.keys fs) ->
  exists s' m',
    update fs s = (Ok (mkStats 0 0 0 (Some 0%nat) 0), s')
    /\ db s' = db s
    /\ _load_manifest s' = Ok m'
    /\ (forall p, p ∉ Dict.keys fs -> Dict.get p (files m') = None).
Proof.
  intros Hfile Hwfd Hwf Hsame Hlegacy (p0 & Hp0 & Hout0).
  set (mf := prod_map id upgrade <$> files data).
  assert (_load_manifest s = Ok (mkManifest mf)) as Hload.
  { unfold _load_manifest. by rewrite Hfile, migrate_eq. }
  assert (disk_wf s) as Hdisk by (unfold disk_wf; by rewrite Hfile).
  destruct (load_Ok s _ Hload Hdisk) as [Hwfm Hv2]. cbn [files] in Hwfm, Hv2.
  assert (stale_changed mf fs = []) as Hch.
  { unfold stale_changed. apply filter_none. intros [p c] Hin Hne. apply Hne.
    unfold mf. cbn [fst snd]. rewrite get_fmap_upgrade, stored_hash_upgrade. by apply Hsame. }
  assert (p0 ∈ stale_deleted mf fs) as Hdel0.
  { apply elem_of_stale_deleted. unfold mf. by rewrite keys_fmap_upgrade. }
  assert (deleted_ids mf (stale_deleted mf fs) = []) as Hids.
  { unfold deleted_ids. apply flat_map_nil. intros f [Hf Hout]%elem_of_stale_deleted.
    unfold mf in Hf |- *. rewrite keys_fmap_upgrade in Hf.
    destruct (Hlegacy f Hf Hout) as [h Hget]. by rewrite get_fmap_upgrade, Hget. }
  pose proof (after_deletions_load s (mkManifest mf) (stale_deleted mf fs) Hload Hdisk) as Hload1.
  pose proof (after_deletions_db s mf (stale_deleted mf fs)) as Hdb1.
  cbn [files] in Hload1. rewrite Hids in Hdb1. cbn [db_delete fold_left] in Hdb1.
  pose proof (update_eq fs s _ Hload Hdisk Hwf) as Hupd. cbn [files] in Hupd.
  rewrite Hch, Hids in Hupd.
  destruct (stale_deleted mf fs) as [|q del] eqn:Hdel; [by apply elem_of_nil in Hdel0|].
  cbn [fmap list_fmap] in Hupd. eexists _, _. rewrite Hupd.
  rewrite (index_all_unchanged [] 128 _ _ Hload1) by (by constructor || by intros ? ?%elem_of_nil).
  split; [reflexivity|]. split; [exact Hdb1|]. split; [exact Hload1|].
  cbn [files]. intros p Hp. rewrite get_pop_all by done. case_decide as Hin; [done|].
  apply get_None. intros Hk. apply Hin. rewrite <- Hdel. by apply elem_of_stale_deleted.
Qed.

End SemanticIndex.

(** * Examples: the theorems at concrete inputs *)

Lemma load_migrates_legacy_witness :
  exists m,
    _load_manifest Demo.legacy_state = Ok m
    /\ Dict.keys (files m) = Dict.keys (files Demo.legacy)
    /\ (forall path h,
          Dict.get path (files Demo.legacy) = Some (HashOnly h) ->
          Dict.get path (files m) = Some (Entry h []))
    /\ (forall path h blocks,
          Dict.get path (files Demo.legacy) = Some (Entry h blocks) ->
          Dict.get path (files m) = Some (Entry h blocks)).
Proof.
  apply (load_migrates_legacy Demo.legacy_state Demo.legacy);
    [reflexivity | compute_done].
Defined.

Example index_two_files :
  index Demo.extract Demo.embed Demo.two_files 128 Demo.fresh
  = (Ok (mkStats 2 2 0 (Some 0%nat) 0), Demo.indexed).
Proof. vm_compute. reflexivity. Qed.

(** The embedder of the examples gives a row per text. *)
Lemma demo_embed_length texts : length (Demo.embed texts) = length texts.
Proof. unfold Demo.embed. by rewrite length_map. Qed.

Lemma stale_files_spec_witness :
  exists changed deleted,
    get_stale_files Demo.a_edited Demo.indexed = Ok (changed, deleted)
    /\ NoDup changed /\ NoDup deleted
    /\ (forall p,
          p ∈ changed
          <-> exists c, Dict.get p Demo.a_edited = Some c
                /\ ~ exists blocks,
                       Dict.get p (files Demo.manifest_two)
                       = Some (Entry (content_hash c) blocks))
    /\ (forall p,
          p ∈ deleted
          <-> p ∈ Dict.keys (files Demo.manifest_two) /\ p ∉ Dict.keys Demo.a_edited)
    /\ needs_update Demo.a_edited Demo.indexed = Ok (length changed + length deleted)%nat.
Proof.
  apply (stale_files_spec Demo.a_edited Demo.indexed Demo.manifest_two);
    [reflexivity | compute_done | compute_done].
Defined.

(** C6: a manifest file that does not parse makes the load raise; it is
    not read as an empty manifest. *)
Lemma load_unparsable_raises :
  _load_manifest (mkState ∅ Unparsable []) = Raise JSONDecodeError
  /\ _load_manifest (mkState ∅ Unparsable []) <> Ok (mkManifest []).
Proof. split; [reflexivity | discriminate]. Qed.

(** C2: [a.py] fails extraction in both calls, so the second call skips
    one of the two files only. *)
Lemma index_twice_with_failure :
  index Demo.extract Demo.embed Demo.a_broken 128 Demo.fresh
  = (Ok (mkStats 1 1 0 (Some 1%nat) 0), Demo.b_indexed)
  /\ index Demo.extract Demo.embed Demo.a_broken 128 Demo.b_indexed
     = (Ok (mkStats 0 0 1 (Some 1%nat) 0), Demo.b_indexed)
  /\ length Demo.a_broken = 2%nat.
Proof. split_and!; vm_compute; reflexivity. Qed.

Lemma index_twice_witness :
  index Demo.extract Demo.embed Demo.two_files 64 Demo.indexed
  = (Ok (mkStats 0 0 (length Demo.two_files) (Some 0%nat) 0), Demo.indexed).
Proof.
  apply (index_twice Demo.extract Demo.embed Demo.two_files 128 64 Demo.fresh
           (mkStats 2 2 0 (Some 0%nat) 0) Demo.indexed);
    [exact I | compute_done | vm_compute; reflexivity | reflexivity | left; simpl; lia].
Defined.

Lemma index_without_blocks_saves_nothing_witness :
  exists st d',
    index Demo.extract Demo.embed Demo.a_emptied 128 Demo.indexed
    = (Ok st, mkState d' (manifest_file Demo.indexed) (saved Demo.indexed))
    /\ _load_manifest (mkState d' (manifest_file Demo.indexed) (saved Demo.indexed))
       = Ok Demo.manifest_two
    /\ forall p c,
         (p, c) ∈ Demo.a_emptied ->
         unchanged (files Demo.manifest_two) (p, c) = false ->
         Demo.extract p c = Some [] ->
         (~ exists blocks,
              Dict.get p (files Demo.manifest_two) = Some (Entry (content_hash c) blocks))
         /\ forall fs' d'',
              Dict.get p fs' = Some c ->
              exists changed deleted,
                get_stale_files fs'
                  (mkState d'' (manifest_file Demo.indexed) (saved Demo.indexed))
                = Ok (changed, deleted)
                /\ p ∈ changed.
Proof.
  apply (index_without_blocks_saves_nothing Demo.extract Demo.embed Demo.a_emptied 128
           Demo.indexed Demo.manifest_two);
    [reflexivity | compute_done | compute_done |].
  intros p c [[= -> ->]|[[= -> ->]|[]%elem_of_nil]%elem_of_cons]%elem_of_cons Hu.
  - right. reflexivity.
  - vm_compute in Hu. discriminate.
Defined.

Lemma extraction_failure_is_local_witness :
  exists st s' m',
    index Demo.extract Demo.embed Demo.a_broken 128 Demo.indexed = (Ok st, s')
    /\ stat_errors st = Some (n_failed Demo.extract (files Demo.manifest_two) Demo.a_broken)
    /\ (1 <= n_failed Demo.extract (files Demo.manifest_two) Demo.a_broken)%nat
    /\ (stat_files st + stat_skipped st
        + n_failed Demo.extract (files Demo.manifest_two) Demo.a_broken
        = length Demo.a_broken)%nat
    /\ stored
         (db_delete (old_ids (files Demo.manifest_two) Demo.a_broken) (db Demo.indexed))
         (staged Demo.extract (files Demo.manifest_two) Demo.a_broken) (db s')
    /\ _load_manifest s' = Ok m'
    /\ Dict.get "a.py" (files m') = Dict.get "a.py" (files Demo.manifest_two)
    /\ (forall id, id ∈ entry_blocks (Dict.get "a.py" (files Demo.manifest_two)) ->
          db_delete (old_ids (files Demo.manifest_two) Demo.a_broken) (db Demo.indexed) !! id
          = None
          /\ (db s' !! id = None
              \/ exists bi e,
                   bi ∈ staged Demo.extract (files Demo.manifest_two) Demo.a_broken
                   /\ bi_file bi <> "a.py"
                   /\ db s' !! id = Some (item_of bi e))).
Proof.
  apply (extraction_failure_is_local Demo.extract Demo.embed Demo.a_broken 128
           Demo.indexed Demo.manifest_two "a.py" "(((");
    [exact demo_embed_length | reflexivity | compute_done | compute_done | lia
    | left | vm_compute; reflexivity | reflexivity].
Defined.

Lemma update_reconciles_deleted_witness :
  exists (changed deleted : list string) st s' m',
    get_stale_files Demo.b_removed Demo.indexed = Ok (changed, deleted) /\ "b.py" ∈ deleted
    /\ needs_update Demo.b_removed Demo.indexed = Ok (length changed + length deleted)%nat
    /\ update Demo.extract Demo.embed Demo.b_removed Demo.indexed = (Ok st, s')
    /\ (forall id, id ∈ entry_blocks (Dict.get "b.py" (files Demo.manifest_two)) ->
          db_delete (deleted_ids (files Demo.manifest_two) deleted) (db Demo.indexed) !! id
          = None
          /\ (db s' !! id = None
              \/ exists bi e,
                   bi ∈ staged Demo.extract (pop_all deleted (files Demo.manifest_two))
                          (stale_changed (files Demo.manifest_two) Demo.b_removed)
                   /\ bi_file bi ∈ changed /\ bi_file bi <> "b.py" /\ bi_id bi = id
                   /\ db s' !! id = Some (item_of bi e))
          /\ (no_colon "b.py" -> (forall q, q ∈ changed -> no_colon q) ->
              id_of_path "b.py" id -> db s' !! id = None))
    /\ _load_manifest s' = Ok m' /\ Dict.get "b.py" (files m') = None
    /\ (forall q, q ∈ deleted -> Dict.get q (pop_all deleted (files Demo.manifest_two)) = None)
    /\ (saved s' = mkManifest (pop_all deleted (files Demo.manifest_two)) :: saved Demo.indexed
        \/ saved s'
           = m' :: mkManifest (pop_all deleted (files Demo.manifest_two)) :: saved Demo.indexed)
    /\ exists changed' deleted',
         get_stale_files Demo.b_removed s' = Ok (changed', deleted')
         /\ ("b.py" ∉ changed') /\ ("b.py" ∉ deleted')
         /\ needs_update Demo.b_removed s' = Ok (length changed' + length deleted')%nat.
Proof.
  apply (update_reconciles_deleted Demo.extract Demo.embed Demo.b_removed Demo.indexed
           Demo.manifest_two "b.py");
    [exact demo_embed_length | reflexivity | compute_done | compute_done
    | compute_done | compute_done].
Defined.

(** C4: the id recorded for the file [a], which is gone, is the id of the
    block of the new file [a:1]. The deletion loop of [update] deletes it
    and [index] stores it again: after the call the store holds it. *)
Lemma deleted_id_stored_again :
  index Demo.extract_colon Demo.embed [("a", "x")] 128 Demo.fresh
  = (Ok (mkStats 1 1 0 (Some 0%nat) 0), Demo.colon_indexed)
  /\ _load_manifest Demo.colon_indexed = Ok Demo.manifest_colon
  /\ "a" ∈ Dict.keys (files Demo.manifest_colon) /\ ("a" ∉ Dict.keys Demo.a_renamed)
  /\ entry_blocks (Dict.get "a" (files Demo.manifest_colon)) = ["a:1:2:f"]
  /\ update Demo.extract_colon Demo.embed Demo.a_renamed Demo.colon_indexed
     = (Ok (mkStats 1 1 0 (Some 0%nat) 1), Demo.renamed_indexed)
  /\ db Demo.renamed_indexed !! "a:1:2:f"
     = Some (mkItem [1%float] (mkMetadata "a:1" "function" "f" 2 2 "f")).
Proof.
  split_and!; [vm_compute; reflexivity | reflexivity | compute_done | compute_done
              | reflexivity | vm_compute; reflexivity | reflexivity].
Qed.

Example update_after_removal :
  update Demo.extract Demo.embed Demo.b_removed Demo.indexed
  = (Ok (mkStats 0 0 0 (Some 0%nat) 1),
     mkState (<["a.py:1:main" := Demo.item "a.py" Demo.src_a]> ∅)
       (Document (mkManifest [("a.py", Entry (content_hash Demo.src_a) ["a.py:1:main"])]))
       [mkManifest [("a.py", Entry (content_hash Demo.src_a) ["a.py:1:main"])];
        Demo.manifest_two]).
Proof. vm_compute. reflexivity. Qed.

(** In the index of the two files, manifest and store agree. *)
Lemma demo_blocks_match : blocks_match (db Demo.indexed) (files Demo.manifest_two).
Proof.
  unfold Demo.indexed; cbn [db]. intros p e Hget id. cbn in Hget.
  repeat case_decide; simplify_eq; cbn [entry_blocks]; rewrite list_elem_of_singleton; split.
  - intros ->. by eexists.
  - intros (it & [[<- <-]|[_ [[<- <-]|[_ ?]]%lookup_insert_Some]]%lookup_insert_Some & Ho);
      done.
  - intros ->. by eexists.
  - intros (it & [[<- <-]|[_ [[<- <-]|[_ ?]]%lookup_insert_Some]]%lookup_insert_Some & Ho);
      done.
Qed.

Lemma demo_store_wf : store_wf (db Demo.indexed) (files Demo.manifest_two).
Proof.
  unfold Demo.indexed; cbn [db].
  intros id it [[<- <-]|[_ [[<- <-]|[_ ?]]%lookup_insert_Some]]%lookup_insert_Some;
    [| |done]; (split_and!; [by eexists | compute_done | by exists "1:main"]).
Qed.

Lemma demo_indexed_consistent : consistent Demo.indexed.
Proof.
  exists Demo.manifest_two.
  split_and!; [reflexivity | compute_done | exact demo_blocks_match | exact demo_store_wf].
Qed.

(** C1: after a call in which the extraction of [a.py] fails, the entry of
    [a.py] still lists the id of a vector that the call deleted. *)
Lemma agreement_lost_on_failure :
  consistent Demo.indexed
  /\ index Demo.extract Demo.embed Demo.a_broken 128 Demo.indexed
     = (Ok (mkStats 1 1 0 (Some 1%nat) 2), Demo.broken_indexed)
  /\ _load_manifest Demo.broken_indexed = Ok Demo.manifest_broken
  /\ Dict.get "a.py" (files Demo.manifest_broken)
     = Some (Entry (content_hash Demo.src_a) ["a.py:1:main"])
  /\ db Demo.broken_indexed !! "a.py:1:main" = None
  /\ ~ blocks_match (db Demo.broken_indexed) (files Demo.manifest_broken).
Proof.
  split_and!; [exact demo_indexed_consistent | vm_compute; reflexivity | reflexivity..|].
  intros Hbm.
  destruct (Hbm "a.py" (Entry (content_hash Demo.src_a) ["a.py:1:main"]) eq_refl "a.py:1:main")
    as [Hin _].
  destruct Hin as (it & Hit & _); [left|]. vm_compute in Hit. discriminate.
Qed.

Lemma agreement_preserved_witness :
  exists m',
    _load_manifest Demo.edited_indexed = Ok m'
    /\ blocks_match (db Demo.edited_indexed) (files m')
    /\ consistent Demo.edited_indexed.
Proof.
  apply (agreement_preserved Demo.extract Demo.embed Demo.a_edited 128 Demo.indexed
           (mkStats 1 1 1 (Some 0%nat) 1) Demo.edited_indexed);
    [exact demo_indexed_consistent | compute_done | | left; vm_compute; reflexivity
    | reflexivity | left; simpl; lia].
  intros q [->|[->|[]%elem_of_nil]%elem_of_cons]%elem_of_cons; compute_done.
Defined.

Lemma change_propagates_witness :
  let old := ["a.py:1:main"] in
  let new := map (block_id "a.py") [mkBlock "function" "main" 1 1 "def a(): return 1"] in
  (exists st s',
     index Demo.extract Demo.embed Demo.a_edited 128 Demo.indexed = (Ok st, s')
     /\ stat_deleted st = length old
     /\ replaced "a.py" old new (db Demo.indexed) (db s')
     /\ (blocks_match (db Demo.indexed) (files Demo.manifest_two) ->
         store_wf (db Demo.indexed) (files Demo.manifest_two) -> no_colon "a.py" ->
         propagated "a.py" old new (db s')
         /\ (forall id it, origin it <> "a.py" ->
               db Demo.indexed !! id = Some it <-> db s' !! id = Some it)))
  /\ (exists st s',
        update Demo.extract Demo.embed Demo.a_edited Demo.indexed = (Ok st, s')
        /\ stat_deleted st
           = (length old
              + length (deleted_ids (files Demo.manifest_two)
                          (stale_deleted (files Demo.manifest_two) Demo.a_edited)))%nat
        /\ replaced "a.py" old new
             (db_delete
                (deleted_ids (files Demo.manifest_two)
                   (stale_deleted (files Demo.manifest_two) Demo.a_edited))
                (db Demo.indexed))
             (db s')
        /\ (blocks_match (db Demo.indexed) (files Demo.manifest_two) ->
            store_wf (db Demo.indexed) (files Demo.manifest_two) -> no_colon "a.py" ->
            propagated "a.py" old new (db s')
            /\ (forall id it, origin it <> "a.py" -> origin it ∈ Dict.keys Demo.a_edited ->
                  db Demo.indexed !! id = Some it <-> db s' !! id = Some it)))
  /\ (NoDup old -> (forall id, id ∈ old -> is_Some (db Demo.indexed !! id)) ->
      size (db Demo.indexed) = (length old + size (db_delete old (db Demo.indexed)))%nat)
  /\ (blocks_match (db Demo.indexed) (files Demo.manifest_two) ->
      forall id, id ∈ old -> is_Some (db Demo.indexed !! id)).
Proof.
  apply (change_propagates Demo.extract Demo.embed Demo.a_edited 128 Demo.indexed
           Demo.manifest_two "a.py" "def a(): return 1" (content_hash Demo.src_a)
           ["a.py:1:main"] [mkBlock "function" "main" 1 1 "def a(): return 1"]);
    [exact demo_embed_length | reflexivity | compute_done | compute_done | lia | left
    | reflexivity | compute_done | reflexivity |].
  intros q c' [[= -> ->]|[[= -> ->]|[]%elem_of_nil]%elem_of_cons]%elem_of_cons Hq;
    [by destruct Hq | vm_compute; reflexivity].
Defined.

(** C3: the entry of [a.py] in [Demo.broken_indexed], the index after a
    call in which the extraction of [a.py] failed, lists an id of which the
    store has no vector. When the file parses again and is re-indexed,
    [deleted] is 1 and no vector was removed: the one vector of the store
    is still there and a second one was added. *)
Lemma change_counts_absent_vector :
  _load_manifest Demo.broken_indexed = Ok Demo.manifest_broken
  /\ Dict.get "a.py" (files Demo.manifest_broken)
     = Some (Entry (content_hash Demo.src_a) ["a.py:1:main"])
  /\ content_hash Demo.src_a <> content_hash "def a(): return 1"
  /\ db Demo.broken_indexed !! "a.py:1:main" = None
  /\ db_delete ["a.py:1:main"] (db Demo.broken_indexed) = db Demo.broken_indexed
  /\ index Demo.extract Demo.embed Demo.a_fixed 128 Demo.broken_indexed
     = (Ok (mkStats 1 1 1 (Some 0%nat) 1), Demo.fixed_indexed)
  /\ update Demo.extract Demo.embed Demo.a_fixed Demo.broken_indexed
     = (Ok (mkStats 1 1 0 (Some 0%nat) 1), Demo.fixed_indexed)
  /\ size (db Demo.broken_indexed) = 1%nat /\ size (db Demo.fixed_indexed) = 2%nat.
Proof.
  split_and!; [reflexivity | reflexivity | compute_done | reflexivity
              | vm_compute; reflexivity | vm_compute; reflexivity | vm_compute; reflexivity
              | reflexivity | reflexivity].
Qed.

(** An entry that lists the id of one vector twice: [deleted] is 2 for the
    one vector that is removed. *)
Example change_counts_listed_id_twice :
  size (db Demo.twice_indexed) = 1%nat
  /\ exists s',
       index Demo.extract Demo.embed [("a.py", "def a(): return 1")] 128 Demo.twice_indexed
       = (Ok (mkStats 1 1 0 (Some 0%nat) 2), s')
       /\ size (db s') = 1%nat.
Proof. split; [reflexivity|]. eexists. split; [vm_compute; reflexivity | reflexivity]. Qed.

(** A path with [":"]: the id of the new block of the edited file [a:1] is
    the id of the vector of the file [a], which did not change. The vector
    of [a] is overwritten. *)
Example change_overwrites_other_file :
  index Demo.extract_colon Demo.embed Demo.colon_files 128 Demo.fresh
  = (Ok (mkStats 2 2 0 (Some 0%nat) 0), Demo.colon_two_indexed)
  /\ db Demo.colon_two_indexed !! "a:1:2:f"
     = Some (mkItem [1%float] (mkMetadata "a" "function" "2:f" 1 1 "x"))
  /\ exists s',
       index Demo.extract_colon Demo.embed Demo.colon_edited 128 Demo.colon_two_indexed
       = (Ok (mkStats 1 1 1 (Some 0%nat) 1), s')
       /\ db s' !! "a:1:2:f"
          = Some (mkItem [1%float] (mkMetadata "a:1" "function" "f" 2 2 "f"))
       /\ size (db s') = 1%nat.
Proof.
  split_and!; [vm_compute; reflexivity | reflexivity |].
  eexists. split; [vm_compute; reflexivity | split; reflexivity].
Qed.

Lemma search_score_transform_witness :
  exists q,
    Demo.embed ["main"] !! 0%nat = Some q
    /\ Forall2 score_spec (Demo.db_search (db Demo.indexed) q 2)
         [mkSearchResult "a.py" "function" "main" 1 1 Demo.src_a 0.75%float;
          mkSearchResult "" "" "" 0 0 "" 1%float].
Proof.
  apply (search_score_transform Demo.embed Demo.db_search "main" 2 Demo.indexed).
  reflexivity.
Defined.

(** The end points of the transform, and a distance so small that the
    subtraction rounds: the score is the float [(2 - d) / 2], not the real
    number. *)
Example score_end_points :
  score (Some 0%float) = 1%float /\ score (Some 2%float) = 0%float
  /\ score None = 1%float /\ score (Some 0x1p-60%float) = 1%float.
Proof. repeat split. Qed.

(** The digest of the model on the test vectors of SHA-256. *)
Example sha256_empty :
  SHA256.hexdigest "" = "e3b0c44298fc1c149afbf4c8996fb92427ae41e4649b934ca495991b7852b855".
Proof. vm_compute. reflexivity. Qed.

Example sha256_abc :
  SHA256.hexdigest "abc" = "ba7816bf8f01cfea414140de5dae2223b00361a396177a9cb410ff61f20015ad".
Proof. vm_compute. reflexivity. Qed.

Example content_hash_abc : content_hash "abc" = "ba7816bf8f01cfea".
Proof. vm_compute. reflexivity. Qed.

(** ** The further properties at concrete inputs *)

Lemma load_save_load_witness :
  _load_manifest (_save_manifest Demo.migrated Demo.fresh) = Ok Demo.migrated
  /\ db (_save_manifest Demo.migrated Demo.fresh) = db Demo.fresh
  /\ is_indexed (_save_manifest Demo.migrated Demo.fresh) = true.
Proof.
  apply (load_save_load Demo.legacy_state Demo.migrated Demo.fresh);
    [reflexivity | compute_done].
Defined.

Lemma index_raise_keeps_manifest_witness :
  manifest_file Demo.a_lost = manifest_file Demo.indexed
  /\ saved Demo.a_lost = saved Demo.indexed
  /\ _load_manifest Demo.a_lost = _load_manifest Demo.indexed
  /\ forall fs', get_stale_files fs' Demo.a_lost = get_stale_files fs' Demo.indexed.
Proof.
  apply (index_raise_keeps_manifest Demo.extract Demo.no_rows Demo.a_edited 128 Demo.indexed
           IndexError Demo.a_lost).
  vm_compute. reflexivity.
Defined.

Lemma index_zero_batch_size_witness :
  index Demo.extract Demo.embed Demo.a_edited 0 Demo.indexed
  = (Raise ValueError,
     mkState (db_delete (old_ids (files Demo.manifest_two) Demo.a_edited) (db Demo.indexed))
       (manifest_file Demo.indexed) (saved Demo.indexed)).
Proof.
  apply (index_zero_batch_size Demo.extract Demo.embed Demo.a_edited Demo.indexed
           Demo.manifest_two); [reflexivity | compute_done | by vm_compute].
Defined.

Lemma index_negative_batch_size_witness :
  exists s' m',
    index Demo.extract Demo.embed Demo.two_files (-1) Demo.fresh
    = (Ok (mkStats (n_indexed Demo.extract [] Demo.two_files) 0
             (n_skipped [] Demo.two_files) (Some (n_failed Demo.extract [] Demo.two_files))
             (length (old_ids [] Demo.two_files))),
       s')
    /\ s' = _save_manifest
              (mkManifest (merge_entries (pending Demo.extract [] Demo.two_files) []))
              (mkState (db_delete (old_ids [] Demo.two_files) (db Demo.fresh))
                 (manifest_file Demo.fresh) (saved Demo.fresh))
    /\ db s' = db_delete (old_ids [] Demo.two_files) (db Demo.fresh)
    /\ _load_manifest s' = Ok m'
    /\ files m' = merge_entries (pending Demo.extract [] Demo.two_files) []
    /\ forall bi, bi ∈ staged Demo.extract [] Demo.two_files ->
         (exists h ids,
            Dict.get (bi_file bi) (files m') = Some (Entry h ids) /\ bi_id bi ∈ ids)
         /\ (db Demo.fresh !! bi_id bi = None -> db s' !! bi_id bi = None).
Proof.
  apply (index_negative_batch_size Demo.extract Demo.embed Demo.two_files (-1) Demo.fresh
           (mkManifest [])); [reflexivity | exact I | compute_done | lia | by vm_compute].
Defined.

(** With a negative batch size the manifest lists two ids and the store is
    empty. *)
Example index_negative_batch_size_demo :
  index Demo.extract Demo.embed Demo.two_files (-1) Demo.fresh
  = (Ok (mkStats 2 0 0 (Some 0%nat) 0), Demo.unembedded).
Proof. vm_compute. reflexivity. Qed.

Lemma index_batch_size_irrelevant_witness :
  exists st s1 s2 m',
    index Demo.extract Demo.embed Demo.two_files 1 Demo.fresh = (Ok st, s1)
    /\ index Demo.extract Demo.embed Demo.two_files 128 Demo.fresh = (Ok st, s2)
    /\ _load_manifest s1 = Ok m' /\ _load_manifest s2 = Ok m'
    /\ saved s1 = saved s2
    /\ forall id, is_Some (db s1 !! id) <-> is_Some (db s2 !! id).
Proof.
  apply (index_batch_size_irrelevant Demo.extract Demo.embed Demo.two_files 1 128 Demo.fresh
           (mkManifest []));
    [exact demo_embed_length | reflexivity | exact I | compute_done | lia | lia].
Defined.

Lemma index_stats_witness :
  let st := mkStats 1 1 0 (Some 1%nat) 2 in
  let mf := files Demo.manifest_two in
  stat_files st = n_indexed Demo.extract mf Demo.a_broken
  /\ stat_skipped st = n_skipped mf Demo.a_broken
  /\ stat_errors st = Some (n_failed Demo.extract mf Demo.a_broken)
  /\ (stat_files st + stat_skipped st + n_failed Demo.extract mf Demo.a_broken
      = length Demo.a_broken)%nat
  /\ stat_deleted st = length (old_ids mf Demo.a_broken)
  /\ stat_blocks st
     = (if decide (0 < 128) then length (staged Demo.extract mf Demo.a_broken) else 0%nat).
Proof.
  apply (index_stats Demo.extract Demo.embed Demo.a_broken 128 Demo.indexed
           (mkStats 1 1 0 (Some 1%nat) 2) Demo.broken_indexed Demo.manifest_two);
    [reflexivity | compute_done | vm_compute; reflexivity].
Defined.

Lemma index_keeps_entries_witness :
  exists m',
    _load_manifest Demo.edited_indexed = Ok m'
    /\ Dict.keys (files Demo.manifest_two) `prefix_of` Dict.keys (files m')
    /\ (forall q, q ∈ Dict.keys (files m') ->
          q ∈ Dict.keys (files Demo.manifest_two) \/ q ∈ Dict.keys Demo.a_edited)
    /\ (forall q, q ∉ Dict.keys Demo.a_edited ->
          Dict.get q (files m') = Dict.get q (files Demo.manifest_two)).
Proof.
  apply (index_keeps_entries Demo.extract Demo.embed Demo.a_edited 128 Demo.indexed
           (mkStats 1 1 1 (Some 0%nat) 1) Demo.edited_indexed Demo.manifest_two);
    [reflexivity | compute_done | compute_done | vm_compute; reflexivity].
Defined.

Lemma index_store_frame_witness :
  db Demo.edited_indexed !! "b.py:1:main" = db Demo.indexed !! "b.py:1:main".
Proof.
  apply (index_store_frame Demo.extract Demo.embed Demo.a_edited 128 Demo.indexed
           (Ok (mkStats 1 1 1 (Some 0%nat) 1)) Demo.edited_indexed Demo.manifest_two);
    [reflexivity | compute_done | vm_compute; reflexivity | compute_done |].
  assert (staged Demo.extract (files Demo.manifest_two) Demo.a_edited
          = [stage "a.py" (content_hash "def a(): return 1")
               (mkBlock "function" "main" 1 1 "def a(): return 1")]) as ->
    by (vm_compute; reflexivity).
  intros bi ->%list_elem_of_singleton. compute_done.
Defined.

Lemma batches_partition_witness :
  concat (map (fun i => take (Z.to_nat 2) (drop i ["a"; "b"; "c"; "d"; "e"])) [0; 2; 4]%nat)
  = ["a"; "b"; "c"; "d"; "e"]
  /\ (forall k i, [0; 2; 4]%nat !! k = Some i -> i = (k * Z.to_nat 2)%nat)
  /\ Forall
       (fun i =>
          (0 < length (take (Z.to_nat 2) (drop i ["a"; "b"; "c"; "d"; "e"])) <= Z.to_nat 2)%nat)
       [0; 2; 4]%nat.
Proof.
  apply (batches_partition ["a"; "b"; "c"; "d"; "e"] 2 [0; 2; 4]%nat); [reflexivity | lia].
Defined.

Lemma block_id_inj_witness :
  "src/a.py" = "src/a.py"
  /\ block_start_line (mkBlock "function" "main" 12 20 "def main(): pass")
     = block_start_line (mkBlock "class" "main" 12 14 "class main: pass")
  /\ block_name (mkBlock "function" "main" 12 20 "def main(): pass")
     = block_name (mkBlock "class" "main" 12 14 "class main: pass").
Proof.
  apply (block_id_inj "src/a.py" "src/a.py"); [compute_done | compute_done | reflexivity].
Defined.

(** With a [":"] in a path, blocks of two files have the same id. *)
Example block_id_collision :
  block_id "a:1" (mkBlock "function" "f" 2 3 "") = block_id "a" (mkBlock "function" "2:f" 1 3 "").
Proof. reflexivity. Qed.

Lemma update_noop_iff_witness :
  (needs_update Demo.two_files Demo.indexed = Ok 0%nat ->
   update Demo.extract Demo.embed Demo.two_files Demo.indexed
   = (Ok (mkStats 0 0 (length Demo.two_files) None 0), Demo.indexed))
  /\ (forall st s',
        update Demo.extract Demo.embed Demo.two_files Demo.indexed = (Ok st, s') ->
        stat_errors st = None ->
        needs_update Demo.two_files Demo.indexed = Ok 0%nat
        /\ st = mkStats 0 0 (length Demo.two_files) None 0 /\ s' = Demo.indexed).
Proof.
  apply (update_noop_iff Demo.extract Demo.embed Demo.two_files Demo.indexed
           Demo.manifest_two); [reflexivity | compute_done | compute_done].
Defined.

Lemma update_stats_witness :
  let st := mkStats 0 0 0 (Some 0%nat) 1 in
  (([] : list string) = [] /\ ["b.py"] = [] /\ st = mkStats 0 0 (length Demo.b_removed) None 0
   /\ Demo.a_only = Demo.indexed)
  \/ ((([] : list string) <> [] \/ ["b.py"] <> [])
      /\ exists e,
           stat_errors st = Some e
           /\ stat_skipped st = 0%nat
           /\ (stat_files st + e = length ([] : list string))%nat
           /\ stat_deleted st
              = length (deleted_ids (files Demo.manifest_two) ([] ++ ["b.py"]))).
Proof.
  apply (update_stats Demo.extract Demo.embed Demo.b_removed Demo.indexed Demo.manifest_two
           (mkStats 0 0 0 (Some 0%nat) 1) Demo.a_only [] ["b.py"]);
    [reflexivity | compute_done | compute_done | vm_compute; reflexivity
    | vm_compute; reflexivity].
Defined.

Lemma update_settles_witness :
  get_stale_files Demo.b_removed Demo.a_only = Ok ([], [])
  /\ needs_update Demo.b_removed Demo.a_only = Ok 0%nat
  /\ update Demo.extract Demo.embed Demo.b_removed Demo.a_only
     = (Ok (mkStats 0 0 (length Demo.b_removed) None 0), Demo.a_only).
Proof.
  apply (update_settles Demo.extract Demo.embed Demo.b_removed Demo.indexed Demo.manifest_two
           (mkStats 0 0 0 (Some 0%nat) 1) Demo.a_only);
    [reflexivity | compute_done | compute_done | vm_compute; reflexivity | reflexivity
    | by right].
Defined.

Lemma index_makes_indexed_witness :
  (is_indexed Demo.indexed = true <-> (0 < stat_blocks (mkStats 2 2 0 (Some 0%nat) 0))%nat)
  /\ (is_indexed Demo.indexed = false ->
      Demo.indexed = Demo.fresh /\ count Demo.indexed = 0%nat).
Proof.
  apply (index_makes_indexed Demo.extract Demo.embed Demo.two_files 128 Demo.fresh
           (mkStats 2 2 0 (Some 0%nat) 0) Demo.indexed);
    [reflexivity | compute_done | lia | vm_compute; reflexivity].
Defined.

Lemma count_after_first_index_witness :
  (count Demo.indexed <= stat_blocks (mkStats 2 2 0 (Some 0%nat) 0))%nat
  /\ ((forall q, q ∈ Dict.keys Demo.two_files -> no_colon q) ->
      (forall p c blocks,
         (p, c) ∈ Demo.two_files -> Demo.extract p c = Some blocks ->
         NoDup ((fun b => (block_start_line b, block_name b)) <$> blocks)) ->
      count Demo.indexed = stat_blocks (mkStats 2 2 0 (Some 0%nat) 0)).
Proof.
  apply (count_after_first_index Demo.extract Demo.embed Demo.two_files 128 Demo.fresh
           (mkStats 2 2 0 (Some 0%nat) 0) Demo.indexed);
    [reflexivity | reflexivity | compute_done | lia | vm_compute; reflexivity].
Defined.

Lemma rebuild_recovers_witness :
  exists s',
    rebuild Demo.extract Demo.embed Demo.two_files Demo.corrupt = (Ok (), s')
    /\ consistent s' /\ is_indexed s' = true
    /\ (forall id it, db s' !! id = Some it -> origin it ∈ Dict.keys Demo.two_files)
    /\ needs_update Demo.two_files s' = Ok 0%nat.
Proof.
  apply (rebuild_recovers Demo.extract Demo.embed Demo.two_files Demo.corrupt);
    [exact demo_embed_length | reflexivity | compute_done | | |].
  - intros q [->|[->|[]%elem_of_nil]%elem_of_cons]%elem_of_cons; compute_done.
  - intros p c [[= -> ->]|[[= -> ->]|[]%elem_of_nil]%elem_of_cons]%elem_of_cons;
      by eexists.
  - exists "a.py", Demo.src_a, (mkBlock "function" "main" 1 1 Demo.src_a), [].
    split; [left|reflexivity].
Defined.

Example rebuild_corrupt :
  rebuild Demo.extract Demo.embed Demo.two_files Demo.corrupt = (Ok (), Demo.rebuilt).
Proof. vm_compute. reflexivity. Qed.

Lemma preview_bounds_witness :
  (length (preview "010"%char "."%char Ascii.is_space Demo.five_lines) <= 3)%nat
  /\ Forall (fun ln => (length ln <= 80)%nat /\ "010"%char ∉ ln)
       (preview "010"%char "."%char Ascii.is_space Demo.five_lines)
  /\ exists lines,
       lines `prefix_of` filter (fun ln => not_blank Ascii.is_space ln = true)
                           (split_lines "010"%char Demo.five_lines)
       /\ length lines
          = (3 `min` length (filter (fun ln => not_blank Ascii.is_space ln = true)
                               (split_lines "010"%char Demo.five_lines)))%nat
       /\ preview "010"%char "."%char Ascii.is_space Demo.five_lines
          = (fun src => if decide (80 < length src)%nat
                        then take 77 src ++ ["."%char; "."%char; "."%char] else src) <$> lines.
Proof.
  apply (preview_bounds "010"%char "."%char Ascii.is_space Demo.five_lines). discriminate.
Defined.

Example preview_five_lines :
  preview "010"%char "."%char Ascii.is_space Demo.five_lines
  = [list_ascii_of_string "def a():";
     replicate 77 "x"%char ++ list_ascii_of_string "...";
     list_ascii_of_string "    pass"].
Proof. vm_compute. reflexivity. Qed.

Lemma semantic_search_spec_witness :
  exists results,
    search Demo.embed Demo.db_search "main" 2 Demo.indexed = Ok results
    /\ [mkSearchResult "" "" "" 0 0 "" 1%float] `sublist_of` results
    /\ (forall r,
          r ∈ [mkSearchResult "" "" "" 0 0 "" 1%float]
          <-> r ∈ results
              /\ ((0 <? 0.875)%float = true -> (0.875 <=? res_score r)%float = true))
    /\ ((0 <? 0.875)%float = false -> [mkSearchResult "" "" "" 0 0 "" 1%float] = results).
Proof.
  apply (semantic_search_spec Demo.embed Demo.db_search "main" 2 0.875%float Demo.indexed).
  vm_compute. reflexivity.
Defined.

Lemma semantic_search_threshold_monotone_witness :
  exists out1,
    semantic_search Demo.embed Demo.db_search "main" 2 0.5%float Demo.indexed = Ok out1
    /\ [mkSearchResult "" "" "" 0 0 "" 1%float] `sublist_of` out1.
Proof.
  apply (semantic_search_threshold_monotone Demo.embed Demo.db_search "main" 2
           0.5%float 0.875%float Demo.indexed);
    [reflexivity | reflexivity | vm_compute; reflexivity].
Defined.

Lemma semantic_search_threshold_above_1_witness :
  semantic_search Demo.embed Demo.db_search "main" 2 1.5%float Demo.indexed = Ok [].
Proof.
  apply (semantic_search_threshold_above_1 Demo.embed Demo.db_search "main" 2 1.5%float
           Demo.indexed
           [mkSearchResult "a.py" "function" "main" 1 1 Demo.src_a 0.75%float;
            mkSearchResult "" "" "" 0 0 "" 1%float]);
    [reflexivity | vm_compute; reflexivity |].
  intros q raw d _ [->|[->|[]%elem_of_nil]%elem_of_cons]%elem_of_cons [= <-].
  split; reflexivity.
Defined.

Lemma stale_files_order_witness :
  ["a.py"] `sublist_of` Dict.keys [("a.py", "def a(): return 1")]
  /\ ["b.py"] `sublist_of` Dict.keys (files Demo.manifest_two)
  /\ (forall p, p ∈ ["a.py"] -> p ∈ ["b.py"] -> False).
Proof.
  apply (stale_files_order [("a.py", "def a(): return 1")] Demo.indexed Demo.manifest_two);
    [reflexivity | vm_compute; reflexivity].
Defined.

Lemma update_leaves_legacy_vectors_witness :
  exists s' m',
    update Demo.extract Demo.embed [("a.py", Demo.src_a)] Demo.v1_index
    = (Ok (mkStats 0 0 0 (Some 0%nat) 0), s')
    /\ db s' = db Demo.v1_index
    /\ _load_manifest s' = Ok m'
    /\ (forall p, p ∉ Dict.keys [("a.py", Demo.src_a)] -> Dict.get p (files m') = None).
Proof.
  apply (update_leaves_legacy_vectors Demo.extract Demo.embed [("a.py", Demo.src_a)]
           Demo.v1_index Demo.v1_manifest);
    [reflexivity | compute_done | compute_done | | |].
  - intros p c [[= -> ->]|[]%elem_of_nil]%elem_of_cons. reflexivity.
  - intros p [->|[->|[]%elem_of_nil]%elem_of_cons]%elem_of_cons Hout; [|by eexists].
    destruct Hout. left.
  - exists "old.py". split; compute_done.
Defined.

(** The vector of [old.py] is in the store after the update that dropped
    its entry. *)
Example update_v1_index :
  exists s',
    update Demo.extract Demo.embed [("a.py", Demo.src_a)] Demo.v1_index
    = (Ok (mkStats 0 0 0 (Some 0%nat) 0), s')
    /\ db s' !! "old.py:1:main" = Some (Demo.item "old.py" "def old(): pass")
    /\ _load_manifest s' = Ok (mkManifest [("a.py", Entry (content_hash Demo.src_a) [])]).
Proof. eexists. split_and!; vm_compute; reflexivity. Qed.
